(** * Oil-spill simulation on a triangular mesh

    A shallow embedding of the simulation core: the cell model
    ([cells.py]), the mesh with its connectivity builder and its
    region-of-interest query ([mesh.py]), and the explicit flux stepper with
    its restart files and its run ([solver.py]).

    Numbers.  The program computes with IEEE doubles.  Here a double is an
    exact rational ([Q]): rounding, [inf] and [nan] are not represented, and
    equalities between computed numbers are stated with [==].  A NumPy
    division by zero (a warning, then [inf] or [nan]) is [Qdiv]'s zero; the
    theorems that depend on a quotient assume its divisor is not zero.  A
    division between plain Python floats raises [ZeroDivisionError], and
    that is modelled.

    Arrays.  A NumPy array of one dimension is a list of numbers; the rows of
    a two-dimensional array have one length.  The velocity and the normals,
    which the constructors build with three entries, are [vec3].

    Effects.  A function that can raise returns a [result]; the loops are
    folds that stop at the first exception.  Objects mutated in place are
    passed on explicitly: the neighbour list of a cell, the cells of the
    mesh, the solver, the files.  What a run draws with Matplotlib and
    OpenCV is not modelled: the calls are recorded in the order they are
    made. *)

From Stdlib Require Import QArith Qabs ZArith List String Ascii Bool Lia Lqa.
From Stdlib Require Import Permutation.
Import ListNotations.

Open Scope Q_scope.

(** ** Exceptions and results *)

Inductive exn : Set :=
| ValueError
| IndexError
| AttributeError
| KeyError
| FileNotFoundError
| ZeroDivisionError.

Inductive result (A : Type) : Type :=
| Ok (a : A)
| Raise (e : exn).

Arguments Ok {A} a.
Arguments Raise {A} e.

Definition bind {A B : Type} (r : result A) (k : A -> result B) : result B :=
  match r with
  | Ok a => k a
  | Raise e => Raise e
  end.

Notation "x <- r ;; k" := (bind r (fun x => k))
  (at level 61, r at next level, right associativity).

Definition is_raise {A : Type} (r : result A) : Prop :=
  exists e, r = Raise e.

(** [for x in xs: acc = f(acc, x)], stopping at the first exception. *)
Fixpoint foldM {A B : Type} (f : A -> B -> result A) (xs : list B) (acc : A)
  : result A :=
  match xs with
  | [] => Ok acc
  | x :: xs' => acc' <- f acc x ;; foldM f xs' acc'
  end.

(** [[f(x) for x in xs]], stopping at the first exception. *)
Fixpoint mapM {A B : Type} (f : A -> result B) (xs : list A) : result (list B) :=
  match xs with
  | [] => Ok []
  | x :: xs' => y <- f x ;; ys <- mapM f xs' ;; Ok (y :: ys)
  end.

(** [enumerate(xs)], counting from [i]. *)
Fixpoint enumerate_from {A : Type} (i : nat) (xs : list A) : list (nat * A) :=
  match xs with
  | [] => []
  | x :: xs' => (i, x) :: enumerate_from (S i) xs'
  end.

Definition enumerate {A : Type} (xs : list A) : list (nat * A) :=
  enumerate_from 0 xs.

(** [xs[i]] for a non-negative [i]: [IndexError] out of range. *)
Definition getitem {A : Type} (xs : list A) (i : nat) : result A :=
  match nth_error xs i with
  | Some x => Ok x
  | None => Raise IndexError
  end.

(** [xs[i] = v] for a non-negative [i]: [IndexError] out of range. *)
Fixpoint setitem {A : Type} (xs : list A) (i : nat) (v : A) : result (list A) :=
  match xs, i with
  | [], _ => Raise IndexError
  | _ :: xs', O => Ok (v :: xs')
  | x :: xs', S i' => xs'' <- setitem xs' i' v ;; Ok (x :: xs'')
  end.

(** ** One-dimensional arrays *)

Definition qsum (xs : list Q) : Q := fold_left Qplus xs 0.

(** [np.dot] of two one-dimensional arrays; shapes that differ raise. *)
Definition np_dot (n v : list Q) : result Q :=
  if Nat.eqb (List.length n) (List.length v)
  then Ok (qsum (map (fun p => fst p * snd p) (combine n v)))
  else Raise ValueError.

(** The arrays the constructors build with [np.array([x, y, 0.0])]. *)
Record vec3 : Set := V3 { vx : Q; vy : Q; vz : Q }.

Definition vec3_list (a : vec3) : list Q := [vx a; vy a; vz a].
Definition vec3_add (a b : vec3) : vec3 := V3 (vx a + vx b) (vy a + vy b) (vz a + vz b).
Definition vec3_scale (k : Q) (a : vec3) : vec3 := V3 (k * vx a) (k * vy a) (k * vz a).
Definition vec3_opp (a : vec3) : vec3 := V3 (- vx a) (- vy a) (- vz a).
Definition vec3_eq (a b : vec3) : Prop := vx a == vx b /\ vy a == vy b /\ vz a == vz b.

(** ** The flux function ([Solver.flux_function]) *)

Definition flux_function (a b : Q) (n v : list Q) : result Q :=
  angle <- np_dot n v ;;
  Ok (if Qlt_le_dec 0 angle then a * angle else b * angle).

(** ** Cells ([cells.py])

    [np.exp] and the square root under [np.linalg.norm] are functions of
    NumPy, not of this program: the constructors take them as parameters. *)

(** What [Cell.__init__] stores. *)
Record CellBase : Type := mkCellBase {
  _point_ids : list nat;
  _idx : nat;
  midpoint : list Q;
  neighbors : list Z;
  _points : list (list Q);
  velocity : vec3
}.

(** The two registered cell classes.  A [Triangle] (type "triangle") carries
    [oil_value], [area] and [normals]; a [Line] (type "line") carries
    [oil_value] only. *)
Inductive Cell : Type :=
| Triangle (base : CellBase) (oil : Q) (area : Q) (normals : list vec3)
| Line (base : CellBase) (oil : Q).

Definition cell_base (c : Cell) : CellBase :=
  match c with
  | Triangle b _ _ _ => b
  | Line b _ => b
  end.

Definition oil_value (c : Cell) : Q :=
  match c with
  | Triangle _ u _ _ => u
  | Line _ u => u
  end.

(** [cell.oil_value = v] *)
Definition set_oil_value (c : Cell) (v : Q) : Cell :=
  match c with
  | Triangle b _ a ns => Triangle b v a ns
  | Line b _ => Line b v
  end.

(** [cell.neighbors = nbrs] (the list is mutated in place in the source). *)
Definition set_neighbors (c : Cell) (nbrs : list Z) : Cell :=
  let b := cell_base c in
  let b' := mkCellBase (_point_ids b) (_idx b) (midpoint b) nbrs (_points b) (velocity b) in
  match c with
  | Triangle _ u a ns => Triangle b' u a ns
  | Line _ u => Line b' u
  end.

Definition is_triangle (c : Cell) : bool :=
  match c with
  | Triangle _ _ _ _ => true
  | Line _ _ => false
  end.

(** [cell.area] and [cell.normals]: a [Line] has neither attribute. *)
Definition cell_area (c : Cell) : result Q :=
  match c with
  | Triangle _ _ a _ => Ok a
  | Line _ _ => Raise AttributeError
  end.

Definition cell_normals (c : Cell) : result (list vec3) :=
  match c with
  | Triangle _ _ _ ns => Ok ns
  | Line _ _ => Raise AttributeError
  end.

(** Elementwise operations on the rows of one array (rows of equal length). *)
Definition row_add (a b : list Q) : list Q :=
  map (fun p => fst p + snd p) (combine a b).

Definition row_sub (a b : list Q) : list Q :=
  map (fun p => fst p - snd p) (combine a b).

(** [np.mean(points, axis=0)]; an array without rows is given no columns. *)
Definition np_mean_axis0 (points : list (list Q)) : list Q :=
  match points with
  | [] => []
  | r :: rs =>
      map (fun s => s / inject_Z (Z.of_nat (List.length points)))
          (fold_left row_add rs r)
  end.

(** [Cell.__init__] *)
Definition Cell_init (point_ids : list nat) (idx : nat) (points : list (list Q))
  : result CellBase :=
  let mid := np_mean_axis0 points in
  let nbrs := map (fun _ => (-1)%Z) point_ids in
  m1 <- getitem mid 1 ;;
  m0 <- getitem mid 0 ;;
  Ok (mkCellBase point_ids idx mid nbrs points (V3 (m1 - 0.2 * m0) (- m0) 0)).

Section NumPy.

Variable np_exp : Q -> Q.
Variable np_sqrt : Q -> Q.

(** [np.linalg.norm] *)
Definition np_norm (v : list Q) : Q :=
  np_sqrt (qsum (map (fun x => x * x) v)).

(** One turn of the loop over the edges in [Triangle.__init__]. *)
Definition edge_normal (mid p1 p2 : list Q) : result vec3 :=
  let v := row_sub p2 p1 in
  v1 <- getitem v 1 ;;
  v0 <- getitem v 0 ;;
  let normal := V3 (- v1) v0 0 in
  d <- np_dot (vec3_list normal) (row_sub p1 mid) ;;
  let normal := if Qlt_le_dec d 0
                then V3 (vx normal * -1) (vy normal * -1) (vz normal * -1)
                else normal in
  let n := np_norm (vec3_list normal) in
  let l := np_norm v in
  Ok (V3 (vx normal / n * l) (vy normal / n * l) (vz normal / n * l)).

(** [pts[1:] + [pts[0]]] *)
Definition cycle {A : Type} (pts : list A) : result (list A) :=
  match pts with
  | [] => Raise IndexError
  | p :: rest => Ok (rest ++ [p])
  end.

(** [points[i][j]] *)
Definition point_coord (points : list (list Q)) (i j : nat) : result Q :=
  row <- getitem points i ;; getitem row j.

(** [Triangle.__init__] *)
Definition Triangle_init (point_ids : list nat) (idx : nat) (points : list (list Q))
  : result Cell :=
  base <- Cell_init point_ids idx points ;;
  m0 <- getitem (midpoint base) 0 ;;
  m1 <- getitem (midpoint base) 1 ;;
  let oil := np_exp (- ((m0 - 0.35) * (m0 - 0.35) + (m1 - 0.45) * (m1 - 0.45)) / 0.01) in
  if negb (Nat.eqb (List.length point_ids) 3) then Raise ValueError else
  if negb (Nat.eqb (List.length points) 3) then Raise ValueError else
  p00 <- point_coord points 0 0 ;;
  p20 <- point_coord points 2 0 ;;
  p11 <- point_coord points 1 1 ;;
  p01 <- point_coord points 0 1 ;;
  p10 <- point_coord points 1 0 ;;
  p21 <- point_coord points 2 1 ;;
  let area := 0.5 * Qabs ((p00 - p20) * (p11 - p01) - (p00 - p10) * (p21 - p01)) in
  coords_cycle <- cycle points ;;
  normals <- mapM (fun e => edge_normal (midpoint base) (fst e) (snd e))
                  (combine points coords_cycle) ;;
  Ok (Triangle base oil area normals).

(** [Line.__init__] *)
Definition Line_init (point_ids : list nat) (idx : nat) (points : list (list Q))
  : result Cell :=
  base <- Cell_init point_ids idx points ;;
  Ok (Line base 0).

End NumPy.

(** ** Connectivity ([Triangle.compute_neighbors], [Line.compute_neighbors]) *)

(** [p in cell._point_ids] *)
Definition mem (p : nat) (ids : list nat) : bool := existsb (Nat.eqb p) ids.

(** [len(set(mine) & set(other))] *)
Definition shared_count (mine other : list nat) : nat :=
  List.length (nodup Nat.eq_dec (filter (fun p => mem p other) mine)).

(** The inner loop over [enumerate(zip(pts, pts_plus))]: the first edge whose
    two ends are both points of the other cell, where the loop breaks. *)
Fixpoint first_edge (edges : list (nat * (nat * nat))) (other : list nat)
  : option nat :=
  match edges with
  | [] => None
  | (i, (p, pplus)) :: rest =>
      if mem p other && mem pplus other then Some i else first_edge rest other
  end.

(** The body of the loop over [enumerate(cells)]. *)
Definition visit_cell (point_ids : list nat) (nbrs : list Z) (entry : nat * Cell)
  : result (list Z) :=
  let (idx, cell) := entry in
  let other := _point_ids (cell_base cell) in
  if Nat.eqb (shared_count point_ids other) 2 then
    pts_plus <- cycle point_ids ;;
    match first_edge (enumerate (combine point_ids pts_plus)) other with
    | Some i => setitem nbrs i (Z.of_nat idx)
    | None => Ok nbrs
    end
  else Ok nbrs.

(** [Triangle.compute_neighbors]: the neighbour list it leaves in [self]. *)
Definition Triangle_compute_neighbors (self : CellBase) (cells : list Cell)
  : result (list Z) :=
  foldM (visit_cell (_point_ids self)) (enumerate cells) (neighbors self).

(** [cell.compute_neighbors(cells)], by the class of the cell; a [Line]
    passes. *)
Definition compute_neighbors (self : Cell) (cells : list Cell) : result Cell :=
  match self with
  | Triangle b _ _ _ =>
      nbrs <- Triangle_compute_neighbors b cells ;; Ok (set_neighbors self nbrs)
  | Line _ _ => Ok self
  end.

(** ** The mesh ([mesh.py]) *)

(** What [meshio.read] hands over: the point table and the cell blocks, each
    a type name with the vertex indices of its cells. *)
Record MeshData : Type := mkMeshData {
  md_points : list (list Q);
  md_cells : list (string * list (list nat))
}.

Record Mesh : Type := mkMesh {
  mesh_points : list (list Q);
  _cells : list Cell
}.

Section MeshInit.

Variable np_exp : Q -> Q.
Variable np_sqrt : Q -> Q.

(** [CellFactory]: the registered classes, latest registration first. *)
Definition CellFactory : Type :=
  list (string * (list nat -> nat -> list (list Q) -> result Cell)).

Definition register (key : string)
  (cell_class : list nat -> nat -> list (list Q) -> result Cell)
  (factory : CellFactory) : CellFactory :=
  (key, cell_class) :: factory.

Fixpoint CellFactory_call (factory : CellFactory) (key : string)
  (point_ids : list nat) (idx : nat) (points : list (list Q)) : result Cell :=
  match factory with
  | [] => Raise KeyError
  | (k, cell_class) :: rest =>
      if String.eqb k key then cell_class point_ids idx points
      else CellFactory_call rest key point_ids idx points
  end.

(** [points[cell_idx, :]] *)
Definition take_rows (points : list (list Q)) (cell_idx : list nat)
  : result (list (list Q)) :=
  mapM (getitem points) cell_idx.

(** [Mesh.__init__], from the data read by [meshio]. *)
Definition Mesh_init (data : MeshData) : result Mesh :=
  let points := md_points data in
  let factory :=
    register "line" Line_init
      (register "triangle" (Triangle_init np_exp np_sqrt) []) in
  cells <-
    foldM (fun cells block =>
             let (cell_type, cellindices) := (block : string * list (list nat)) in
             if String.eqb cell_type "vertex" then Ok cells
             else
               foldM (fun cells cell_idx =>
                        rows <- take_rows points cell_idx ;;
                        cell <- CellFactory_call factory cell_type cell_idx
                                  (List.length cells) rows ;;
                        Ok (cells ++ [cell]))
                     cellindices cells)
          (md_cells data) [] ;;
  Ok (mkMesh points cells).

End MeshInit.

(** [Mesh.find_neighbors]: each cell in turn computes its neighbours against
    the cell list as it then stands. *)
Definition find_neighbors (m : Mesh) : result Mesh :=
  cells <-
    foldM (fun cells i =>
             cell <- getitem cells i ;;
             cell' <- compute_neighbors cell cells ;;
             setitem cells i cell')
          (seq 0 (List.length (_cells m))) (_cells m) ;;
  Ok (mkMesh (mesh_points m) cells).

(** [a <= x <= b] *)
Definition between (a x b : Q) : bool := Qle_bool a x && Qle_bool x b.

(** [Mesh.fishing_cells]: the comprehension, cell by cell.  A cell that is not
    a triangle is dropped before its midpoint is read. *)
Fixpoint fishing_filter (cells : list Cell) (x_min x_max y_min y_max : Q)
  : result (list Cell) :=
  match cells with
  | [] => Ok []
  | cell :: rest =>
      keep <-
        (if is_triangle cell then
           m0 <- getitem (midpoint (cell_base cell)) 0 ;;
           if between x_min m0 x_max then
             m1 <- getitem (midpoint (cell_base cell)) 1 ;;
             Ok (between y_min m1 y_max)
           else Ok false
         else Ok false) ;;
      tail <- fishing_filter rest x_min x_max y_min y_max ;;
      Ok (if keep then cell :: tail else tail)
  end.

Definition fishing_cells (m : Mesh) (x_min x_max y_min y_max : Q)
  : result (list Cell) :=
  fishing_filter (_cells m) x_min x_max y_min y_max.

(** ** Text and files

    The restart files are text.  A character of a text is an ASCII character,
    or the whole text of one float as Python prints it ([Fl q] for [str(q)]):
    such a text is never empty, holds no blank, no colon and no line break,
    is not an integer literal, and [float] reads it back as the same number.
    Every float written in a file is one [Fl]; plain characters spell a
    number only as an integer literal. *)

Inductive pychar : Type :=
| Ch (c : ascii)
| Fl (q : Q).

Definition text : Type := list pychar.

(** A string literal as a text. *)
Definition lit (s : string) : text := map Ch (list_ascii_of_string s).

Definition pychar_eqb (a b : pychar) : bool :=
  match a, b with
  | Ch c, Ch d => Ascii.eqb c d
  | Fl p, Fl q => Qeq_bool p q
  | _, _ => false
  end.

Fixpoint text_eqb (s t : text) : bool :=
  match s, t with
  | [], [] => true
  | a :: s', b :: t' => pychar_eqb a b && text_eqb s' t'
  | _, _ => false
  end.

Definition is_char (c : ascii) (a : pychar) : bool :=
  match a with
  | Ch d => Ascii.eqb c d
  | Fl _ => false
  end.

Definition newline : ascii := ascii_of_nat 10.

(** The ASCII characters [str.strip] removes. *)
Definition is_space (a : pychar) : bool :=
  match a with
  | Ch c => let n := nat_of_ascii c in
            Nat.eqb n 32 || (Nat.leb 9 n && Nat.leb n 13)
            || (Nat.leb 28 n && Nat.leb n 31)
  | Fl _ => false
  end.

Fixpoint lstrip (t : text) : text :=
  match t with
  | [] => []
  | a :: t' => if is_space a then lstrip t' else t
  end.

(** [t.strip()] *)
Definition strip (t : text) : text := rev (lstrip (rev (lstrip t))).

(** [f.readlines()], and the lines of [for line in f]: each line keeps its
    line break, the character of code 10. *)
Fixpoint readlines_from (line : text) (t : text) : list text :=
  match t with
  | [] => match line with [] => [] | _ => [rev line] end
  | a :: t' =>
      if is_char newline a then rev (a :: line) :: readlines_from [] t'
      else readlines_from (a :: line) t'
  end.

Definition readlines (t : text) : list text := readlines_from [] t.

(** [t.split(":")] *)
Fixpoint split_from (part : text) (t : text) : list text :=
  match t with
  | [] => [rev part]
  | a :: t' =>
      if is_char ":" a then rev part :: split_from [] t'
      else split_from (a :: part) t'
  end.

Definition split_colon (t : text) : list text := split_from [] t.

(** [key, value = parts] *)
Definition unpack2 (parts : list text) : result (text * text) :=
  match parts with
  | [k; v] => Ok (k, v)
  | _ => Raise ValueError
  end.

Definition digit_value (a : pychar) : option Z :=
  match a with
  | Ch c => let n := nat_of_ascii c in
            if Nat.leb 48 n && Nat.leb n 57 then Some (Z.of_nat (n - 48)) else None
  | Fl _ => None
  end.

Fixpoint digits_value (acc : Z) (t : text) : option Z :=
  match t with
  | [] => Some acc
  | a :: t' =>
      match digit_value a with
      | Some d => digits_value (10 * acc + d) t'
      | None => None
      end
  end.

(** An integer literal: an optional sign, then one decimal digit or more. *)
Definition int_literal (t : text) : option Z :=
  match t with
  | [] => None
  | a :: t' =>
      if is_char "-" a then
        match t' with [] => None | _ => option_map Z.opp (digits_value 0 t') end
      else if is_char "+" a then
        match t' with [] => None | _ => digits_value 0 t' end
      else digits_value 0 t
  end.

(** [int(t)] *)
Definition py_int (t : text) : result Z :=
  match int_literal (strip t) with
  | Some z => Ok z
  | None => Raise ValueError
  end.

(** [float(t)] *)
Definition py_float (t : text) : result Q :=
  match strip t with
  | [Fl q] => Ok q
  | s => match int_literal s with
         | Some z => Ok (inject_Z z)
         | None => Raise ValueError
         end
  end.

(** [int(x)] of a float: truncation toward zero. *)
Definition int_of_float (x : Q) : Z := Z.quot (Qnum x) (Zpos (Qden x)).

(** The files of the restart folders, by path. *)
Definition files : Type := string -> option text.

Definition write_file (fs : files) (path : string) (content : text) : files :=
  fun p => if String.eqb p path then Some content else fs p.

Definition exists_file (fs : files) (path : string) : bool :=
  match fs path with
  | Some _ => true
  | None => false
  end.

Definition read_file (fs : files) (path : string) : result text :=
  match fs path with
  | Some t => Ok t
  | None => Raise FileNotFoundError
  end.

(** ** Paths ([os.path], POSIX) *)

(** [s.rfind(c)]: the last index of [c], or -1. *)
Fixpoint rfind_from (c : ascii) (s : list ascii) (i : Z) (found : Z) : Z :=
  match s with
  | [] => found
  | d :: s' => rfind_from c s' (i + 1) (if Ascii.eqb c d then i else found)
  end.

Definition rfind (c : ascii) (s : list ascii) : Z := rfind_from c s 0 (-1).

(** [os.path.splitext(p)[0]] *)
Definition splitext_root (p : string) : string :=
  let s := list_ascii_of_string p in
  let sepIndex := rfind "/" s in
  let dotIndex := rfind "." s in
  if (sepIndex <? dotIndex)%Z then
    let name := firstn (Z.to_nat (dotIndex - sepIndex - 1))
                       (skipn (Z.to_nat (sepIndex + 1)) s) in
    if existsb (fun d => negb (Ascii.eqb d ".")) name
    then string_of_list_ascii (firstn (Z.to_nat dotIndex) s)
    else p
  else p.

(** [os.path.join(a, b)] *)
Definition path_join (a b : string) : string :=
  match list_ascii_of_string b with
  | c :: _ => if Ascii.eqb c "/" then b
              else match rev (list_ascii_of_string a) with
                   | [] => b
                   | d :: _ => if Ascii.eqb d "/" then a ++ b else a ++ "/" ++ b
                   end
  | [] => match rev (list_ascii_of_string a) with
          | [] => b
          | d :: _ => if Ascii.eqb d "/" then a else a ++ "/"
          end
  end%string.

(** ** The solver ([solver.py]) *)

(** The configuration entries the core reads (the log name, the write
    frequency and the source point feed only logging and plotting). *)
Record Config : Type := mkConfig {
  cfg_meshName : string;
  cfg_tStart : Q;
  cfg_tEnd : Q;
  cfg_nSteps : Z;
  cfg_borders : (Q * Q) * (Q * Q);
  cfg_restartFile : option string
}.

(** The attributes of a [Solver] that the stepper and the restart files use
    (the image counter, the log name and the write frequency belong to the
    plots). *)
Record Solver : Type := mkSolver {
  _meshName : string;
  _mesh : Mesh;
  _tStart : Q;
  _tEnd : Q;
  _nt : Z;
  dt : Q;
  fishing_borders : (Q * Q) * (Q * Q);
  restart_file : option string
}.

Definition with_mesh (s : Solver) (m : Mesh) : Solver :=
  mkSolver (_meshName s) m (_tStart s) (_tEnd s) (_nt s) (dt s)
           (fishing_borders s) (restart_file s).

Definition with_tStart (s : Solver) (t : Q) : Solver :=
  mkSolver (_meshName s) (_mesh s) t (_tEnd s) (_nt s) (dt s)
           (fishing_borders s) (restart_file s).

Definition with_nt (s : Solver) (n : Z) : Solver :=
  mkSolver (_meshName s) (_mesh s) (_tStart s) (_tEnd s) n (dt s)
           (fishing_borders s) (restart_file s).

(** A division of two Python floats. *)
Definition float_div (x y : Q) : result Q :=
  if Qeq_bool y 0 then Raise ZeroDivisionError else Ok (x / y).

(** One turn of the loop over [enumerate(cell.neighbors)] in
    [Solver.calculate]: the running [up] after edge [i].  The quotient
    [dt / area] is that of the code for an area that is not zero; for an area
    of zero NumPy warns and stores an infinity or a NaN, which this model
    has no number for, and the theorems about the values that triangles take
    in a step assume [positive_areas]. *)
Definition edge_update (dt : Q) (cells : list Cell) (u : list Q)
  (cell_idx : nat) (cell : Cell) (up : Q) (entry : nat * Z) : result Q :=
  let (i, ngh) := entry in
  if (ngh <? 0)%Z then Ok up else
  normals <- cell_normals cell ;;
  normal <- getitem normals i ;;
  area <- cell_area cell ;;
  other <- getitem cells (Z.to_nat ngh) ;;
  let velocity :=
    vec3_scale 0.5 (vec3_add (velocity (cell_base cell)) (velocity (cell_base other))) in
  ui <- getitem u cell_idx ;;
  ungh <- getitem u (Z.to_nat ngh) ;;
  f <- flux_function ui ungh (vec3_list normal) (vec3_list velocity) ;;
  Ok (up - (dt / area) * f).

(** The body of the first loop over the cells: [u_new[cell_idx]]. *)
Definition new_value (dt : Q) (cells : list Cell) (u : list Q)
  (entry : nat * Cell) : result Q :=
  let (cell_idx, cell) := entry in
  up <- foldM (edge_update dt cells u cell_idx cell)
              (enumerate (neighbors (cell_base cell))) 0 ;;
  ui <- getitem u cell_idx ;;
  Ok (ui + up).

(** The second loop: [cell.oil_value = u_new[cell_idx]]. *)
Definition commit (cells : list Cell) (u_new : list Q) : list Cell :=
  map (fun p => set_oil_value (fst p) (snd p)) (combine cells u_new).

(** [Solver.calculate]: one time step over the cells of the mesh. *)
Definition calculate_cells (dt : Q) (cells : list Cell) : result (list Cell) :=
  let u := map oil_value cells in
  u_new <- mapM (new_value dt cells u) (enumerate cells) ;;
  Ok (commit cells u_new).

Definition calculate (s : Solver) : result Solver :=
  cells <- calculate_cells (dt s) (_cells (_mesh s)) ;;
  Ok (with_mesh s (mkMesh (mesh_points (_mesh s)) cells)).

(** [for cell, value in zip(cells, oil_values): cell.oil_value = value] *)
Fixpoint assign_values (cells : list Cell) (oil_values : list Q) : list Cell :=
  match cells, oil_values with
  | cell :: cells', value :: values' =>
      set_oil_value cell value :: assign_values cells' values'
  | _, _ => cells
  end.

(** The body of the loop over the lines of [simulation_data.txt]. *)
Definition read_data_line (s : Solver) (line : text) : result Solver :=
  kv <- unpack2 (split_colon (strip line)) ;;
  let (key, value) := (kv : text * text) in
  if text_eqb key (lit "current_time") then
    t <- py_float value ;; Ok (with_tStart s t)
  else if text_eqb key (lit "remaining_steps") then
    remaining_steps <- py_int value ;; Ok s
  else Ok s.

(** [Solver.load_state] *)
Definition load_state (fs : files) (s : Solver) (folder : string) : result Solver :=
  let oil_values_file := path_join folder "oil_values.txt" in
  let simulation_data_file := path_join folder "simulation_data.txt" in
  if negb (exists_file fs oil_values_file)
     || negb (exists_file fs simulation_data_file)
  then Raise FileNotFoundError
  else
    f <- read_file fs oil_values_file ;;
    oil_values <- mapM (fun line => py_float (strip line)) (readlines f) ;;
    let m := _mesh s in
    let s := with_mesh s (mkMesh (mesh_points m) (assign_values (_cells m) oil_values)) in
    f <- read_file fs simulation_data_file ;;
    s <- foldM read_data_line (readlines f) s ;;
    steps <- float_div (_tEnd s - _tStart s) (dt s) ;;
    Ok (with_nt s (int_of_float steps)).

(** [max] and [min] of a sequence of floats; the empty sequence raises. *)
Definition py_max (xs : list Q) : result Q :=
  match xs with
  | [] => Raise ValueError
  | x :: rest => Ok (fold_left (fun m y => if Qlt_le_dec m y then y else m) rest x)
  end.

Definition py_min (xs : list Q) : result Q :=
  match xs with
  | [] => Raise ValueError
  | x :: rest => Ok (fold_left (fun m y => if Qlt_le_dec y m then y else m) rest x)
  end.

(** The text of [oil_values.txt]: [f.write(f"{cell.oil_value}\n")] per cell. *)
Definition oil_values_text (cells : list Cell) : text :=
  flat_map (fun cell => [Fl (oil_value cell); Ch newline]) cells.

(** One written line [f"{key}: {value}\n"]. *)
Definition data_line (key : string) (value : text) : text :=
  lit key ++ lit ": " ++ value ++ [Ch newline].

(** [str] of the nested list of the borders. *)
Definition borders_text (b : (Q * Q) * (Q * Q)) : text :=
  lit "[[" ++ [Fl (fst (fst b))] ++ lit ", " ++ [Fl (snd (fst b))] ++ lit "], ["
  ++ [Fl (fst (snd b))] ++ lit ", " ++ [Fl (snd (snd b))] ++ lit "]]".

(** What the second [with] block of [save_state] writes, when nothing in it
    raises. *)
Definition simulation_data_text (s : Solver) : result text :=
  let cells := _cells (_mesh s) in
  max_oil <- py_max (map oil_value cells) ;;
  min_oil <- py_min (map oil_value cells) ;;
  let total_oil := qsum (map oil_value cells) in
  let b := fishing_borders s in
  fishing <- fishing_cells (_mesh s) (fst (fst b)) (snd (fst b)) (fst (snd b)) (snd (snd b)) ;;
  let fishing_grounds_oil := qsum (map oil_value fishing) in
  Ok (data_line "tStart" [Fl (_tStart s)]
      ++ data_line "tEnd" [Fl (_tEnd s)]
      ++ data_line "meshName" (lit (_meshName s))
      ++ data_line "max_oil" [Fl max_oil]
      ++ data_line "min_oil" [Fl min_oil]
      ++ data_line "total_oil" [Fl total_oil]
      ++ data_line "fishing_grounds_oil" [Fl fishing_grounds_oil]
      ++ data_line "fishing_borders" (borders_text b)).

(** [Solver.save_state]: the files it leaves, and whether it raised.  The
    second file is opened (and so emptied) before its content is computed. *)
Definition save_state (fs : files) (s : Solver) (config_name output_folder : string)
  : files * result unit :=
  let subfolder := path_join output_folder (splitext_root config_name) in
  let oil_values_file := path_join subfolder "oil_values.txt" in
  let fs := write_file fs oil_values_file (oil_values_text (_cells (_mesh s))) in
  let simulation_data_file := path_join subfolder "simulation_data.txt" in
  let fs := write_file fs simulation_data_file [] in
  match simulation_data_text s with
  | Ok t => (write_file fs simulation_data_file t, Ok tt)
  | Raise e => (fs, Raise e)
  end.

Section SolverInit.

Variable np_exp : Q -> Q.
Variable np_sqrt : Q -> Q.

(** [meshio.read]: the mesh files, by name. *)
Variable meshio_read : string -> result MeshData.

(** [Solver.__init__] *)
Definition Solver_init (fs : files) (config : Config) : result Solver :=
  data <- meshio_read (cfg_meshName config) ;;
  mesh <- Mesh_init np_exp np_sqrt data ;;
  mesh <- find_neighbors mesh ;;
  dt <- float_div (cfg_tEnd config - cfg_tStart config) (inject_Z (cfg_nSteps config)) ;;
  let s := mkSolver (cfg_meshName config) mesh (cfg_tStart config) (cfg_tEnd config)
                    (cfg_nSteps config) dt (cfg_borders config)
                    (cfg_restartFile config) in
  match cfg_restartFile config with
  | Some folder => if String.eqb folder "" then Ok s else load_state fs s folder
  | None => Ok s
  end.

End SolverInit.

(** ** Sample runs

    A 4 by 3 rectangle cut along its diagonal (of length 5) into two
    triangles, with two of its four boundary lines listed before the
    triangles and two after.  [sqrt_exact] is the square root on the squares
    of rationals, which is all that this mesh asks of [np.sqrt].  [exp_one]
    stands for [np.exp]: the sample solvers take their oil values from a
    restart folder, so their states are the same for every [np.exp]. *)

Definition sqrt_exact (q : Q) : Q := Z.sqrt (Qnum q) # Pos.sqrt (Qden q).

Definition exp_one (q : Q) : Q := 1.

Definition sample_data : MeshData :=
  mkMeshData
    [[0; 0; 0]; [4; 0; 0]; [4; 3; 0]; [0; 3; 0]]
    [("line"%string, [[0; 1]; [1; 2]]%nat);
     ("vertex"%string, [[0]; [1]; [2]; [3]]%nat);
     ("triangle"%string, [[0; 1; 2]; [0; 2; 3]]%nat);
     ("line"%string, [[2; 3]; [3; 0]]%nat)].

(** The same rectangle without its boundary lines. *)
Definition sample_data_open : MeshData :=
  mkMeshData
    [[0; 0; 0]; [4; 0; 0]; [4; 3; 0]; [0; 3; 0]]
    [("triangle"%string, [[0; 1; 2]; [0; 2; 3]]%nat)].

Definition sample_meshio (name : string) : result MeshData := Ok sample_data.

Definition sample_meshio_open (name : string) : result MeshData := Ok sample_data_open.

Definition no_files : files := fun _ => None.

(** The folders the sample runs start from: the value 1 for each triangle
    and 0 for each line, and a data file without lines. *)
Definition start_files : files :=
  write_file
    (write_file
       (write_file
          (write_file no_files "start/oil_values.txt"
             [Fl 0; Ch newline; Fl 0; Ch newline; Fl 1; Ch newline;
              Fl 1; Ch newline; Fl 0; Ch newline; Fl 0; Ch newline])
          "start/simulation_data.txt" [])
       "start_open/oil_values.txt" [Fl 1; Ch newline; Fl 1; Ch newline])
    "start_open/simulation_data.txt" [].

(** A run of ten steps from time 0 to time 1. *)
Definition sample_config : Config :=
  mkConfig "bay.msh" 0 1 10 ((0, 0.45), (0, 0.2)) (Some "start"%string).

Definition sample_config_open : Config :=
  mkConfig "bay.msh" 0 1 10 ((0, 0.45), (0, 0.2)) (Some "start_open"%string).

Definition sample_solver : Solver :=
  Eval vm_compute in
    match Solver_init exp_one sqrt_exact sample_meshio start_files sample_config with
    | Ok s => s
    | Raise _ => mkSolver "" (mkMesh [] []) 0 0 0 0 ((0, 0), (0, 0)) None
    end.

(** The same run on the rectangle without boundary lines. *)
Definition sample_solver_open : Solver :=
  Eval vm_compute in
    match Solver_init exp_one sqrt_exact sample_meshio_open start_files
                      sample_config_open with
    | Ok s => s
    | Raise _ => mkSolver "" (mkMesh [] []) 0 0 0 0 ((0, 0), (0, 0)) None
    end.

(** A restart folder whose oil file holds a single value. *)
Definition short_restart : files :=
  write_file
    (write_file no_files "restart/oil_values.txt" [Fl 0.5; Ch newline])
    "restart/simulation_data.txt"
    (lit "current_time: " ++ [Fl 0.5; Ch newline]
     ++ lit "remaining_steps: 5" ++ [Ch newline]).

(** ** Words of the specification *)

(** The area [Triangle.__init__] stores for the points (x0, y0), (x1, y1),
    (x2, y2). *)
Definition shoelace (x0 y0 x1 y1 x2 y2 : Q) : Q :=
  0.5 * Qabs ((x0 - x2) * (y1 - y0) - (x0 - x1) * (y2 - y0)).

(** Every midpoint has the two coordinates [Cell.__init__] reads. *)
Definition midpoint_ok (c : Cell) : Prop :=
  exists m0 m1 rest, midpoint (cell_base c) = m0 :: m1 :: rest.

(** The closed rectangle test on the first two coordinates of a midpoint. *)
Definition inside (x_min x_max y_min y_max : Q) (c : Cell) : Prop :=
  exists m0 m1 rest,
    midpoint (cell_base c) = m0 :: m1 :: rest /\
    x_min <= m0 /\ m0 <= x_max /\ y_min <= m1 /\ m1 <= y_max.

(** Edge [i] of a cell joins its vertex [i] and its vertex [i + 1] modulo the
    number of vertices.  A cell matches edge [i] of the vertex list
    [point_ids] when its vertex set shares exactly two elements with that of
    [point_ids] and holds both ends of the edge. *)
Definition matches_edge (point_ids : list nat) (i : nat) (other : Cell) : bool :=
  let ids := _point_ids (cell_base other) in
  Nat.eqb (shared_count point_ids ids) 2
  && match nth_error point_ids i,
           nth_error point_ids (S i mod List.length point_ids) with
     | Some p, Some pplus => mem p ids && mem pplus ids
     | _, _ => false
     end.

(** [idx] is the first, or the last, position of [cells] whose cell
    satisfies [f]. *)
Definition first_match (f : Cell -> bool) (cells : list Cell) (idx : nat) : Prop :=
  (exists c, nth_error cells idx = Some c /\ f c = true) /\
  forall j c, (j < idx)%nat -> nth_error cells j = Some c -> f c = false.

Definition last_match (f : Cell -> bool) (cells : list Cell) (idx : nat) : Prop :=
  (exists c, nth_error cells idx = Some c /\ f c = true) /\
  forall j c, (idx < j)%nat -> nth_error cells j = Some c -> f c = false.

Definition no_match (f : Cell -> bool) (cells : list Cell) : Prop :=
  forall c, In c cells -> f c = false.

(** The last position from [k] on whose cell satisfies [f], computed. *)
Fixpoint last_index_from (f : Cell -> bool) (k : nat) (cells : list Cell)
  : option nat :=
  match cells with
  | [] => None
  | c :: rest =>
      match last_index_from f (S k) rest with
      | Some j => Some j
      | None => if f c then Some k else None
      end
  end.

(** The neighbour entry of edge [i] after a cell at position [k] was visited. *)
Definition pick (point_ids : list nat) (cell : Cell) (k : nat) (i : nat) (n : Z) : Z :=
  if matches_edge point_ids i cell then Z.of_nat k else n.

(** The vertex lists of the cells, which is all that the connectivity
    builder reads of them. *)
Definition point_ids_of (cells : list Cell) : list (list nat) :=
  map (fun c => _point_ids (cell_base c)) cells.

(** A cell as its constructor leaves it: no neighbour yet, and three vertices
    when it is a triangle. *)
Definition fresh_cell (c : Cell) : Prop :=
  neighbors (cell_base c) = map (fun _ => (-1)%Z) (_point_ids (cell_base c)) /\
  (is_triangle c = true -> List.length (_point_ids (cell_base c)) = 3%nat).

(** The rectangle of the sample mesh with a line cell on its diagonal, listed
    before the two triangles that share the diagonal. *)
Definition diagonal_data : MeshData :=
  mkMeshData
    [[0; 0; 0]; [4; 0; 0]; [4; 3; 0]; [0; 3; 0]]
    [("line"%string, [[0; 2]]%nat);
     ("triangle"%string, [[0; 1; 2]; [0; 2; 3]]%nat)].

(** The mesh [Solver.__init__] builds from the data of a mesh file (its oil
    values are those of [exp_one]). *)
Definition build_mesh (data : MeshData) : result Mesh :=
  mesh <- Mesh_init exp_one sqrt_exact data ;; find_neighbors mesh.

Definition mesh_of (r : result Mesh) : Mesh :=
  match r with
  | Ok m => m
  | Raise _ => mkMesh [] []
  end.

Definition diagonal_cells : list Cell :=
  Eval vm_compute in
    match Mesh_init exp_one sqrt_exact diagonal_data with
    | Ok m => _cells m
    | Raise _ => []
    end.

Definition diagonal_mesh : Mesh := Eval vm_compute in mesh_of (build_mesh diagonal_data).

(** The upwind rule: [a * angle] when [angle > 0], [b * angle] otherwise. *)
Definition upwind (a b angle : Q) : Q :=
  if Qlt_le_dec 0 angle then a * angle else b * angle.

Definition dot3 (n v : vec3) : Q := vx n * vx v + vy n * vy v + vz n * vz v.

(** [flux(a, b, normal, velocity)] on the arrays of three the cells carry. *)
Definition flux (a b : Q) (n v : vec3) : Q := upwind a b (dot3 n v).

Definition velocity_at (cells : list Cell) (j : nat) : vec3 :=
  match nth_error cells j with
  | Some c => velocity (cell_base c)
  | None => V3 0 0 0
  end.

(** An edge with a neighbour: the entry of [neighbors] is not negative. *)
Definition interior (entry : nat * Z) : bool := (0 <=? snd entry)%Z.

(** The term of edge [e], with neighbour [ngh], in the sum of one step:
    [(dt / area_i) * flux(u_i, u_ngh, normals[i][e], 0.5 * (velocity_i +
    velocity_ngh))], all values read from the snapshot [u]. *)
Definition edge_term (dt : Q) (cells : list Cell) (u : list Q) (i : nat)
  (b : CellBase) (area : Q) (normals : list vec3) (entry : nat * Z) : Q :=
  let ngh := Z.to_nat (snd entry) in
  (dt / area)
  * flux (nth i u 0) (nth ngh u 0) (nth (fst entry) normals (V3 0 0 0))
         (vec3_scale 0.5 (vec3_add (velocity b) (velocity_at cells ngh))).

(** The new value of triangle [i]: its snapshot value less the sum of the
    terms of its edges that have a neighbour. *)
Definition step_value (dt : Q) (cells : list Cell) (u : list Q) (i : nat)
  (b : CellBase) (area : Q) (normals : list vec3) : Q :=
  nth i u 0
  - qsum (map (edge_term dt cells u i b area normals)
              (filter interior (enumerate (neighbors b)))).

(** The shape of the cells of a mesh that was built: every neighbour entry of
    a triangle is negative or the index of a cell, each edge has its normal,
    and the entries of a line are negative. *)
Definition edge_ok (n : nat) (normals : list vec3) (entry : nat * Z) : Prop :=
  (snd entry < 0)%Z \/
  ((Z.to_nat (snd entry) < n)%nat /\ (fst entry < List.length normals)%nat).

Definition cell_ok (n : nat) (c : Cell) : Prop :=
  match c with
  | Triangle b _ _ normals => Forall (edge_ok n normals) (enumerate (neighbors b))
  | Line b _ => Forall (fun ngh => (ngh < 0)%Z) (neighbors b)
  end.

Definition mesh_ok (cells : list Cell) : Prop :=
  Forall (cell_ok (List.length cells)) cells.

(** What the constructors and [find_neighbors] establish for each cell of a
    mesh of [n] cells. *)
Definition entry_ok (n : nat) (ngh : Z) : Prop :=
  (ngh < 0)%Z \/ (Z.to_nat ngh < n)%nat.

Definition built_cell (n : nat) (c : Cell) : Prop :=
  midpoint_ok c /\
  match c with
  | Triangle b _ _ normals =>
      List.length normals = List.length (neighbors b) /\
      Forall (entry_ok n) (neighbors b)
  | Line b _ => Forall (fun ngh => (ngh < 0)%Z) (neighbors b)
  end.

(** ** Conservation

    Oil values are concentrations: the amount of oil in a triangle is its
    area times its value. *)
Definition oil_amount (c : Cell) : Q :=
  match c with
  | Triangle _ u area _ => area * u
  | Line _ _ => 0
  end.

Definition total_amount (cells : list Cell) : Q := qsum (map oil_amount cells).

(** The plain sum of the values of all cells. *)
Definition total_value (cells : list Cell) : Q := qsum (map oil_value cells).

(** Every neighbour entry of every triangle is the index of a cell. *)
Definition no_boundary_edge (cells : list Cell) : bool :=
  forallb (fun c => negb (is_triangle c)
                    || forallb (fun ngh => (0 <=? ngh)%Z) (neighbors (cell_base c)))
          cells.

Definition neighbor_at (cells : list Cell) (i e : nat) : option Z :=
  match nth_error cells i with
  | Some c => nth_error (neighbors (cell_base c)) e
  | None => None
  end.

Definition normal_at (cells : list Cell) (i e : nat) : vec3 :=
  match nth_error cells i with
  | Some (Triangle _ _ _ normals) => nth e normals (V3 0 0 0)
  | _ => V3 0 0 0
  end.

(** Every edge with a neighbour is shared by two cells that name each other
    across it, each across that edge only, with opposite normals. *)
Definition paired_edges (cells : list Cell) : Prop :=
  forall i e j,
    neighbor_at cells i e = Some (Z.of_nat j) ->
    exists e',
      neighbor_at cells j e' = Some (Z.of_nat i) /\
      vec3_eq (normal_at cells j e') (vec3_opp (normal_at cells i e)) /\
      forall e'', neighbor_at cells j e'' = Some (Z.of_nat i) -> e'' = e'.

Definition positive_areas (cells : list Cell) : Prop :=
  forall i b u area normals,
    nth_error cells i = Some (Triangle b u area normals) -> ~ area == 0.

(** The edges with a neighbour, as pairs of a cell index and an edge index,
    for the cells [cells] numbered from [k]. *)
Fixpoint directed_edges_from (k : nat) (cells : list Cell) : list (nat * nat) :=
  match cells with
  | [] => []
  | c :: rest =>
      map (fun entry => (k, fst entry))
          (filter interior (enumerate (neighbors (cell_base c))))
      ++ directed_edges_from (S k) rest
  end.

(** The edges with a neighbour of the cell at position [i]. *)
Definition edges_of (i : nat) (c : Cell) : list (nat * nat) :=
  map (fun entry : nat * Z => (i, fst entry))
      (filter interior (enumerate (neighbors (cell_base c)))).

(** The first position of [z] in [l] ([List.length l] when there is none). *)
Fixpoint index_of (z : Z) (l : list Z) : nat :=
  match l with
  | [] => 0
  | y :: l' => if Z.eqb z y then 0 else S (index_of z l')
  end.

(** The same edge, seen from the neighbour. *)
Definition twin (cells : list Cell) (x : nat * nat) : nat * nat :=
  match neighbor_at cells (fst x) (snd x) with
  | Some ngh =>
      let j := Z.to_nat ngh in
      match nth_error cells j with
      | Some c => (j, index_of (Z.of_nat (fst x)) (neighbors (cell_base c)))
      | None => x
      end
  | None => x
  end.

(** The flux through edge [e] of cell [i], out of the snapshot [u]. *)
Definition edge_flux (cells : list Cell) (u : list Q) (x : nat * nat) : Q :=
  match nth_error cells (fst x), neighbor_at cells (fst x) (snd x) with
  | Some c, Some ngh =>
      flux (nth (fst x) u 0) (nth (Z.to_nat ngh) u 0)
           (normal_at cells (fst x) (snd x))
           (vec3_scale 0.5 (vec3_add (velocity (cell_base c))
                                     (velocity_at cells (Z.to_nat ngh))))
  | _, _ => 0
  end.

(** ** A resumed run

    A restart folder in the format [load_state] reads: two oil values, the
    current time 0.5 and five remaining steps. *)
Definition halfway_restart : files :=
  write_file
    (write_file no_files "restart/oil_values.txt"
       [Fl 0.5; Ch newline; Fl 0.25; Ch newline])
    "restart/simulation_data.txt"
    (lit "current_time: " ++ [Fl 0.5; Ch newline]
     ++ lit "remaining_steps: 5" ++ [Ch newline]).

(** The sample run, resumed from a folder. *)
Definition resume_config (folder : string) : Config :=
  mkConfig "bay.msh" 0 1 10 ((0, 0.45), (0, 0.2)) (Some folder).

Definition resumed_solver : Solver :=
  Eval vm_compute in
    match Solver_init exp_one sqrt_exact sample_meshio_open halfway_restart
                      (resume_config "restart") with
    | Ok s => s
    | Raise _ => mkSolver "" (mkMesh [] []) 0 0 0 0 ((0, 0), (0, 0)) None
    end.

(** The files after the resumed solver has saved its state. *)
Definition saved_files : files :=
  fst (save_state halfway_restart resumed_solver "input.toml" "result_folder").

(** ** Further words for the cells and the mesh *)

(** [cell.type], the attribute the two constructors set. *)
Definition cell_type (c : Cell) : string :=
  match c with
  | Triangle _ _ _ _ => "triangle"
  | Line _ _ => "line"
  end.

(** The cells a mesh file lists, in the order of the file: for every block
    that is not a vertex block, its type with each of its vertex lists. *)
Definition listed_cells (blocks : list (string * list (list nat)))
  : list (string * list nat) :=
  flat_map (fun block : string * list (list nat) =>
              if String.eqb (fst block) "vertex" then []
              else map (pair (fst block)) (snd block))
           blocks.

(** Two cells that differ in their neighbour lists at most. *)
Definition same_but_neighbors (c c' : Cell) : Prop :=
  _point_ids (cell_base c') = _point_ids (cell_base c) /\
  _idx (cell_base c') = _idx (cell_base c) /\
  midpoint (cell_base c') = midpoint (cell_base c) /\
  _points (cell_base c') = _points (cell_base c) /\
  velocity (cell_base c') = velocity (cell_base c) /\
  oil_value c' = oil_value c /\
  cell_type c' = cell_type c /\
  cell_area c' = cell_area c /\
  cell_normals c' = cell_normals c.

(** The edge from (x1, y1) to (x2, y2), as an array of three. *)
Definition edge_vec (x1 y1 x2 y2 : Q) : vec3 := V3 (x2 - x1) (y2 - y1) 0.

(** Twice the signed area of the points (x0, y0), (x1, y1), (x2, y2):
    positive when they turn counter-clockwise. *)
Definition signed_area2 (x0 y0 x1 y1 x2 y2 : Q) : Q :=
  (x1 - x0) * (y2 - y0) - (x2 - x0) * (y1 - y0).

(** A square root that gives equal rationals equal roots: [sqrt_exact] on
    the reduced fraction. *)
Definition sqrt_red (q : Q) : Q := sqrt_exact (Qred q).

(** [n] is the outward normal of the edge from (xa, ya) to (xb, yb) of a
    triangle whose third corner is (xc, yc): at a right angle to the edge, as
    long as the edge, and pointing away from the third corner. *)
Definition outward_normal (n : vec3) (xa ya xb yb xc yc : Q) : Prop :=
  dot3 n (edge_vec xa ya xb yb) == 0 /\
  dot3 n n == dot3 (edge_vec xa ya xb yb) (edge_vec xa ya xb yb) /\
  0 < dot3 n (edge_vec xc yc xa ya).

(** A cell as [Mesh.__init__] files it at position [k]: it carries the index
    [k], and its points are the rows of the point table at its vertex
    indices. *)
Definition filed_at (points : list (list Q)) (k : nat) (c : Cell) : Prop :=
  _idx (cell_base c) = k /\
  take_rows points (_point_ids (cell_base c)) = Ok (_points (cell_base c)).

(** The type of a cell with its vertex list. *)
Definition cell_entry (c : Cell) : string * list nat :=
  (cell_type c, _point_ids (cell_base c)).

(** A mesh file with a block of quadrilaterals after a block of triangles. *)
Definition quad_data : MeshData :=
  mkMeshData
    [[0; 0; 0]; [4; 0; 0]; [4; 3; 0]; [0; 3; 0]]
    [("triangle"%string, [[0; 1; 2]]%nat);
     ("quad"%string, [[0; 1; 2; 3]]%nat)].

(** The sample mesh as [Mesh.__init__] leaves it, and after
    [find_neighbors]. *)
Definition sample_mesh_fresh : Mesh :=
  Eval vm_compute in mesh_of (Mesh_init exp_one sqrt_exact sample_data).

Definition sample_mesh_built : Mesh :=
  Eval vm_compute in mesh_of (build_mesh sample_data).

(** ** Further words for the restart files *)

(** A line of [oil_values.txt] that [float] reads. *)
Definition oil_line_ok (line : text) : bool :=
  match py_float (strip line) with
  | Ok _ => true
  | Raise _ => false
  end.

(** A line of [simulation_data.txt] that the loop of [load_state] takes: it
    has one colon, and a value that converts when its key is one of the two
    the loop reads. *)
Definition data_line_ok (line : text) : bool :=
  match unpack2 (split_colon (strip line)) with
  | Ok (key, value) =>
      if text_eqb key (lit "current_time") then
        match py_float value with Ok _ => true | Raise _ => false end
      else if text_eqb key (lit "remaining_steps") then
        match py_int value with Ok _ => true | Raise _ => false end
      else true
  | Raise _ => false
  end.

(** [cell] passes the test of the comprehension in [Mesh.fishing_cells]. *)
Definition in_fishing_area (x_min x_max y_min y_max : Q) (c : Cell) : bool :=
  is_triangle c
  && match midpoint (cell_base c) with
     | m0 :: m1 :: _ => between x_min m0 x_max && between y_min m1 y_max
     | _ => false
     end.

(** The text of [simulation_data.txt] for the summary values given. *)
Definition summary_text (s : Solver) (max_oil min_oil total_oil fishing_grounds_oil : Q)
  : text :=
  data_line "tStart" [Fl (_tStart s)]
  ++ data_line "tEnd" [Fl (_tEnd s)]
  ++ data_line "meshName" (lit (_meshName s))
  ++ data_line "max_oil" [Fl max_oil]
  ++ data_line "min_oil" [Fl min_oil]
  ++ data_line "total_oil" [Fl total_oil]
  ++ data_line "fishing_grounds_oil" [Fl fishing_grounds_oil]
  ++ data_line "fishing_borders" (borders_text (fishing_borders s)).

Definition no_newline (a : pychar) : bool := negb (is_char newline a).

Definition no_colon (a : pychar) : bool := negb (is_char ":" a).

(** A text without line break.  A file opened in text mode ends a line at
    the character of code 13 as well as at the character of code 10, so both
    are excluded. *)
Definition one_line (t : text) : bool :=
  forallb (fun a => no_newline a && negb (is_char (ascii_of_nat 13) a)) t.

Definition has_colon (t : text) : bool := existsb (is_char ":") t.


(** A text without the character of code 13, so that its lines end where
    the characters of code 10 are, in text mode as in [readlines]. *)
Definition no_cr (t : text) : bool :=
  forallb (fun a => negb (is_char (ascii_of_nat 13) a)) t.

(** A mesh file that lists vertices only, and the solver on its mesh, which
    has no cells. *)
Definition vertex_data : MeshData :=
  mkMeshData
    [[0; 0; 0]; [4; 0; 0]; [4; 3; 0]; [0; 3; 0]]
    [("vertex"%string, [[0]; [1]; [2]; [3]]%nat)].

Definition empty_solver : Solver :=
  Eval vm_compute in
    match Solver_init exp_one sqrt_exact (fun _ => Ok vertex_data) no_files
                      (mkConfig "bay.msh" 0 1 10 ((0, 0.45), (0, 0.2)) None) with
    | Ok s => s
    | Raise _ => mkSolver "" (mkMesh [] []) 0 0 0 0 ((0, 0), (0, 0)) None
    end.

(** The sample solver without boundary lines, for a mesh file named with a
    drive letter. *)
Definition drive_solver : Solver :=
  Eval vm_compute in
    match Solver_init exp_one sqrt_exact sample_meshio_open no_files
                      (mkConfig "C:/bay.msh" 0 1 10 ((0, 0.45), (0, 0.2)) None) with
    | Ok s => s
    | Raise _ => mkSolver "" (mkMesh [] []) 0 0 0 0 ((0, 0), (0, 0)) None
    end.

(** ** Further words for the time step *)

(** The cell at position [i] and the cells it names as neighbours hold no
    oil. *)
Definition dry_around (cells : list Cell) (i : nat) : Prop :=
  exists c,
    nth_error cells i = Some c /\ oil_value c == 0 /\
    forall ngh c', In ngh (neighbors (cell_base c)) -> (0 <= ngh)%Z ->
                   nth_error cells (Z.to_nat ngh) = Some c' -> oil_value c' == 0.

(** What [calculate] keeps: everything of the solver but the oil values. *)
Definition same_but_oil (s s' : Solver) : Prop :=
  _meshName s' = _meshName s /\ _tStart s' = _tStart s /\ _tEnd s' = _tEnd s /\
  _nt s' = _nt s /\ dt s' = dt s /\ fishing_borders s' = fishing_borders s /\
  restart_file s' = restart_file s /\
  mesh_points (_mesh s') = mesh_points (_mesh s) /\
  map cell_base (_cells (_mesh s')) = map cell_base (_cells (_mesh s)) /\
  map is_triangle (_cells (_mesh s')) = map is_triangle (_cells (_mesh s)).

(** A cell without its oil value. *)
Definition dry_cell (c : Cell) : Cell := set_oil_value c 0.

(** The sample solver without boundary lines, resumed from a folder in which
    every cell holds the value zero. *)
Definition dry_files : files :=
  write_file
    (write_file no_files "dry/oil_values.txt" [Fl 0; Ch newline; Fl 0; Ch newline])
    "dry/simulation_data.txt" [].

Definition dry_solver : Solver :=
  Eval vm_compute in
    match Solver_init exp_one sqrt_exact sample_meshio_open dry_files
                      (resume_config "dry") with
    | Ok s => s
    | Raise _ => mkSolver "" (mkMesh [] []) 0 0 0 0 ((0, 0), (0, 0)) None
    end.

(** ** The run ([Solver.run_simulation]) *)

(** [create_image(timestep=...)] is called with a step number or with the
    string "Final". *)
Inductive timestep : Set :=
| AtStep (step : Z)
| AtFinal.

(** The calls that draw.  What Matplotlib and OpenCV do with them is not
    modelled: a run records the calls it makes, in order. *)
Inductive plot_call : Type :=
| ImageSaved (image_counter : Z) (at_step : timestep)
| VideoCreated
| VideoPlayed
| FishingOilPlotted (config_name : string) (data : list (Q * Q)).

(** The attribute [image_counter] of the solver, with the calls made. *)
Record Plots : Type := mkPlots {
  image_counter : Z;
  calls : list plot_call
}.

(** [Solver.create_image]: the counter goes up by one and names the file. *)
Definition create_image (p : Plots) (t : timestep) : Plots :=
  mkPlots (image_counter p + 1)
          (calls p ++ [ImageSaved (image_counter p + 1) t]).

Definition create_video (p : Plots) : Plots :=
  mkPlots (image_counter p) (calls p ++ [VideoCreated]).

Definition play_video (p : Plots) : Plots :=
  mkPlots (image_counter p) (calls p ++ [VideoPlayed]).

Definition plot_fishing_oil (p : Plots) (data : list (Q * Q)) (config_name : string)
  : Plots :=
  mkPlots (image_counter p) (calls p ++ [FishingOilPlotted config_name data]).

(** The list [fishing_cells] of a run holds cells of the mesh, which
    [calculate] updates in place: it is a list of positions in the cell
    list.  The test is that of [Mesh.fishing_cells]. *)
Fixpoint fishing_refs_from (k : nat) (cells : list Cell) (x_min x_max y_min y_max : Q)
  : result (list nat) :=
  match cells with
  | [] => Ok []
  | cell :: rest =>
      keep <-
        (if is_triangle cell then
           m0 <- getitem (midpoint (cell_base cell)) 0 ;;
           if between x_min m0 x_max then
             m1 <- getitem (midpoint (cell_base cell)) 1 ;;
             Ok (between y_min m1 y_max)
           else Ok false
         else Ok false) ;;
      tail <- fishing_refs_from (S k) rest x_min x_max y_min y_max ;;
      Ok (if keep then k :: tail else tail)
  end.

Definition fishing_refs (m : Mesh) (x_min x_max y_min y_max : Q) : result (list nat) :=
  fishing_refs_from 0 (_cells m) x_min x_max y_min y_max.

(** [cells[i].oil_value] for a position of the cell list. *)
Definition oil_at (cells : list Cell) (i : nat) : Q :=
  match nth_error cells i with
  | Some c => oil_value c
  | None => 0
  end.

(** [sum(cell.oil_value for cell in fishing_cells)] *)
Definition fishing_sum (cells : list Cell) (refs : list nat) : Q :=
  qsum (map (oil_at cells) refs).

(** [range(a, b)] *)
Definition py_range (a b : Z) : list Z :=
  map (fun k => (a + Z.of_nat k)%Z) (seq 0 (Z.to_nat (b - a))).

(** The state of a run: the solver, its plots, and [fishing_oil_data]. *)
Record Run : Type := mkRun {
  run_solver : Solver;
  run_plots : Plots;
  fishing_oil_data : list (Q * Q)
}.

(** The body of the loop over [range(1, self._nt + 1)]. *)
Definition run_step (write_frequency interval : Z) (refs : list nat)
  (r : Run) (step : Z) : result Run :=
  s <- calculate (run_solver r) ;;
  let current_time := _tStart s + inject_Z step * dt s in
  let fishing_oil := fishing_sum (_cells (_mesh s)) refs in
  let data := fishing_oil_data r ++ [(current_time, fishing_oil)] in
  let plots := if (0 <? write_frequency)%Z && (step mod interval =? 0)%Z
               then create_image (run_plots r) (AtStep step)
               else run_plots r in
  Ok (mkRun s plots data).

(** [Solver.run_simulation], for a solver with the write frequency
    [write_frequency] and the plots [plots]: the files it leaves, and the run
    it ends with or the exception it raises. *)
Definition run_simulation (fs : files) (s : Solver) (write_frequency : Z)
  (plots : Plots) (config_name : string) : files * result Run :=
  let current_time := _tStart s in
  let interval := if (0 <? write_frequency)%Z
                  then Z.max 1 (_nt s / write_frequency) else (-1)%Z in
  let b := fishing_borders s in
  match fishing_refs (_mesh s) (fst (fst b)) (snd (fst b)) (fst (snd b)) (snd (snd b)) with
  | Raise e => (fs, Raise e)
  | Ok refs =>
      let plots := if (0 <? write_frequency)%Z
                   then create_image plots (AtStep 0) else plots in
      let data := [(current_time, fishing_sum (_cells (_mesh s)) refs)] in
      match foldM (run_step write_frequency interval refs)
                  (py_range 1 (_nt s + 1)) (mkRun s plots data) with
      | Raise e => (fs, Raise e)
      | Ok r =>
          let plots := if (0 <? write_frequency)%Z
                       then play_video (create_video (create_image (run_plots r) AtFinal))
                       else run_plots r in
          let plots := plot_fishing_oil plots (fishing_oil_data r) config_name in
          match save_state fs (run_solver r) config_name "result_folder" with
          | (fs', Ok _) => (fs', Ok (mkRun (run_solver r) plots (fishing_oil_data r)))
          | (fs', Raise e) => (fs', Raise e)
          end
      end
  end.

(** [n] calls of [calculate] in a row. *)
Fixpoint steps (n : nat) (s : Solver) : result Solver :=
  match n with
  | O => Ok s
  | S n' => s' <- calculate s ;; steps n' s'
  end.

(** The oil in the fishing area: the sum of the values of the triangles
    whose midpoint lies in the closed rectangle of the borders. *)
Definition fishing_area_oil (s : Solver) : Q :=
  let b := fishing_borders s in
  qsum (map oil_value
            (filter (in_fishing_area (fst (fst b)) (snd (fst b))
                                     (fst (snd b)) (snd (snd b)))
                    (_cells (_mesh s)))).

(** The sample solver as constructed, without a restart folder. *)
Definition sample_mesh_solver : Solver :=
  Eval vm_compute in
    match Solver_init exp_one sqrt_exact sample_meshio no_files
                      (mkConfig "bay.msh" 0 1 10 ((0, 0.45), (0, 0.2)) None) with
    | Ok s => s
    | Raise _ => mkSolver "" (mkMesh [] []) 0 0 0 0 ((0, 0), (0, 0)) None
    end.

(** * Properties *)

(** ** Loops that may raise *)

Lemma mapM_length {A B : Type} (f : A -> result B) (xs : list A) (ys : list B) :
  mapM f xs = Ok ys -> List.length ys = List.length xs.
Proof.
  revert ys. induction xs as [| x xs IH]; intros ys; simpl.
  - intros H. injection H as <-. reflexivity.
  - destruct (f x); simpl; [| discriminate].
    destruct (mapM f xs) as [ys' |]; simpl; [| discriminate].
    intros H. injection H as <-. simpl. f_equal. apply IH. reflexivity.
Qed.

Lemma mapM_nth {A B : Type} (f : A -> result B) (xs : list A) (ys : list B)
  (i : nat) (x : A) :
  mapM f xs = Ok ys -> nth_error xs i = Some x ->
  exists y, f x = Ok y /\ nth_error ys i = Some y.
Proof.
  revert ys i. induction xs as [| x0 xs IH]; intros ys i; simpl.
  - intros _ H. destruct i; discriminate H.
  - destruct (f x0) as [y0 |] eqn:E0; simpl; [| discriminate].
    destruct (mapM f xs) as [ys' |]; simpl; [| discriminate].
    intros H Hx. injection H as <-.
    destruct i as [| i]; simpl in *.
    + injection Hx as <-. exists y0. split; [assumption | reflexivity].
    + apply (IH ys' i eq_refl Hx).
Qed.

Lemma mapM_total {A B : Type} (f : A -> result B) (xs : list A) :
  (forall x, In x xs -> exists y, f x = Ok y) -> exists ys, mapM f xs = Ok ys.
Proof.
  induction xs as [| x xs IH]; intros H; simpl.
  - exists []. reflexivity.
  - destruct (H x (or_introl eq_refl)) as [y Hy].
    destruct IH as [ys Hys]; [intros z Hz; apply H; now right |].
    rewrite Hy, Hys. simpl. exists (y :: ys). reflexivity.
Qed.

Lemma enumerate_from_nth {A : Type} (k : nat) (xs : list A) (i : nat) :
  nth_error (enumerate_from k xs) i
  = option_map (fun x => ((k + i)%nat, x)) (nth_error xs i).
Proof.
  revert k i. induction xs as [| x xs IH]; intros k i.
  - destruct i; reflexivity.
  - destruct i as [| i]; simpl.
    + rewrite Nat.add_0_r. reflexivity.
    + rewrite IH. rewrite Nat.add_succ_r. reflexivity.
Qed.

Lemma enumerate_nth {A : Type} (xs : list A) (i : nat) (x : A) :
  nth_error xs i = Some x -> nth_error (enumerate xs) i = Some (i, x).
Proof.
  intros H. unfold enumerate. rewrite enumerate_from_nth, H. reflexivity.
Qed.

Lemma enumerate_from_in {A : Type} (k : nat) (xs : list A) (i : nat) (x : A) :
  In (i, x) (enumerate_from k xs) -> (k <= i)%nat /\ nth_error xs (i - k) = Some x.
Proof.
  revert k. induction xs as [| x0 xs IH]; intros k; simpl.
  - contradiction.
  - intros [H | H].
    + injection H as <- <-. rewrite Nat.sub_diag. split; [lia | reflexivity].
    + apply IH in H. destruct H as [Hle Hnth]. split; [lia |].
      replace (i - k)%nat with (S (i - S k)) by lia. exact Hnth.
Qed.

Lemma enumerate_in {A : Type} (xs : list A) (i : nat) (x : A) :
  In (i, x) (enumerate xs) -> nth_error xs i = Some x.
Proof.
  intros H. apply enumerate_from_in in H. rewrite Nat.sub_0_r in H. apply H.
Qed.

Lemma getitem_Ok {A : Type} (xs : list A) (i : nat) (x : A) :
  getitem xs i = Ok x <-> nth_error xs i = Some x.
Proof.
  unfold getitem. destruct (nth_error xs i); split; intros H;
    try discriminate; injection H as <-; reflexivity.
Qed.

Lemma foldM_invariant {A B : Type} (P : A -> Prop) (f : A -> B -> result A)
  (xs : list B) :
  (forall a x a', In x xs -> P a -> f a x = Ok a' -> P a') ->
  forall a a', P a -> foldM f xs a = Ok a' -> P a'.
Proof.
  induction xs as [| x xs IH]; intros Hstep a a' Ha; simpl.
  - intros H. injection H as <-. exact Ha.
  - destruct (f a x) as [a1 |] eqn:E; simpl; [| discriminate].
    apply IH.
    + intros b y b' Hy. apply Hstep. now right.
    + apply (Hstep a x a1 (or_introl eq_refl) Ha E).
Qed.

Lemma setitem_length {A : Type} (xs xs' : list A) (i : nat) (v : A) :
  setitem xs i v = Ok xs' -> List.length xs' = List.length xs.
Proof.
  revert xs' i. induction xs as [| x xs IH]; intros xs' i; simpl.
  - discriminate.
  - destruct i as [| i].
    + intros H. injection H as <-. reflexivity.
    + destruct (setitem xs i v) as [xs1 |] eqn:E; simpl; [| discriminate].
      intros H. injection H as <-. simpl. f_equal. apply (IH xs1 i E).
Qed.

Lemma setitem_Forall {A : Type} (P : A -> Prop) (xs xs' : list A) (i : nat) (v : A) :
  setitem xs i v = Ok xs' -> Forall P xs -> P v -> Forall P xs'.
Proof.
  revert xs' i. induction xs as [| x xs IH]; intros xs' i; simpl.
  - discriminate.
  - destruct i as [| i].
    + intros H Hall Hv. injection H as <-. inversion Hall; subst. now constructor.
    + destruct (setitem xs i v) as [xs1 |] eqn:E; simpl; [| discriminate].
      intros H Hall Hv. injection H as <-. inversion Hall; subst.
      constructor; [assumption | apply (IH xs1 i E); assumption].
Qed.

(** ** The sample solvers are solvers the program builds *)

Lemma sample_solver_built (np_exp : Q -> Q) :
  Solver_init np_exp sqrt_exact sample_meshio start_files sample_config
  = Ok sample_solver.
Proof. vm_compute. reflexivity. Qed.

Lemma sample_solver_open_built (np_exp : Q -> Q) :
  Solver_init np_exp sqrt_exact sample_meshio_open start_files sample_config_open
  = Ok sample_solver_open.
Proof. vm_compute. reflexivity. Qed.

(** ** The flux function *)

Lemma flux_function_dot (a b : Q) (n v : list Q) (angle : Q) :
  np_dot n v = Ok angle ->
  flux_function a b n v = Ok (if Qlt_le_dec 0 angle then a * angle else b * angle).
Proof.
  intros Hdot. unfold flux_function. rewrite Hdot. reflexivity.
Qed.

(** C2: [flux_function a b n v] is [a * dot n v] when [dot n v > 0] and
    [b * dot n v] otherwise; on the two sample inputs it gives 0.4 and
    -0.2. *)
Theorem flux_function_upwind :
  (forall (a b : Q) (n v : list Q) (angle : Q),
      np_dot n v = Ok angle ->
      (0 < angle -> flux_function a b n v = Ok (a * angle)) /\
      (~ 0 < angle -> flux_function a b n v = Ok (b * angle))) /\
  (exists r, flux_function 0.8 0.4 [1; 0] [0.5; 0] = Ok r /\ r == 0.4) /\
  (exists r, flux_function 0.8 0.4 [-1; 0] [0.5; 0] = Ok r /\ r == -0.2).
Proof.
  split; [| split].
  - intros a b n v angle Hdot.
    rewrite (flux_function_dot a b n v angle Hdot).
    destruct (Qlt_le_dec 0 angle) as [Hpos | Hle]; split; intros H.
    + reflexivity.
    + contradiction.
    + exfalso. apply (Qlt_not_le _ _ H Hle).
    + reflexivity.
  - eexists. split; [vm_compute; reflexivity | reflexivity].
  - eexists. split; [vm_compute; reflexivity | reflexivity].
Qed.

Lemma flux_function_upwind_witness :
  np_dot [1; 0] [0.5; 0] = Ok 0.5 /\
  flux_function 0.8 0.4 [1; 0] [0.5; 0] = Ok (0.8 * 0.5) /\
  np_dot [-1; 0] [0.5; 0] = Ok (-0.5) /\
  flux_function 0.8 0.4 [-1; 0] [0.5; 0] = Ok (0.4 * -0.5).
Proof.
  split; [reflexivity |]. split; [| split; [reflexivity |]].
  - apply (proj1 flux_function_upwind 0.8 0.4 [1; 0] [0.5; 0] 0.5 eq_refl).
    reflexivity.
  - apply (proj1 flux_function_upwind 0.8 0.4 [-1; 0] [0.5; 0] (-0.5) eq_refl).
    intros H. discriminate H.
Defined.

(** ** Constructing a triangle *)

Lemma Cell_init_built (point_ids : list nat) (idx : nat) (points : list (list Q))
  (b : CellBase) :
  Cell_init point_ids idx points = Ok b ->
  neighbors b = map (fun _ => (-1)%Z) point_ids /\
  exists m0 m1 rest, midpoint b = m0 :: m1 :: rest.
Proof.
  unfold Cell_init, getitem.
  destruct (np_mean_axis0 points) as [| m0 [| m1 rest]] eqn:Hmid; simpl;
    try discriminate.
  intros H. injection H as <-. cbn [neighbors midpoint].
  split; [reflexivity |]. exists m0, m1, rest. reflexivity.
Qed.

Lemma fresh_negative (point_ids : list nat) :
  Forall (fun ngh => (ngh < 0)%Z) (map (fun _ => (-1)%Z) point_ids).
Proof.
  induction point_ids; simpl; constructor; [lia | assumption].
Qed.

Lemma Line_init_built (n : nat) (point_ids : list nat) (idx : nat)
  (points : list (list Q)) (c : Cell) :
  Line_init point_ids idx points = Ok c -> built_cell n c.
Proof.
  unfold Line_init.
  destruct (Cell_init point_ids idx points) as [b |] eqn:E; simpl; [| discriminate].
  intros H. injection H as <-. apply Cell_init_built in E. destruct E as [Hn Hmid].
  split; [exact Hmid |]. cbn [cell_base]. rewrite Hn. apply fresh_negative.
Qed.

Lemma Triangle_init_built (np_exp np_sqrt : Q -> Q) (n : nat)
  (point_ids : list nat) (idx : nat) (points : list (list Q)) (c : Cell) :
  Triangle_init np_exp np_sqrt point_ids idx points = Ok c -> built_cell n c.
Proof.
  unfold Triangle_init.
  destruct (Cell_init point_ids idx points) as [b |] eqn:E; simpl; [| discriminate].
  apply Cell_init_built in E. destruct E as [Hn Hmid].
  destruct (getitem (midpoint b) 0); simpl; [| discriminate].
  destruct (getitem (midpoint b) 1); simpl; [| discriminate].
  destruct (Nat.eqb (List.length point_ids) 3) eqn:Hids; simpl; [| discriminate].
  destruct (Nat.eqb (List.length points) 3) eqn:Hpts; simpl; [| discriminate].
  apply Nat.eqb_eq in Hids, Hpts.
  repeat (match goal with
          | |- context [point_coord ?p ?i ?j] => destruct (point_coord p i j)
          end; simpl; [| discriminate]).
  destruct (cycle points) as [coords_cycle |] eqn:Hcycle; simpl; [| discriminate].
  destruct (mapM _ (combine points coords_cycle)) as [normals |] eqn:Hnormals;
    simpl; [| discriminate].
  intros H. injection H as <-.
  split; [exact Hmid |]. cbn [cell_base]. split.
  - apply mapM_length in Hnormals. rewrite Hnormals, length_combine, Hn, length_map.
    destruct points as [| p rest]; [discriminate Hcycle |].
    injection Hcycle as <-. rewrite length_app. cbn [List.length] in *. lia.
  - rewrite Hn. clear. induction point_ids; simpl; constructor;
      [left; lia | assumption].
Qed.

Lemma Triangle_init_wrong_count (np_exp np_sqrt : Q -> Q)
  (point_ids : list nat) (idx : nat) (points : list (list Q)) :
  List.length point_ids <> 3%nat \/ List.length points <> 3%nat ->
  is_raise (Triangle_init np_exp np_sqrt point_ids idx points).
Proof.
  intros Hcount. unfold Triangle_init, is_raise.
  destruct (Cell_init point_ids idx points) as [base | e]; [| now exists e].
  simpl. destruct (getitem (midpoint base) 0) as [m0 | e]; [| now exists e].
  simpl. destruct (getitem (midpoint base) 1) as [m1 | e]; [| now exists e].
  simpl.
  destruct (Nat.eqb (List.length point_ids) 3) eqn:Eids; simpl;
    [| now exists ValueError].
  destruct (Nat.eqb (List.length points) 3) eqn:Epts; simpl;
    [| now exists ValueError].
  apply Nat.eqb_eq in Eids, Epts. destruct Hcount; contradiction.
Qed.

(** Three vertex indices and three points of three coordinates always
    construct, whatever the area. *)
Lemma Triangle_init_three_points (np_exp np_sqrt : Q -> Q) (i0 i1 i2 idx : nat)
  (x0 y0 z0 x1 y1 z1 x2 y2 z2 : Q) :
  exists base oil normals,
    Triangle_init np_exp np_sqrt [i0; i1; i2] idx
                  [[x0; y0; z0]; [x1; y1; z1]; [x2; y2; z2]]
    = Ok (Triangle base oil (shoelace x0 y0 x1 y1 x2 y2) normals).
Proof.
  do 3 eexists. unfold Triangle_init, Cell_init.
  cbn -[Qplus Qminus Qmult Qdiv Qopp Qabs Qlt_le_dec inject_Z].
  reflexivity.
Qed.

(** C4, as the code has it: a triangle given other than three vertex indices,
    or other than three points, is refused with an exception; the area is
    computed and stored without a test, so three collinear points (of three
    coordinates each) construct a triangle whose area is 0. *)
Theorem Triangle_init_errors :
  (forall (np_exp np_sqrt : Q -> Q) (point_ids : list nat) (idx : nat)
          (points : list (list Q)),
      List.length point_ids <> 3%nat \/ List.length points <> 3%nat ->
      is_raise (Triangle_init np_exp np_sqrt point_ids idx points) /\
      forall base, Cell_init point_ids idx points = Ok base ->
                   Triangle_init np_exp np_sqrt point_ids idx points
                   = Raise ValueError) /\
  (forall (np_exp np_sqrt : Q -> Q) (i0 i1 i2 idx : nat)
          (x0 y0 z0 x1 y1 z1 x2 y2 z2 : Q),
      (x0 - x2) * (y1 - y0) - (x0 - x1) * (y2 - y0) == 0 ->
      exists base oil area normals,
        Triangle_init np_exp np_sqrt [i0; i1; i2] idx
                      [[x0; y0; z0]; [x1; y1; z1]; [x2; y2; z2]]
        = Ok (Triangle base oil area normals) /\ area == 0).
Proof.
  split.
  - intros np_exp np_sqrt point_ids idx points Hcount.
    split; [apply Triangle_init_wrong_count, Hcount |].
    intros base Hbase. unfold Triangle_init. rewrite Hbase. cbn [bind].
    destruct (Cell_init_built _ _ _ _ Hbase) as [_ (m0 & m1 & rest & Hmid)].
    rewrite Hmid. cbn [getitem nth_error bind].
    destruct (Nat.eqb (List.length point_ids) 3) eqn:Eids; cbn [negb];
      [| reflexivity].
    destruct (Nat.eqb (List.length points) 3) eqn:Epts; cbn [negb];
      [| reflexivity].
    apply Nat.eqb_eq in Eids, Epts. destruct Hcount; contradiction.
  - intros np_exp np_sqrt i0 i1 i2 idx x0 y0 z0 x1 y1 z1 x2 y2 z2 Hflat.
    destruct (Triangle_init_three_points np_exp np_sqrt i0 i1 i2 idx
                x0 y0 z0 x1 y1 z1 x2 y2 z2) as (base & oil & normals & Hinit).
    exists base, oil, (shoelace x0 y0 x1 y1 x2 y2), normals.
    split; [exact Hinit |].
    unfold shoelace. rewrite Hflat. reflexivity.
Qed.

Lemma Triangle_init_errors_witness :
  is_raise (Triangle_init exp_one sqrt_exact [0; 1]%nat 0
              [[0; 0; 0]; [4; 0; 0]; [4; 3; 0]]) /\
  exists base oil area normals,
    Triangle_init exp_one sqrt_exact [0; 1; 2]%nat 0
                  [[0; 0; 0]; [4; 3; 0]; [8; 6; 0]]
    = Ok (Triangle base oil area normals) /\ area == 0.
Proof.
  destruct Triangle_init_errors as (Hcount & Hflat).
  split.
  - apply (Hcount exp_one sqrt_exact [0; 1]%nat 0%nat
                  [[0; 0; 0]; [4; 0; 0]; [4; 3; 0]]).
    left. simpl. discriminate.
  - apply Hflat. reflexivity.
Defined.

(** C4 as stated fails: the points (0,0), (1,1), (2,2) lie on one line, their
    area is 0, and no choice of [np.exp] and [np.sqrt] makes the constructor
    raise on them. *)
Lemma collinear_triangle_constructs :
  shoelace 0 0 1 1 2 2 == 0 /\
  ~ (exists np_exp np_sqrt,
        is_raise (Triangle_init np_exp np_sqrt [0; 1; 2]%nat 0
                    [[0; 0; 0]; [1; 1; 0]; [2; 2; 0]])).
Proof.
  split.
  - reflexivity.
  - intros (np_exp & np_sqrt & e & H).
    destruct (Triangle_init_three_points np_exp np_sqrt 0 1 2 0 0 0 0 1 1 0 2 2 0)
      as (base & oil & normals & Hinit).
    rewrite Hinit in H. discriminate H.
Qed.

(** ** Connectivity *)

Lemma shared_count_nodup (mine other : list nat) :
  NoDup mine ->
  shared_count mine other = List.length (filter (fun p => mem p other) mine).
Proof.
  intros Hnd. unfold shared_count.
  rewrite nodup_fixed_point; [reflexivity |].
  apply NoDup_filter, Hnd.
Qed.

(** With three distinct vertices a cell that shares exactly two of them holds
    both ends of exactly one edge, and the visit writes that entry only. *)
Lemma visit_cell_three (a b c : nat) (n0 n1 n2 : Z) (k : nat) (cell : Cell) :
  NoDup [a; b; c] ->
  visit_cell [a; b; c] [n0; n1; n2] (k, cell)
  = Ok [pick [a; b; c] cell k 0 n0; pick [a; b; c] cell k 1 n1;
        pick [a; b; c] cell k 2 n2].
Proof.
  intros Hnd. unfold pick, matches_edge, visit_cell.
  rewrite (shared_count_nodup _ _ Hnd).
  unfold enumerate. cbn -[mem Z.of_nat].
  destruct (mem a (_point_ids (cell_base cell)));
    destruct (mem b (_point_ids (cell_base cell)));
    destruct (mem c (_point_ids (cell_base cell))); reflexivity.
Qed.

Lemma visit_cells_three (a b c : nat) (cells : list Cell) (k : nat) (n0 n1 n2 : Z) :
  NoDup [a; b; c] ->
  foldM (visit_cell [a; b; c]) (enumerate_from k cells) [n0; n1; n2]
  = Ok (map (fun p =>
               match last_index_from (matches_edge [a; b; c] (fst p)) k cells with
               | Some j => Z.of_nat j
               | None => snd p
               end)
            [(0%nat, n0); (1%nat, n1); (2%nat, n2)]).
Proof.
  intros Hnd. revert k n0 n1 n2.
  induction cells as [| cell cells IH]; intros k n0 n1 n2.
  - reflexivity.
  - cbn [enumerate_from foldM]. rewrite (visit_cell_three _ _ _ _ _ _ _ _ Hnd).
    cbn [bind]. rewrite IH. cbn [map fst snd last_index_from]. unfold pick.
    repeat match goal with
           | |- context [last_index_from ?f ?k ?l] =>
               destruct (last_index_from f k l)
           end;
      repeat match goal with
             | |- context [matches_edge ?ids ?i ?x] =>
                 destruct (matches_edge ids i x)
             end;
      reflexivity.
Qed.

Lemma last_index_from_Some (f : Cell -> bool) (cells : list Cell) (k j : nat) :
  last_index_from f k cells = Some j ->
  (k <= j)%nat /\ last_match f cells (j - k).
Proof.
  revert k. induction cells as [| c cells IH]; intros k; simpl.
  - discriminate.
  - destruct (last_index_from f (S k) cells) as [j' |] eqn:E.
    + intros H. injection H as ->. apply IH in E. destruct E as [Hle [[x [Hx Hfx]] Hlast]].
      split; [lia |]. replace (j - k)%nat with (S (j - S k)) by lia.
      split.
      * exists x. split; assumption.
      * intros m y Hm Hy. destruct m as [| m]; [lia |].
        apply (Hlast m y); [lia | exact Hy].
    + destruct (f c) eqn:Hfc; [| discriminate].
      intros H. injection H as <-. rewrite Nat.sub_diag.
      split; [lia |]. split.
      * exists c. split; [reflexivity | assumption].
      * intros m y Hm Hy. destruct m as [| m]; [lia |]. simpl in Hy.
        clear -E Hy. revert k m E Hy.
        induction cells as [| c' cells IH']; intros k m E Hy.
        -- destruct m; discriminate Hy.
        -- simpl in E.
           destruct (last_index_from f (S (S k)) cells) eqn:E'; [discriminate |].
           destruct (f c') eqn:Hfc'; [discriminate |].
           destruct m as [| m]; simpl in Hy.
           ++ injection Hy as <-. assumption.
           ++ apply (IH' (S k) m E' Hy).
Qed.

Lemma last_index_from_None (f : Cell -> bool) (cells : list Cell) (k : nat) :
  last_index_from f k cells = None -> no_match f cells.
Proof.
  revert k. induction cells as [| c cells IH]; intros k; simpl.
  - intros _ x [].
  - destruct (last_index_from f (S k) cells) eqn:E; [discriminate |].
    destruct (f c) eqn:Hfc; [discriminate |].
    intros _ x [<- | Hx]; [assumption | apply (IH (S k) E x Hx)].
Qed.

(** What [compute_neighbors] leaves in a triangle with three distinct
    vertices and no neighbour yet. *)
Lemma Triangle_compute_neighbors_spec (self : CellBase) (cells : list Cell) :
  NoDup (_point_ids self) ->
  List.length (_point_ids self) = 3%nat ->
  neighbors self = [-1; -1; -1]%Z ->
  exists nbrs,
    Triangle_compute_neighbors self cells = Ok nbrs /\
    List.length nbrs = 3%nat /\
    forall i n, nth_error nbrs i = Some n ->
      (n = (-1)%Z /\ no_match (matches_edge (_point_ids self) i) cells) \/
      (exists idx, n = Z.of_nat idx /\
                   last_match (matches_edge (_point_ids self) i) cells idx).
Proof.
  intros Hnd Hlen Hfresh. unfold Triangle_compute_neighbors, enumerate.
  destruct (_point_ids self) as [| a [| b [| c [| d ids]]]]; try discriminate Hlen.
  rewrite Hfresh, (visit_cells_three a b c cells 0 _ _ _ Hnd).
  eexists. split; [reflexivity |]. split; [reflexivity |].
  intros i n Hn.
  assert (Hcase : forall j,
             (match last_index_from (matches_edge [a; b; c] j) 0 cells with
              | Some idx => Z.of_nat idx
              | None => (-1)%Z
              end) = n ->
             (n = (-1)%Z /\ no_match (matches_edge [a; b; c] j) cells) \/
             (exists idx, n = Z.of_nat idx /\
                          last_match (matches_edge [a; b; c] j) cells idx)).
  { intros j Hj.
    destruct (last_index_from (matches_edge [a; b; c] j) 0 cells) as [idx |] eqn:E.
    - right. exists idx. split; [symmetry; exact Hj |].
      apply last_index_from_Some in E. rewrite Nat.sub_0_r in E. apply E.
    - left. split; [symmetry; exact Hj |]. apply (last_index_from_None _ _ _ E). }
  destruct i as [| [| [| i]]]; cbn [map nth_error fst snd] in Hn.
  - injection Hn as Hn. apply Hcase, Hn.
  - injection Hn as Hn. apply Hcase, Hn.
  - injection Hn as Hn. apply Hcase, Hn.
  - destruct i; discriminate Hn.
Qed.

(** C3, as the code has it: for a triangle with three distinct vertex
    indices and fresh neighbour entries, [compute_neighbors] leaves in
    [neighbors[i]] the index of the LAST cell, in cell-creation order, that
    shares exactly two vertices with the triangle and holds both ends of
    edge [i]; when no cell does, the entry stays -1. *)
Theorem compute_neighbors_last_match (self : CellBase) (cells : list Cell) :
  NoDup (_point_ids self) ->
  List.length (_point_ids self) = 3%nat ->
  neighbors self = [-1; -1; -1]%Z ->
  exists nbrs,
    Triangle_compute_neighbors self cells = Ok nbrs /\
    List.length nbrs = 3%nat /\
    forall i n, nth_error nbrs i = Some n ->
      (n = (-1)%Z /\ no_match (matches_edge (_point_ids self) i) cells) \/
      (exists idx, n = Z.of_nat idx /\
                   last_match (matches_edge (_point_ids self) i) cells idx).
Proof. exact (Triangle_compute_neighbors_spec self cells). Qed.

Lemma nodup_012 : NoDup [0; 1; 2]%nat.
Proof.
  repeat (constructor; [simpl; intuition discriminate |]). constructor.
Qed.

Lemma compute_neighbors_last_match_witness :
  exists self,
    nth_error diagonal_cells 1 = Some self /\
    _point_ids (cell_base self) = [0; 1; 2]%nat /\
    Triangle_compute_neighbors (cell_base self) diagonal_cells = Ok [-1; -1; 2]%Z.
Proof.
  eexists. split; [reflexivity |]. split; [reflexivity |].
  match goal with
  | |- Triangle_compute_neighbors ?b _ = _ =>
      destruct (compute_neighbors_last_match b diagonal_cells nodup_012 eq_refl eq_refl)
        as (nbrs & Hnbrs & _)
  end.
  rewrite Hnbrs. vm_compute in Hnbrs. injection Hnbrs as <-. reflexivity.
Defined.

(** C3 as stated fails: in [diagonal_cells] the line on the diagonal (cell 0)
    and the second triangle (cell 2) both match edge 2 of the first triangle
    (cell 1, vertices 0, 1, 2); the first of them in creation order is cell
    0, and [compute_neighbors] records cell 2, in the mesh as built too. *)
Lemma compute_neighbors_keeps_last :
  first_match (matches_edge [0; 1; 2]%nat 2) diagonal_cells 0 /\
  (exists self,
      nth_error diagonal_cells 1 = Some self /\
      _point_ids (cell_base self) = [0; 1; 2]%nat /\
      Triangle_compute_neighbors (cell_base self) diagonal_cells
      = Ok [-1; -1; 2]%Z) /\
  build_mesh diagonal_data = Ok diagonal_mesh /\
  option_map (fun c => neighbors (cell_base c)) (nth_error (_cells diagonal_mesh) 1)
  = Some [-1; -1; 2]%Z.
Proof.
  split; [| split; [| split]].
  - split.
    + eexists. split; reflexivity.
    + intros j c Hj. lia.
  - eexists. split; [reflexivity |]. split; reflexivity.
  - vm_compute. reflexivity.
  - reflexivity.
Qed.

(** ** The meshes the program builds *)

Lemma Mesh_init_Forall (P : Cell -> Prop) (np_exp np_sqrt : Q -> Q)
  (data : MeshData) (m : Mesh) :
  (forall point_ids idx points c, Line_init point_ids idx points = Ok c -> P c) ->
  (forall point_ids idx points c,
      Triangle_init np_exp np_sqrt point_ids idx points = Ok c -> P c) ->
  Mesh_init np_exp np_sqrt data = Ok m -> Forall P (_cells m).
Proof.
  intros Hline Htriangle. unfold Mesh_init.
  destruct (foldM _ (md_cells data) []) as [cells |] eqn:E; simpl; [| discriminate].
  intros H. injection H as <-. cbn [_cells].
  revert E. apply foldM_invariant; [| constructor].
  intros cells0 [cell_type cellindices] cells1 _ Hcells0. cbn beta iota zeta.
  destruct (String.eqb cell_type "vertex").
  - intros H. injection H as <-. exact Hcells0.
  - apply foldM_invariant; [| exact Hcells0].
    intros acc cell_idx acc' _ Hacc. cbn beta iota zeta.
    destruct (take_rows (md_points data) cell_idx) as [rows |]; cbn [bind];
      [| discriminate].
    unfold register. cbn [CellFactory_call].
    destruct (String.eqb "line" cell_type).
    + destruct (Line_init cell_idx (List.length acc) rows) as [cell |] eqn:Hcell;
        cbn [bind]; [| discriminate].
      intros H. injection H as <-. apply Forall_app. split; [exact Hacc |].
      constructor; [| constructor]. apply (Hline _ _ _ _ Hcell).
    + destruct (String.eqb "triangle" cell_type); [| discriminate].
      destruct (Triangle_init np_exp np_sqrt cell_idx (List.length acc) rows)
        as [cell |] eqn:Hcell; cbn [bind]; [| discriminate].
      intros H. injection H as <-. apply Forall_app. split; [exact Hacc |].
      constructor; [| constructor]. apply (Htriangle _ _ _ _ Hcell).
Qed.

(** The cells of [Mesh.__init__] are built cells. *)
Lemma Mesh_init_built (np_exp np_sqrt : Q -> Q) (n : nat) (data : MeshData) (m : Mesh) :
  Mesh_init np_exp np_sqrt data = Ok m -> Forall (built_cell n) (_cells m).
Proof.
  apply Mesh_init_Forall.
  - apply Line_init_built.
  - apply Triangle_init_built.
Qed.

(** [compute_neighbors] writes indices of cells only. *)
Lemma Triangle_compute_neighbors_built (self : CellBase) (cells : list Cell)
  (nbrs : list Z) :
  Triangle_compute_neighbors self cells = Ok nbrs ->
  Forall (entry_ok (List.length cells)) (neighbors self) ->
  List.length nbrs = List.length (neighbors self) /\
  Forall (entry_ok (List.length cells)) nbrs.
Proof.
  unfold Triangle_compute_neighbors. intros Hfold Hself.
  revert Hfold.
  apply (foldM_invariant
           (fun l => List.length l = List.length (neighbors self) /\
                     Forall (entry_ok (List.length cells)) l)).
  - intros l [idx cell] l' Hin [Hlen Hall]. apply enumerate_in in Hin.
    unfold visit_cell.
    destruct (Nat.eqb _ 2); [| intros H; injection H as <-; now split].
    destruct (cycle (_point_ids self)); simpl; [| discriminate].
    destruct (first_edge _ _) as [i |]; [| intros H; injection H as <-; now split].
    intros Hset. split.
    + rewrite (setitem_length _ _ _ _ Hset). exact Hlen.
    + apply (setitem_Forall _ _ _ _ _ Hset Hall).
      right. rewrite Nat2Z.id. apply nth_error_Some. rewrite Hin. discriminate.
  - split; [reflexivity | exact Hself].
Qed.

Lemma compute_neighbors_built (self self' : Cell) (cells : list Cell) :
  compute_neighbors self cells = Ok self' ->
  built_cell (List.length cells) self -> built_cell (List.length cells) self'.
Proof.
  destruct self as [b u area normals | b u]; cbn [compute_neighbors].
  - destruct (Triangle_compute_neighbors b cells) as [nbrs |] eqn:E; simpl;
      [| discriminate].
    intros H [Hmid [Hlen Hall]]. injection H as <-.
    destruct (Triangle_compute_neighbors_built b cells nbrs E Hall) as [Hlen' Hall'].
    split; [exact Hmid |]. cbn [cell_base neighbors]. split; [lia | exact Hall'].
  - intros H. injection H as <-. trivial.
Qed.

(** After [find_neighbors] the cells have the shape [calculate] relies on, and
    the midpoints [fishing_cells] reads. *)
Lemma find_neighbors_built (m m' : Mesh) :
  find_neighbors m = Ok m' ->
  Forall (built_cell (List.length (_cells m))) (_cells m) ->
  mesh_ok (_cells m') /\ Forall midpoint_ok (_cells m').
Proof.
  unfold find_neighbors. intros Hfind Hbuilt.
  destruct (foldM _ (seq 0 (List.length (_cells m))) (_cells m)) as [cells |] eqn:E;
    simpl in Hfind; [| discriminate].
  injection Hfind as <-. cbn [_cells].
  assert (Hinv : List.length cells = List.length (_cells m) /\
                 Forall (built_cell (List.length (_cells m))) cells).
  { revert E.
    apply (foldM_invariant
             (fun l => List.length l = List.length (_cells m) /\
                       Forall (built_cell (List.length (_cells m))) l));
      [| split; [reflexivity | exact Hbuilt]].
    intros l i l' _ [Hlen Hall].
    destruct (getitem l i) as [cell |] eqn:Hcell; simpl; [| discriminate].
    destruct (compute_neighbors cell l) as [cell' |] eqn:Hcell'; simpl; [| discriminate].
    intros Hset. split.
    - rewrite (setitem_length _ _ _ _ Hset). exact Hlen.
    - apply (setitem_Forall _ _ _ _ _ Hset Hall).
      rewrite <- Hlen. apply (compute_neighbors_built cell cell' l Hcell').
      rewrite Hlen. rewrite Forall_forall in Hall. apply Hall.
      apply getitem_Ok in Hcell. apply (nth_error_In _ _ Hcell). }
  destruct Hinv as [Hlen Hall]. split.
  - unfold mesh_ok. rewrite Hlen. revert Hall. apply Forall_impl.
    intros [b u area normals | b u] [_ Hcell]; cbn [cell_ok]; [| exact Hcell].
    destruct Hcell as [Hnormals Hentries].
    apply Forall_forall. intros [e ngh] Hin. apply enumerate_in in Hin.
    unfold edge_ok. cbn [fst snd].
    rewrite Forall_forall in Hentries.
    destruct (Hentries ngh (nth_error_In _ _ Hin)) as [Hneg | Hidx]; [now left |].
    right. split; [exact Hidx |]. rewrite Hnormals.
    apply nth_error_Some. rewrite Hin. discriminate.
  - revert Hall. apply Forall_impl. intros c [Hmid _]. exact Hmid.
Qed.

(** Every mesh [Solver.__init__] builds has that shape. *)
Lemma built_mesh_ok (np_exp np_sqrt : Q -> Q) (data : MeshData) (m0 m : Mesh) :
  Mesh_init np_exp np_sqrt data = Ok m0 ->
  find_neighbors m0 = Ok m ->
  mesh_ok (_cells m) /\ Forall midpoint_ok (_cells m).
Proof.
  intros Hinit Hfind. apply (find_neighbors_built m0 m Hfind).
  apply (Mesh_init_built np_exp np_sqrt _ data m0 Hinit).
Qed.

(** ** The builder over the whole mesh *)

Lemma Line_init_fresh (point_ids : list nat) (idx : nat) (points : list (list Q))
  (c : Cell) :
  Line_init point_ids idx points = Ok c -> fresh_cell c.
Proof.
  unfold Line_init, Cell_init.
  destruct (getitem _ 1); cbn [bind]; [| discriminate].
  destruct (getitem _ 0); cbn [bind]; [| discriminate].
  intros H. injection H as <-. split; [reflexivity | discriminate].
Qed.

Lemma Triangle_init_fresh (np_exp np_sqrt : Q -> Q) (point_ids : list nat)
  (idx : nat) (points : list (list Q)) (c : Cell) :
  Triangle_init np_exp np_sqrt point_ids idx points = Ok c -> fresh_cell c.
Proof.
  unfold Triangle_init.
  destruct (Cell_init point_ids idx points) as [b |] eqn:E; cbn [bind]; [| discriminate].
  assert (Hids : _point_ids b = point_ids).
  { revert E. unfold Cell_init.
    destruct (getitem _ 1); cbn [bind]; [| discriminate].
    destruct (getitem _ 0); cbn [bind]; [| discriminate].
    intros H. injection H as <-. reflexivity. }
  apply Cell_init_built in E. destruct E as [Hn _].
  destruct (getitem (midpoint b) 0); cbn [bind]; [| discriminate].
  destruct (getitem (midpoint b) 1); cbn [bind]; [| discriminate].
  destruct (Nat.eqb (List.length point_ids) 3) eqn:Hlen; cbn [negb]; [| discriminate].
  destruct (negb (Nat.eqb (List.length points) 3)); [discriminate |].
  apply Nat.eqb_eq in Hlen.
  repeat (match goal with
          | |- context [point_coord ?p ?i ?j] => destruct (point_coord p i j)
          end; cbn [bind]; [| discriminate]).
  destruct (cycle points); cbn [bind]; [| discriminate].
  destruct (mapM _ _); cbn [bind]; [| discriminate].
  intros H. injection H as <-. cbn [fresh_cell cell_base]. unfold fresh_cell.
  cbn [cell_base]. rewrite Hids. split; [exact Hn | intros _; exact Hlen].
Qed.

(** The connectivity builder reads the vertex lists of the other cells and
    nothing else of them. *)
Lemma visit_cell_ids (point_ids : list nat) (nbrs : list Z) (idx : nat) (c c' : Cell) :
  _point_ids (cell_base c) = _point_ids (cell_base c') ->
  visit_cell point_ids nbrs (idx, c) = visit_cell point_ids nbrs (idx, c').
Proof. intros H. unfold visit_cell. rewrite H. reflexivity. Qed.

Lemma Triangle_compute_neighbors_ids (self : CellBase) (cells cells' : list Cell) :
  point_ids_of cells = point_ids_of cells' ->
  Triangle_compute_neighbors self cells = Triangle_compute_neighbors self cells'.
Proof.
  unfold Triangle_compute_neighbors, enumerate.
  generalize (neighbors self). generalize 0%nat. revert cells'.
  induction cells as [| c cells IH]; intros [| c' cells'] k nbrs Hids;
    try discriminate Hids; [reflexivity |].
  injection Hids as Hc Hrest. cbn [enumerate_from foldM].
  rewrite (visit_cell_ids _ _ _ c c' Hc).
  destruct (visit_cell (_point_ids self) nbrs (k, c')); cbn [bind]; [| reflexivity].
  apply IH, Hrest.
Qed.

Lemma compute_neighbors_ids (self : Cell) (cells cells' : list Cell) :
  point_ids_of cells = point_ids_of cells' ->
  compute_neighbors self cells = compute_neighbors self cells'.
Proof.
  intros H. destruct self; cbn [compute_neighbors]; [| reflexivity].
  rewrite (Triangle_compute_neighbors_ids _ _ _ H). reflexivity.
Qed.

Lemma compute_neighbors_keeps_ids (self self' : Cell) (cells : list Cell) :
  compute_neighbors self cells = Ok self' ->
  _point_ids (cell_base self') = _point_ids (cell_base self).
Proof.
  destruct self; cbn [compute_neighbors].
  - destruct (Triangle_compute_neighbors base cells); cbn [bind]; [| discriminate].
    intros H. injection H as <-. reflexivity.
  - intros H. injection H as <-. reflexivity.
Qed.

Lemma nth_error_ids (cells cells' : list Cell) (j : nat) (c : Cell) :
  point_ids_of cells = point_ids_of cells' ->
  nth_error cells j = Some c ->
  exists c', nth_error cells' j = Some c' /\
             _point_ids (cell_base c') = _point_ids (cell_base c).
Proof.
  intros Hids Hc.
  assert (H : nth_error (point_ids_of cells') j = Some (_point_ids (cell_base c))).
  { rewrite <- Hids. unfold point_ids_of. rewrite nth_error_map, Hc. reflexivity. }
  unfold point_ids_of in H. rewrite nth_error_map in H.
  destruct (nth_error cells' j) as [c' |]; [| discriminate H].
  exists c'. split; [reflexivity |]. injection H as H. exact H.
Qed.

Lemma matches_edge_ids (point_ids : list nat) (i : nat) (c c' : Cell) :
  _point_ids (cell_base c') = _point_ids (cell_base c) ->
  matches_edge point_ids i c' = matches_edge point_ids i c.
Proof. intros H. unfold matches_edge. rewrite H. reflexivity. Qed.

Lemma last_match_ids (point_ids : list nat) (i : nat) (cells cells' : list Cell)
  (idx : nat) :
  point_ids_of cells = point_ids_of cells' ->
  last_match (matches_edge point_ids i) cells idx ->
  last_match (matches_edge point_ids i) cells' idx.
Proof.
  intros Hids [[c [Hc Hm]] Hlast]. split.
  - destruct (nth_error_ids _ _ _ _ Hids Hc) as [c' [Hc' Hsame]].
    exists c'. split; [exact Hc' |]. rewrite (matches_edge_ids _ _ _ _ Hsame). exact Hm.
  - intros j c' Hj Hc'.
    destruct (nth_error_ids _ _ _ _ (eq_sym Hids) Hc') as [c0 [Hc0 Hsame]].
    rewrite <- (matches_edge_ids _ _ _ _ Hsame). apply (Hlast j c0 Hj Hc0).
Qed.

Lemma no_match_ids (point_ids : list nat) (i : nat) (cells cells' : list Cell) :
  point_ids_of cells = point_ids_of cells' ->
  no_match (matches_edge point_ids i) cells ->
  no_match (matches_edge point_ids i) cells'.
Proof.
  intros Hids Hnone c' Hin. apply In_nth_error in Hin. destruct Hin as [j Hc'].
  destruct (nth_error_ids _ _ _ _ (eq_sym Hids) Hc') as [c [Hc Hsame]].
  rewrite <- (matches_edge_ids _ _ _ _ Hsame). apply Hnone, (nth_error_In _ _ Hc).
Qed.

Lemma setitem_nth {A : Type} (xs xs' : list A) (i : nat) (v : A) (k : nat) :
  setitem xs i v = Ok xs' ->
  nth_error xs' k = if Nat.eqb k i then Some v else nth_error xs k.
Proof.
  revert xs' i k. induction xs as [| x xs IH]; intros xs' i k; simpl.
  - discriminate.
  - destruct i as [| i].
    + intros H. injection H as <-. destruct k; reflexivity.
    + destruct (setitem xs i v) as [xs1 |] eqn:E; simpl; [| discriminate].
      intros H. injection H as <-. destruct k as [| k]; [reflexivity |].
      simpl. apply (IH xs1 i k E).
Qed.

Lemma setitem_map {A B : Type} (f : A -> B) (xs xs' : list A) (i : nat) (x v : A) :
  setitem xs i v = Ok xs' -> nth_error xs i = Some x -> f v = f x ->
  map f xs' = map f xs.
Proof.
  revert xs' i. induction xs as [| x0 xs IH]; intros xs' i; simpl.
  - discriminate.
  - destruct i as [| i].
    + intros H Hx Hf. injection H as <-. injection Hx as ->.
      simpl. rewrite Hf. reflexivity.
    + destruct (setitem xs i v) as [xs1 |] eqn:E; simpl; [| discriminate].
      intros H Hx Hf. injection H as <-. simpl. f_equal. apply (IH xs1 i E Hx Hf).
Qed.

(** [find_neighbors] from position [t] on: each cell it has passed holds what
    [compute_neighbors] makes of the cell as constructed, against the cells
    as constructed. *)
Lemma find_neighbors_cells (cells0 : list Cell) (len t : nat)
  (cells_t cells' : list Cell) :
  foldM (fun cells i =>
           cell <- getitem cells i ;;
           cell' <- compute_neighbors cell cells ;;
           setitem cells i cell')
        (seq t len) cells_t = Ok cells' ->
  point_ids_of cells_t = point_ids_of cells0 ->
  (forall k c, (k < t)%nat -> nth_error cells_t k = Some c ->
     exists c0, nth_error cells0 k = Some c0 /\ compute_neighbors c0 cells0 = Ok c) ->
  (forall k, (t <= k)%nat -> nth_error cells_t k = nth_error cells0 k) ->
  point_ids_of cells' = point_ids_of cells0 /\
  (forall k c, (k < t + len)%nat -> nth_error cells' k = Some c ->
     exists c0, nth_error cells0 k = Some c0 /\ compute_neighbors c0 cells0 = Ok c).
Proof.
  revert t cells_t. induction len as [| len IH]; intros t cells_t Hfold Hids Hdone Hrest.
  - injection Hfold as <-. split; [exact Hids |].
    intros k c Hk. rewrite Nat.add_0_r in Hk. apply Hdone, Hk.
  - cbn [seq foldM] in Hfold.
    destruct (getitem cells_t t) as [cell |] eqn:Hcell; cbn [bind] in Hfold;
      [| discriminate Hfold].
    destruct (compute_neighbors cell cells_t) as [cell' |] eqn:Hcell';
      cbn [bind] in Hfold; [| discriminate Hfold].
    destruct (setitem cells_t t cell') as [cells1 |] eqn:Hset; cbn [bind] in Hfold;
      [| discriminate Hfold].
    apply getitem_Ok in Hcell.
    rewrite (compute_neighbors_ids cell cells_t cells0 Hids) in Hcell'.
    replace (t + S len)%nat with (S t + len)%nat by lia.
    apply (IH (S t) cells1 Hfold).
    + unfold point_ids_of in *. rewrite <- Hids.
      apply (setitem_map _ _ _ _ cell cell' Hset Hcell).
      apply (compute_neighbors_keeps_ids _ _ _ Hcell').
    + intros k c Hk Hc. rewrite (setitem_nth _ _ _ _ k Hset) in Hc.
      destruct (Nat.eqb k t) eqn:Ekt.
      * apply Nat.eqb_eq in Ekt. subst k. injection Hc as <-.
        exists cell. split; [| exact Hcell'].
        rewrite <- (Hrest t (Nat.le_refl t)). exact Hcell.
      * apply Nat.eqb_neq in Ekt. apply (Hdone k c); [lia | exact Hc].
    + intros k Hk. rewrite (setitem_nth _ _ _ _ k Hset).
      replace (Nat.eqb k t) with false by (symmetry; apply Nat.eqb_neq; lia).
      apply Hrest. lia.
Qed.

(** In a mesh as built, each triangle with three distinct vertices has in
    [neighbors[i]] the last cell of the mesh that matches its edge [i], or
    -1 when no cell does. *)
Lemma find_neighbors_last_match (np_exp np_sqrt : Q -> Q) (data : MeshData)
  (m0 m : Mesh) (k : nat) (b : CellBase) (u area : Q) (normals : list vec3) :
  Mesh_init np_exp np_sqrt data = Ok m0 ->
  find_neighbors m0 = Ok m ->
  nth_error (_cells m) k = Some (Triangle b u area normals) ->
  NoDup (_point_ids b) ->
  List.length (neighbors b) = 3%nat /\
  forall i n, nth_error (neighbors b) i = Some n ->
    (n = (-1)%Z /\ no_match (matches_edge (_point_ids b) i) (_cells m)) \/
    (exists idx, n = Z.of_nat idx /\
                 last_match (matches_edge (_point_ids b) i) (_cells m) idx).
Proof.
  intros Hinit Hfind Hk Hnd.
  pose proof (Mesh_init_Forall fresh_cell np_exp np_sqrt data m0
                Line_init_fresh (Triangle_init_fresh np_exp np_sqrt) Hinit) as Hfresh.
  unfold find_neighbors in Hfind.
  destruct (foldM _ (seq 0 (List.length (_cells m0))) (_cells m0)) as [cells |] eqn:E;
    cbn [bind] in Hfind; [| discriminate Hfind].
  injection Hfind as <-. cbn [_cells] in *.
  destruct (find_neighbors_cells (_cells m0) _ 0 (_cells m0) cells E eq_refl)
    as [Hids Hdone].
  { intros j c Hj. lia. }
  { reflexivity. }
  assert (Hlen : (k < 0 + List.length (_cells m0))%nat).
  { cbn [Nat.add]. replace (List.length (_cells m0)) with (List.length cells).
    - apply nth_error_Some. rewrite Hk. discriminate.
    - unfold point_ids_of in Hids. apply (f_equal (@List.length _)) in Hids.
      rewrite !length_map in Hids. exact Hids. }
  destruct (Hdone k _ Hlen Hk) as [c0 [Hc0 Hcompute]].
  rewrite Forall_forall in Hfresh.
  destruct (Hfresh c0 (nth_error_In _ _ Hc0)) as [Hnbrs Hthree].
  destruct c0 as [b0 u0 a0 n0 | b0 u0]; cbn [compute_neighbors] in Hcompute;
    [| discriminate Hcompute].
  destruct (Triangle_compute_neighbors b0 (_cells m0)) as [nbrs |] eqn:Hnbrs0;
    cbn [bind] in Hcompute; [| discriminate Hcompute].
  injection Hcompute as <- _ _ _. cbn [cell_base neighbors _point_ids] in *.
  specialize (Hthree eq_refl).
  assert (Hfresh0 : neighbors b0 = [-1; -1; -1]%Z).
  { rewrite Hnbrs. destruct (_point_ids b0) as [| x [| y [| z [| w l]]]];
      try discriminate Hthree. reflexivity. }
  destruct (Triangle_compute_neighbors_spec b0 (_cells m0) Hnd Hthree Hfresh0)
    as (nbrs' & Hspec & Hlen' & Hentries).
  rewrite Hnbrs0 in Hspec. injection Hspec as <-.
  split; [exact Hlen' |].
  intros i n Hn. destruct (Hentries i n Hn) as [[Hminus Hnone] | [idx [Hidx Hlast]]].
  - left. split; [exact Hminus |].
    apply (no_match_ids _ _ _ _ (eq_sym Hids) Hnone).
  - right. exists idx. split; [exact Hidx |].
    apply (last_match_ids _ _ _ _ _ (eq_sym Hids) Hlast).
Qed.

(** ** The region-of-interest query *)

Lemma between_iff (a x b : Q) : between a x b = true <-> a <= x /\ x <= b.
Proof.
  unfold between. rewrite andb_true_iff, !Qle_bool_iff. reflexivity.
Qed.

Lemma fishing_filter_spec (cells : list Cell) (x_min x_max y_min y_max : Q) :
  Forall midpoint_ok cells ->
  exists result,
    fishing_filter cells x_min x_max y_min y_max = Ok result /\
    forall c, In c result <->
              In c cells /\ is_triangle c = true /\ inside x_min x_max y_min y_max c.
Proof.
  induction 1 as [| cell rest Hcell _ IH].
  - exists []. split; [reflexivity |]. intros c; simpl; tauto.
  - destruct IH as [tail [Htail Hspec]].
    destruct Hcell as [m0 [m1 [more Hmid]]].
    simpl. rewrite Htail.
    destruct (is_triangle cell) eqn:Htri.
    + rewrite Hmid. simpl.
      destruct (between x_min m0 x_max) eqn:Hx; simpl.
      * destruct (between y_min m1 y_max) eqn:Hy.
        -- exists (cell :: tail). split; [reflexivity |].
           apply between_iff in Hx. apply between_iff in Hy.
           intros c. simpl. rewrite Hspec. split.
           ++ intros [<- | Hc]; [| tauto].
              split; [now left |]. split; [assumption |].
              exists m0, m1, more. tauto.
           ++ intros [[-> | Hin] Hc]; [now left | tauto].
        -- exists tail. split; [reflexivity |].
           intros c. rewrite Hspec. simpl. split; [tauto |].
           intros [[<- | Hin] [Ht Hins]]; [| tauto].
           destruct Hins as [x [y [r [Hm Hb]]]].
           rewrite Hmid in Hm. injection Hm as <- <- <-.
           assert (between y_min m1 y_max = true) by (apply between_iff; tauto).
           congruence.
      * exists tail. split; [reflexivity |].
        intros c. rewrite Hspec. simpl. split; [tauto |].
        intros [[<- | Hin] [Ht Hins]]; [| tauto].
        destruct Hins as [x [y [r [Hm Hb]]]].
        rewrite Hmid in Hm. injection Hm as <- <- <-.
        assert (between x_min m0 x_max = true) by (apply between_iff; tauto).
        congruence.
    + simpl. exists tail. split; [reflexivity |].
      intros c. rewrite Hspec. simpl. split; [tauto |].
      intros [[<- | Hin] [Ht Hins]]; [congruence | tauto].
Qed.

(** C10: [fishing_cells] keeps exactly the triangles whose midpoint lies in
    the closed rectangle: a triangle with its midpoint on the border is kept,
    and a line never is. *)
Theorem fishing_cells_inclusive (m : Mesh) (x_min x_max y_min y_max : Q) :
  Forall midpoint_ok (_cells m) ->
  exists result,
    fishing_cells m x_min x_max y_min y_max = Ok result /\
    (forall c, In c result <->
               In c (_cells m) /\ is_triangle c = true /\
               inside x_min x_max y_min y_max c) /\
    (forall c m0 m1 rest,
        In c (_cells m) -> is_triangle c = true ->
        midpoint (cell_base c) = m0 :: m1 :: rest ->
        x_min <= m0 -> m0 <= x_max -> y_min <= m1 -> m1 <= y_max ->
        m0 == x_min \/ m0 == x_max \/ m1 == y_min \/ m1 == y_max ->
        In c result) /\
    (forall b u, ~ In (Line b u) result).
Proof.
  intros Hok. unfold fishing_cells.
  destruct (fishing_filter_spec (_cells m) x_min x_max y_min y_max Hok)
    as [result [Hres Hspec]].
  exists result. split; [assumption |]. split; [assumption |]. split.
  - intros c m0 m1 rest Hin Htri Hmid Hx1 Hx2 Hy1 Hy2 _.
    apply Hspec. split; [assumption |]. split; [assumption |].
    exists m0, m1, rest. tauto.
  - intros b u Hin. apply Hspec in Hin. destruct Hin as [_ [Htri _]].
    discriminate Htri.
Qed.

Lemma sample_mesh_midpoints : Forall midpoint_ok (_cells (_mesh sample_solver)).
Proof.
  repeat constructor; eexists; eexists; eexists; reflexivity.
Qed.

Lemma fishing_cells_inclusive_witness :
  exists result,
    fishing_cells (_mesh sample_solver) (4 # 3) 2 0 2 = Ok result /\
    List.length result = 1%nat.
Proof.
  destruct (fishing_cells_inclusive (_mesh sample_solver) (4 # 3) 2 0 2
              sample_mesh_midpoints)
    as [result [Hres _]].
  exists result. split; [exact Hres |].
  vm_compute in Hres. injection Hres as <-. reflexivity.
Defined.

(** ** One time step *)

Lemma commit_nth (cells : list Cell) (u_new : list Q) (i : nat) (c : Cell) (v : Q) :
  nth_error cells i = Some c -> nth_error u_new i = Some v ->
  nth_error (commit cells u_new) i = Some (set_oil_value c v).
Proof.
  unfold commit. revert u_new i.
  induction cells as [| c0 cells IH]; intros u_new i Hc Hv.
  - destruct i; discriminate Hc.
  - destruct u_new as [| v0 u_new]; [destruct i; discriminate Hv |].
    destruct i as [| i]; simpl in *.
    + injection Hc as ->. injection Hv as ->. reflexivity.
    + apply IH; assumption.
Qed.

Lemma commit_length (cells : list Cell) (u_new : list Q) :
  List.length u_new = List.length cells ->
  List.length (commit cells u_new) = List.length cells.
Proof.
  intros H. unfold commit. rewrite length_map, length_combine, H. apply Nat.min_id.
Qed.

(** The cell at [i] after a step is the cell before it with the value the
    first loop computed from the snapshot. *)
Lemma calculate_cells_nth (dt : Q) (cells cells' : list Cell) (i : nat) (c : Cell) :
  calculate_cells dt cells = Ok cells' ->
  nth_error cells i = Some c ->
  exists v, new_value dt cells (map oil_value cells) (i, c) = Ok v /\
            nth_error cells' i = Some (set_oil_value c v).
Proof.
  unfold calculate_cells. intros H Hc.
  destruct (mapM _ (enumerate cells)) as [u_new |] eqn:E; simpl in H; [| discriminate].
  injection H as <-.
  destruct (mapM_nth _ _ _ i (i, c) E (enumerate_nth _ _ _ Hc)) as [v [Hv Hnth]].
  exists v. split; [exact Hv |]. apply commit_nth; assumption.
Qed.

Lemma calculate_cells_length (dt : Q) (cells cells' : list Cell) :
  calculate_cells dt cells = Ok cells' -> List.length cells' = List.length cells.
Proof.
  unfold calculate_cells. intros H.
  destruct (mapM _ (enumerate cells)) as [u_new |] eqn:E; simpl in H; [| discriminate].
  injection H as <-. apply commit_length.
  apply mapM_length in E. rewrite E. unfold enumerate.
  clear. generalize 0%nat. induction cells; intros k; simpl; [reflexivity |].
  f_equal. apply IHcells.
Qed.

(** A line has no normals: its loop over the edges ends only if every
    neighbour entry is negative, and then [up] is untouched. *)
Lemma line_edges_keep_up (dt : Q) (cells : list Cell) (u : list Q) (i : nat)
  (b : CellBase) (u0 : Q) (entries : list (nat * Z)) (up up' : Q) :
  foldM (edge_update dt cells u i (Line b u0)) entries up = Ok up' -> up' = up.
Proof.
  revert up. induction entries as [| [e ngh] entries IH]; intros up; simpl.
  - intros H. injection H as <-. reflexivity.
  - destruct (ngh <? 0)%Z; simpl; [| discriminate].
    apply IH.
Qed.

Lemma new_value_line (dt : Q) (cells : list Cell) (i : nat) (b : CellBase) (u0 v : Q) :
  nth_error cells i = Some (Line b u0) ->
  new_value dt cells (map oil_value cells) (i, Line b u0) = Ok v -> v == u0.
Proof.
  intros Hc. unfold new_value.
  destruct (foldM _ _ 0) as [up |] eqn:E; simpl; [| discriminate].
  apply line_edges_keep_up in E. subst up.
  unfold getitem. rewrite nth_error_map, Hc. simpl.
  intros H. injection H as <-. ring.
Qed.

(** ** The time step against its formula *)

Lemma fold_left_Qplus (xs : list Q) (a : Q) : fold_left Qplus xs a == a + qsum xs.
Proof.
  unfold qsum. revert a. induction xs as [| x xs IH]; intros a; simpl.
  - ring.
  - rewrite (IH (a + x)), (IH (0 + x)). ring.
Qed.

Lemma qsum_cons (x : Q) (xs : list Q) : qsum (x :: xs) == x + qsum xs.
Proof.
  unfold qsum at 1. simpl. rewrite fold_left_Qplus. ring.
Qed.

Lemma qsum_app (xs ys : list Q) : qsum (xs ++ ys) == qsum xs + qsum ys.
Proof.
  induction xs as [| x xs IH]; simpl.
  - unfold qsum at 2. simpl. ring.
  - rewrite !qsum_cons, IH. ring.
Qed.

Lemma upwind_compat (a a' b b' angle angle' : Q) :
  a == a' -> b == b' -> angle == angle' ->
  upwind a b angle == upwind a' b' angle'.
Proof.
  intros Ha Hb Hangle. unfold upwind.
  destruct (Qlt_le_dec 0 angle) as [H | H], (Qlt_le_dec 0 angle') as [H' | H'].
  - rewrite Ha, Hangle. reflexivity.
  - exfalso. rewrite Hangle in H. apply (Qlt_not_le _ _ H H').
  - exfalso. rewrite <- Hangle in H'. apply (Qlt_not_le _ _ H' H).
  - rewrite Hb, Hangle. reflexivity.
Qed.

(** On arrays of three, [flux_function] returns, and returns [flux]. *)
Lemma flux_function_vec3 (a b : Q) (n v : vec3) :
  exists f, flux_function a b (vec3_list n) (vec3_list v) = Ok f /\ f == flux a b n v.
Proof.
  eexists. split; [reflexivity |].
  apply upwind_compat; try reflexivity.
  unfold qsum, dot3. simpl. ring.
Qed.

Lemma nth_error_nth_lt {A : Type} (xs : list A) (i : nat) (d : A) :
  (i < List.length xs)%nat -> nth_error xs i = Some (nth i xs d).
Proof.
  revert i. induction xs as [| x xs IH]; intros i Hi; simpl in Hi.
  - lia.
  - destruct i as [| i]; simpl; [reflexivity | apply IH; lia].
Qed.

(** The loop over the edges of a triangle returns, and subtracts from [up]
    the terms of the edges that have a neighbour. *)
Lemma edges_fold (dt : Q) (cells : list Cell) (u : list Q) (i : nat)
  (b : CellBase) (u0 area : Q) (normals : list vec3)
  (entries : list (nat * Z)) (up : Q) :
  List.length u = List.length cells ->
  (i < List.length cells)%nat ->
  Forall (edge_ok (List.length cells) normals) entries ->
  exists up',
    foldM (edge_update dt cells u i (Triangle b u0 area normals)) entries up = Ok up' /\
    up' == up - qsum (map (edge_term dt cells u i b area normals)
                          (filter interior entries)).
Proof.
  intros Hu Hi Hok. revert up.
  induction Hok as [| [e ngh] entries Hedge _ IH]; intros up.
  - exists up. split; [reflexivity |]. unfold qsum. simpl. ring.
  - cbn [foldM filter]. unfold edge_update at 1.
    destruct (ngh <? 0)%Z eqn:Hneg.
    + apply Z.ltb_lt in Hneg.
      assert (Hint : (0 <=? ngh)%Z = false) by (apply Z.leb_gt; lia).
      unfold interior at 1. cbn [snd]. rewrite Hint. cbn [bind]. apply IH.
    + apply Z.ltb_ge in Hneg.
      assert (Hint : (0 <=? ngh)%Z = true) by (apply Z.leb_le; lia).
      unfold interior at 1. cbn [snd]. rewrite Hint.
      destruct Hedge as [Hlt | [Hngh He]]; [cbn [snd] in Hlt; lia |].
      cbn [snd fst] in Hngh, He.
      cbn [cell_normals cell_area bind cell_base].
      unfold getitem.
      rewrite (nth_error_nth_lt normals e (V3 0 0 0) He). cbn [bind].
      destruct (nth_error cells (Z.to_nat ngh)) as [other |] eqn:Hother;
        [| apply nth_error_None in Hother; lia].
      cbn [bind].
      rewrite (nth_error_nth_lt u i 0) by lia. cbn [bind].
      rewrite (nth_error_nth_lt u (Z.to_nat ngh) 0) by lia. cbn [bind].
      destruct (flux_function_vec3 (nth i u 0) (nth (Z.to_nat ngh) u 0)
                  (nth e normals (V3 0 0 0))
                  (vec3_scale 0.5 (vec3_add (velocity b) (velocity (cell_base other)))))
        as [f [Hf Hfeq]].
      rewrite Hf. cbn [bind].
      destruct (IH (up - dt / area * f)) as [up' [Hfold Hup']].
      exists up'. split; [exact Hfold |].
      rewrite Hup'. cbn [map]. rewrite qsum_cons.
      unfold edge_term at 2. cbn [fst snd]. unfold velocity_at. rewrite Hother.
      rewrite Hfeq. ring.
Qed.

(** The first loop returns for every cell of a well-shaped mesh. *)
Lemma new_value_ok (dt : Q) (cells : list Cell) (i : nat) (c : Cell) :
  mesh_ok cells -> nth_error cells i = Some c ->
  exists v,
    new_value dt cells (map oil_value cells) (i, c) = Ok v /\
    match c with
    | Triangle b _ area normals =>
        v == step_value dt cells (map oil_value cells) i b area normals
    | Line _ u0 => v == u0
    end.
Proof.
  intros Hok Hc.
  assert (Hi : (i < List.length cells)%nat)
    by (apply nth_error_Some; rewrite Hc; discriminate).
  assert (Hcell : cell_ok (List.length cells) c).
  { unfold mesh_ok in Hok. rewrite Forall_forall in Hok.
    apply Hok. apply (nth_error_In _ _ Hc). }
  assert (Hu : List.length (map oil_value cells) = List.length cells)
    by apply length_map.
  destruct c as [b u0 area normals | b u0].
  - destruct (edges_fold dt cells (map oil_value cells) i b u0 area normals
                (enumerate (neighbors b)) 0 Hu Hi Hcell) as [up [Hfold Hup]].
    unfold new_value. cbn [cell_base]. rewrite Hfold. cbn [bind].
    unfold getitem. rewrite (nth_error_nth_lt _ i 0) by lia. cbn [bind].
    eexists. split; [reflexivity |].
    unfold step_value. rewrite Hup. ring.
  - assert (Hline : forall entries up,
               Forall (fun en : nat * Z => (snd en < 0)%Z) entries ->
               foldM (edge_update dt cells (map oil_value cells) i (Line b u0))
                     entries up = Ok up).
    { induction entries as [| [e ngh] entries IH]; intros up Hall.
      - reflexivity.
      - inversion Hall as [| x l Hneg Hrest]; subst. cbn [snd] in Hneg.
        cbn [foldM]. unfold edge_update at 1.
        apply Z.ltb_lt in Hneg. rewrite Hneg. cbn [bind]. apply IH, Hrest. }
    unfold new_value. cbn [cell_base]. rewrite Hline.
    + cbn [bind]. unfold getitem. rewrite nth_error_map, Hc. cbn.
      eexists. split; [reflexivity |]. ring.
    + cbn [cell_ok] in Hcell. unfold enumerate. generalize 0%nat.
      induction Hcell as [| n l Hn _ IH]; intros k; cbn [enumerate_from];
        constructor; [exact Hn | apply IH].
Qed.

Lemma calculate_cells_ok (dt : Q) (cells : list Cell) :
  mesh_ok cells -> exists cells', calculate_cells dt cells = Ok cells'.
Proof.
  intros Hok. unfold calculate_cells.
  destruct (mapM_total (new_value dt cells (map oil_value cells)) (enumerate cells))
    as [u_new Hu_new].
  - intros [i c] Hin. apply enumerate_in in Hin.
    destruct (new_value_ok dt cells i c Hok Hin) as [v [Hv _]].
    exists v. exact Hv.
  - rewrite Hu_new. eexists. reflexivity.
Qed.

(** One call of [calculate] on a mesh of the shape the builder leaves: it
    returns, and every new value is computed from the values before the
    call. *)
Lemma calculate_returns (s : Solver) :
  mesh_ok (_cells (_mesh s)) ->
  exists s',
    calculate s = Ok s' /\
    dt s' = dt s /\ _tStart s' = _tStart s /\ _tEnd s' = _tEnd s /\ _nt s' = _nt s /\
    List.length (_cells (_mesh s')) = List.length (_cells (_mesh s)) /\
    forall i c, nth_error (_cells (_mesh s)) i = Some c ->
      match c with
      | Triangle b _ area normals =>
          exists u',
            nth_error (_cells (_mesh s')) i = Some (Triangle b u' area normals) /\
            u' == step_value (dt s) (_cells (_mesh s))
                             (map oil_value (_cells (_mesh s))) i b area normals
      | Line b u0 =>
          exists u', nth_error (_cells (_mesh s')) i = Some (Line b u') /\ u' == u0
      end.
Proof.
  intros Hok. unfold calculate.
  destruct (calculate_cells_ok (dt s) _ Hok) as [cells' Hstep].
  rewrite Hstep. cbn [bind]. eexists. split; [reflexivity |].
  cbn [dt _tStart _tEnd _nt _mesh _cells with_mesh].
  repeat (split; [reflexivity |]).
  split; [apply (calculate_cells_length _ _ _ Hstep) |].
  intros i c Hc.
  destruct (calculate_cells_nth _ _ _ i c Hstep Hc) as [v [Hv Hnth]].
  destruct (new_value_ok (dt s) _ i c Hok Hc) as [v' [Hv' Hspec]].
  rewrite Hv in Hv'. injection Hv' as <-.
  destruct c as [b u0 area normals | b u0]; exists v; split;
    [exact Hnth | exact Hspec | exact Hnth | exact Hspec].
Qed.

(** C1: on a mesh as the builder leaves it, in which no triangle has area
    0, one call of [calculate] returns; it leaves in every triangle [i] the
    value
    [u_i - sum over the edges e with neighbors[e] >= 0 of (dt / area_i) *
    flux(u_i, u_ngh, normals[e], 0.5 * (velocity_i + velocity_ngh))], where
    [u] holds the values all cells had before the call; a line keeps its
    value, and nothing but the values changes.  The areas are asked not to
    be zero because the step divides by them: for an area of zero NumPy
    stores an infinity or a NaN, which no rational stands for. *)
Theorem calculate_step (s : Solver) :
  mesh_ok (_cells (_mesh s)) ->
  positive_areas (_cells (_mesh s)) ->
  exists s',
    calculate s = Ok s' /\
    dt s' = dt s /\ _tStart s' = _tStart s /\ _tEnd s' = _tEnd s /\ _nt s' = _nt s /\
    List.length (_cells (_mesh s')) = List.length (_cells (_mesh s)) /\
    forall i c, nth_error (_cells (_mesh s)) i = Some c ->
      match c with
      | Triangle b _ area normals =>
          exists u',
            nth_error (_cells (_mesh s')) i = Some (Triangle b u' area normals) /\
            u' == step_value (dt s) (_cells (_mesh s))
                             (map oil_value (_cells (_mesh s))) i b area normals
      | Line b u0 =>
          exists u', nth_error (_cells (_mesh s')) i = Some (Line b u') /\ u' == u0
      end.
Proof. intros Hok _. exact (calculate_returns s Hok). Qed.

(** Checking [mesh_ok] on a mesh that is written out. *)
Ltac solve_entry :=
  cbn; first [lia | left; cbn; lia | right; split; cbn; lia].

Ltac solve_entries := repeat (constructor; [solve_entry |]); constructor.

Ltac solve_mesh_ok :=
  unfold mesh_ok; cbn; repeat (constructor; [cbn; solve_entries |]); constructor.

Lemma sample_mesh_ok : mesh_ok (_cells (_mesh sample_solver)).
Proof. solve_mesh_ok. Qed.

Lemma sample_mesh_areas : positive_areas (_cells (_mesh sample_solver)).
Proof.
  intros i b u area normals H.
  do 6 (destruct i as [| i]; [cbn in H; try discriminate H;
                              injection H as _ _ <- _; discriminate |]).
  destruct i; discriminate H.
Qed.

Lemma calculate_step_witness :
  exists s',
    calculate sample_solver = Ok s' /\
    List.length (_cells (_mesh s')) = 6%nat.
Proof.
  destruct (calculate_step sample_solver sample_mesh_ok sample_mesh_areas)
    as (s' & Hs' & _ & _ & _ & _ & Hlen & _).
  exists s'. split; [exact Hs' |]. rewrite Hlen. reflexivity.
Defined.

(** ** Sums over the edges *)

Lemma qsum_nil : qsum [] == 0.
Proof. reflexivity. Qed.

Lemma qsum_perm (xs ys : list Q) : Permutation xs ys -> qsum xs == qsum ys.
Proof.
  induction 1 as [| x xs ys _ IH | x y xs | xs ys zs _ IH1 _ IH2].
  - reflexivity.
  - rewrite !qsum_cons, IH. reflexivity.
  - rewrite !qsum_cons. ring.
  - rewrite IH1. exact IH2.
Qed.

Lemma qsum_map_ext {A : Type} (f g : A -> Q) (xs : list A) :
  (forall x, In x xs -> f x == g x) -> qsum (map f xs) == qsum (map g xs).
Proof.
  induction xs as [| x xs IH]; intros H.
  - reflexivity.
  - cbn [map]. rewrite !qsum_cons, IH.
    + rewrite (H x (or_introl eq_refl)). reflexivity.
    + intros y Hy. apply H. now right.
Qed.

Lemma qsum_map_opp {A : Type} (f : A -> Q) (xs : list A) :
  qsum (map (fun x => - f x) xs) == - qsum (map f xs).
Proof.
  induction xs as [| x xs IH].
  - reflexivity.
  - cbn [map]. rewrite !qsum_cons, IH. ring.
Qed.

Lemma qsum_map_scale {A : Type} (k : Q) (f : A -> Q) (xs : list A) :
  qsum (map (fun x => k * f x) xs) == k * qsum (map f xs).
Proof.
  induction xs as [| x xs IH].
  - unfold qsum. simpl. ring.
  - cbn [map]. rewrite !qsum_cons, IH. ring.
Qed.

(** A sum whose terms are paired off by an involution that flips their sign
    is zero. *)
Lemma involution_sum_zero {A : Type} (s : A -> A) (f : A -> Q) (E : list A) :
  NoDup E ->
  (forall x, In x E -> In (s x) E) ->
  (forall x, In x E -> s (s x) = x) ->
  (forall x, In x E -> f (s x) == - f x) ->
  qsum (map f E) == 0.
Proof.
  intros Hnd Hin Hinv Hflip.
  assert (Hperm : Permutation E (map s E)).
  { apply NoDup_Permutation_bis.
    - exact Hnd.
    - rewrite length_map. apply Nat.le_refl.
    - intros x Hx. apply in_map_iff. exists (s x). split; [apply Hinv, Hx | apply Hin, Hx]. }
  assert (Hsum : qsum (map f E) == - qsum (map f E)).
  { rewrite (qsum_perm _ _ (Permutation_map f Hperm)) at 1.
    rewrite map_map, (qsum_map_ext (fun x => f (s x)) (fun x => - f x) E Hflip).
    apply qsum_map_opp. }
  lra.
Qed.

Lemma enumerate_from_in_iff {A : Type} (k : nat) (xs : list A) (i : nat) (x : A) :
  In (i, x) (enumerate_from k xs) <-> (k <= i)%nat /\ nth_error xs (i - k) = Some x.
Proof.
  split; [apply enumerate_from_in |].
  intros [Hle Hnth].
  assert (H : nth_error (enumerate_from k xs) (i - k) = Some (i, x)).
  { rewrite enumerate_from_nth, Hnth. simpl. f_equal. f_equal. lia. }
  apply (nth_error_In _ _ H).
Qed.

(** Membership in the list of edges with a neighbour. *)
Lemma in_directed_edges_from (k : nat) (cells : list Cell) (i e : nat) :
  In (i, e) (directed_edges_from k cells) <->
  (k <= i)%nat /\
  exists ngh, neighbor_at cells (i - k) e = Some ngh /\ (0 <= ngh)%Z.
Proof.
  revert k. induction cells as [| c cells IH]; intros k; cbn [directed_edges_from].
  - split; [intros [] |]. intros [_ [ngh [H _]]].
    unfold neighbor_at in H. destruct (i - k)%nat; discriminate H.
  - rewrite in_app_iff, IH, in_map_iff. split.
    + intros [[[e0 ngh] [Heq Hin]] | [Hle [ngh [Hn Hpos]]]].
      * cbn [fst] in Heq. injection Heq as <- <-.
        apply filter_In in Hin. destruct Hin as [Hin Hint].
        apply enumerate_in in Hin. unfold interior in Hint. cbn [snd] in Hint.
        split; [lia |]. exists ngh. rewrite Nat.sub_diag.
        split; [exact Hin | apply Z.leb_le, Hint].
      * split; [lia |]. exists ngh. split; [| exact Hpos].
        replace (i - k)%nat with (S (i - S k)) by lia. exact Hn.
    + intros [Hle [ngh [Hn Hpos]]].
      destruct (Nat.eq_dec i k) as [-> | Hne].
      * left. rewrite Nat.sub_diag in Hn. exists (e, ngh). split; [reflexivity |].
        apply filter_In. split.
        -- apply enumerate_from_in_iff. rewrite Nat.sub_0_r. split; [lia | exact Hn].
        -- unfold interior. cbn [snd]. apply Z.leb_le, Hpos.
      * right. split; [lia |]. exists ngh. split; [| exact Hpos].
        replace (i - k)%nat with (S (i - S k)) in Hn by lia. exact Hn.
Qed.

Lemma NoDup_edges_of_cell (k : nat) (nbrs : list Z) (j : nat) :
  NoDup (map (fun entry : nat * Z => (k, fst entry))
             (filter interior (enumerate_from j nbrs))) /\
  forall x, In x (map (fun entry : nat * Z => (k, fst entry))
                      (filter interior (enumerate_from j nbrs))) ->
            (j <= snd x)%nat.
Proof.
  revert j. induction nbrs as [| n nbrs IH]; intros j; cbn [enumerate_from filter].
  - split; [constructor | intros x []].
  - destruct (IH (S j)) as [Hnd Hge].
    destruct (interior (j, n)); cbn [map fst].
    + split.
      * constructor; [| exact Hnd].
        intros Hin. apply Hge in Hin. cbn [snd] in Hin. lia.
      * intros x [<- | Hx]; [cbn; lia | apply Hge in Hx; lia].
    + split; [exact Hnd |]. intros x Hx. apply Hge in Hx. lia.
Qed.

Lemma NoDup_directed_edges_from (k : nat) (cells : list Cell) :
  NoDup (directed_edges_from k cells).
Proof.
  revert k. induction cells as [| c cells IH]; intros k; cbn [directed_edges_from].
  - constructor.
  - apply NoDup_app.
    + apply NoDup_edges_of_cell.
    + apply IH.
    + intros [i e] Hin Hin'.
      apply in_map_iff in Hin. destruct Hin as [[e0 ngh] [Heq _]].
      injection Heq as <- _.
      apply in_directed_edges_from in Hin'. lia.
Qed.

(** ** Paired edges *)

Lemma index_of_found (z : Z) (l : list Z) (e : nat) :
  nth_error l e = Some z -> nth_error l (index_of z l) = Some z.
Proof.
  revert e. induction l as [| y l IH]; intros e He.
  - destruct e; discriminate He.
  - cbn [index_of]. destruct (Z.eqb z y) eqn:E.
    + apply Z.eqb_eq in E. subst y. reflexivity.
    + destruct e as [| e]; cbn in He.
      * injection He as ->. rewrite Z.eqb_refl in E. discriminate E.
      * cbn. apply (IH e He).
Qed.

(** Across a paired edge, [twin] finds the edge of the neighbour. *)
Lemma twin_paired (cells : list Cell) (i e j : nat) :
  paired_edges cells ->
  neighbor_at cells i e = Some (Z.of_nat j) ->
  exists e',
    twin cells (i, e) = (j, e') /\
    neighbor_at cells j e' = Some (Z.of_nat i) /\
    vec3_eq (normal_at cells j e') (vec3_opp (normal_at cells i e)).
Proof.
  intros Hpaired Hn.
  destruct (Hpaired i e j Hn) as (e' & Hback & Hnormal & Huniq).
  exists e'. split; [| split; assumption].
  unfold twin. cbn [fst snd]. rewrite Hn, Nat2Z.id.
  unfold neighbor_at in Hback.
  destruct (nth_error cells j) as [cj |] eqn:Hcj; [| discriminate Hback].
  f_equal. apply Huniq. unfold neighbor_at. rewrite Hcj.
  apply (index_of_found _ _ e' Hback).
Qed.

Lemma directed_edge_neighbor (cells : list Cell) (i e : nat) :
  In (i, e) (directed_edges_from 0 cells) <->
  exists j, neighbor_at cells i e = Some (Z.of_nat j).
Proof.
  rewrite in_directed_edges_from, Nat.sub_0_r. split.
  - intros [_ [ngh [Hn Hpos]]]. exists (Z.to_nat ngh). rewrite Z2Nat.id; assumption.
  - intros [j Hj]. split; [lia |]. exists (Z.of_nat j). split; [exact Hj | lia].
Qed.

Lemma twin_in (cells : list Cell) (x : nat * nat) :
  paired_edges cells ->
  In x (directed_edges_from 0 cells) -> In (twin cells x) (directed_edges_from 0 cells).
Proof.
  intros Hpaired Hx. destruct x as [i e].
  apply directed_edge_neighbor in Hx. destruct Hx as [j Hj].
  destruct (twin_paired cells i e j Hpaired Hj) as (e' & -> & Hback & _).
  apply directed_edge_neighbor. exists i. exact Hback.
Qed.

Lemma twin_twin (cells : list Cell) (x : nat * nat) :
  paired_edges cells ->
  In x (directed_edges_from 0 cells) -> twin cells (twin cells x) = x.
Proof.
  intros Hpaired Hx. destruct x as [i e].
  apply directed_edge_neighbor in Hx. destruct Hx as [j Hj].
  destruct (twin_paired cells i e j Hpaired Hj) as (e' & -> & Hback & _).
  destruct (twin_paired cells j e' i Hpaired Hback) as (e0 & -> & Hforth & _).
  destruct (Hpaired j e' i Hback) as (e1 & _ & _ & Huniq).
  rewrite (Huniq e Hj), (Huniq e0 Hforth). reflexivity.
Qed.

Lemma upwind_opp (a b angle angle' : Q) :
  angle' == - angle -> upwind b a angle' == - upwind a b angle.
Proof.
  intros H. unfold upwind.
  destruct (Qlt_le_dec 0 angle') as [H' | H'], (Qlt_le_dec 0 angle) as [H0 | H0];
    rewrite H in *; try ring; try lra.
  assert (angle == 0) by lra. rewrite H1. ring.
Qed.

Lemma dot3_opp (n n' v v' : vec3) :
  vec3_eq n' (vec3_opp n) -> vec3_eq v' v -> dot3 n' v' == - dot3 n v.
Proof.
  intros (Hx & Hy & Hz) (Hvx & Hvy & Hvz). unfold dot3.
  cbn [vec3_opp vx vy vz] in Hx, Hy, Hz.
  rewrite Hx, Hy, Hz, Hvx, Hvy, Hvz. ring.
Qed.

(** What leaves a cell through a paired edge enters its neighbour. *)
Lemma edge_flux_twin (cells : list Cell) (u : list Q) (x : nat * nat) :
  paired_edges cells ->
  In x (directed_edges_from 0 cells) ->
  edge_flux cells u (twin cells x) == - edge_flux cells u x.
Proof.
  intros Hpaired Hx. destruct x as [i e].
  apply directed_edge_neighbor in Hx. destruct Hx as [j Hj].
  destruct (twin_paired cells i e j Hpaired Hj) as (e' & -> & Hback & Hnormal).
  unfold edge_flux. cbn [fst snd]. rewrite Hj, Hback, !Nat2Z.id.
  pose proof Hj as Hi. pose proof Hback as Hjj. unfold neighbor_at in Hi, Hjj.
  destruct (nth_error cells i) as [ci |] eqn:Hci; [| discriminate Hi].
  destruct (nth_error cells j) as [cj |] eqn:Hcj; [| discriminate Hjj].
  unfold flux. apply upwind_opp. apply dot3_opp; [exact Hnormal |].
  unfold velocity_at. rewrite Hci, Hcj. unfold vec3_eq. cbn. repeat split; ring.
Qed.

(** The fluxes through all paired edges cancel. *)
Lemma paired_fluxes_cancel (cells : list Cell) (u : list Q) :
  paired_edges cells ->
  qsum (map (edge_flux cells u) (directed_edges_from 0 cells)) == 0.
Proof.
  intros Hpaired.
  apply (involution_sum_zero (twin cells)).
  - apply NoDup_directed_edges_from.
  - intros x Hx. apply twin_in; assumption.
  - intros x Hx. apply twin_twin; assumption.
  - intros x Hx. apply edge_flux_twin; assumption.
Qed.

(** ** The amount of oil over one step *)

Lemma amount_step_triangle (dt : Q) (cells : list Cell) (u : list Q) (i : nat)
  (b : CellBase) (u0 area : Q) (normals : list vec3) :
  nth_error cells i = Some (Triangle b u0 area normals) ->
  ~ area == 0 ->
  area * step_value dt cells u i b area normals
  == area * nth i u 0
     - dt * qsum (map (edge_flux cells u) (edges_of i (Triangle b u0 area normals))).
Proof.
  intros Hc Harea. unfold step_value, edges_of. cbn [cell_base].
  rewrite map_map.
  rewrite (qsum_map_ext
             (edge_term dt cells u i b area normals)
             (fun entry => (dt / area) * edge_flux cells u (i, fst entry))).
  - rewrite qsum_map_scale. field. exact Harea.
  - intros [e ngh] Hin. apply filter_In in Hin. destruct Hin as [Hin _].
    apply enumerate_in in Hin.
    unfold edge_term, edge_flux, neighbor_at, normal_at. cbn [fst snd].
    rewrite Hc. cbn [cell_base]. rewrite Hin. reflexivity.
Qed.

Lemma totals_from_cells (F : nat * nat -> Q) (dt : Q) (l l' : list Cell) (k : nat) :
  List.length l' = List.length l ->
  (forall i c, nth_error l i = Some c ->
     exists c', nth_error l' i = Some c' /\
                oil_amount c' == oil_amount c - dt * qsum (map F (edges_of (k + i) c))) ->
  total_amount l' == total_amount l - dt * qsum (map F (directed_edges_from k l)).
Proof.
  revert l' k. induction l as [| c l IH]; intros l' k Hlen Hcells.
  - destruct l'; [| discriminate Hlen]. unfold total_amount, qsum. simpl. ring.
  - destruct l' as [| c' l']; [discriminate Hlen |].
    destruct (Hcells 0%nat c eq_refl) as [c0 [Hc0 Hamount]].
    cbn in Hc0. injection Hc0 as <-. rewrite Nat.add_0_r in Hamount.
    unfold total_amount in *. cbn [map directed_edges_from].
    rewrite !qsum_cons, map_app, qsum_app.
    rewrite (IH l' (S k)).
    + fold (edges_of k c). rewrite Hamount. ring.
    + simpl in Hlen. lia.
    + intros i x Hx. destruct (Hcells (S i) x Hx) as [x' [Hx' Hrel]].
      exists x'. split; [exact Hx' |].
      replace (S k + i)%nat with (k + S i)%nat by lia. exact Hrel.
Qed.

Lemma line_has_no_edges (n i : nat) (b : CellBase) (u : Q) :
  cell_ok n (Line b u) -> edges_of i (Line b u) = [].
Proof.
  unfold edges_of, enumerate. cbn [cell_ok cell_base]. generalize 0%nat.
  induction (neighbors b) as [| ngh nbrs IH]; intros k Hall.
  - reflexivity.
  - inversion Hall as [| x l Hneg Hrest]; subst.
    cbn [enumerate_from filter]. unfold interior at 1. cbn [snd].
    replace (0 <=? ngh)%Z with false by (symmetry; apply Z.leb_gt; exact Hneg).
    apply IH, Hrest.
Qed.

(** C6, as the code has it: when every edge with a neighbour is shared by two
    cells that name each other across it with opposite normals, and no
    triangle has area 0, one call of [calculate] keeps the amount of oil, the
    sum over the triangles of area times value.  Edges without a neighbour
    carry nothing, so the mesh may have a boundary. *)
Theorem calculate_conserves_amount (s : Solver) :
  mesh_ok (_cells (_mesh s)) ->
  paired_edges (_cells (_mesh s)) ->
  positive_areas (_cells (_mesh s)) ->
  exists s',
    calculate s = Ok s' /\
    total_amount (_cells (_mesh s')) == total_amount (_cells (_mesh s)).
Proof.
  intros Hok Hpaired Hareas.
  destruct (calculate_returns s Hok) as (s' & Hs' & _ & _ & _ & _ & Hlen & Hcells).
  exists s'. split; [exact Hs' |].
  set (cells := _cells (_mesh s)) in *.
  set (u := map oil_value cells) in *.
  rewrite (totals_from_cells (edge_flux cells u) (dt s) cells (_cells (_mesh s')) 0 Hlen).
  - rewrite (paired_fluxes_cancel cells u Hpaired). ring.
  - intros i c Hc. cbn [Nat.add]. specialize (Hcells i c Hc).
    destruct c as [b u0 area normals | b u0].
    + destruct Hcells as [u' [Hnth Hu']].
      exists (Triangle b u' area normals). split; [exact Hnth |].
      cbn [oil_amount]. rewrite Hu'.
      rewrite (amount_step_triangle (dt s) cells u i b u0 area normals Hc
                 (Hareas i b u0 area normals Hc)).
      unfold u. rewrite (nth_indep _ 0 (oil_value (Triangle b u0 area normals))).
      * rewrite map_nth, (nth_error_nth _ _ _ Hc). reflexivity.
      * rewrite length_map. apply nth_error_Some. rewrite Hc. discriminate.
    + destruct Hcells as [u' [Hnth _]].
      exists (Line b u'). split; [exact Hnth |].
      rewrite (line_has_no_edges (List.length cells) i b u0).
      * cbn [oil_amount map]. rewrite qsum_nil. ring.
      * unfold mesh_ok in Hok. rewrite Forall_forall in Hok.
        apply Hok, (nth_error_In _ _ Hc).
Qed.

Lemma sample_mesh_open_ok : mesh_ok (_cells (_mesh sample_solver_open)).
Proof. solve_mesh_ok. Qed.

Lemma sample_mesh_open_areas : positive_areas (_cells (_mesh sample_solver_open)).
Proof.
  intros i b u area normals H.
  destruct i as [| [| i]]; cbn in H.
  - injection H as _ _ <- _. discriminate.
  - injection H as _ _ <- _. discriminate.
  - destruct i; discriminate H.
Qed.

Lemma sample_mesh_open_paired : paired_edges (_cells (_mesh sample_solver_open)).
Proof.
  intros i e j H.
  destruct i as [| [| i]]; [| | destruct i; discriminate H];
    (destruct e as [| [| [| e]]]; [| | | destruct e; discriminate H]);
    cbn in H; injection H as H; try lia.
  - assert (j = 1%nat) by lia. subst j. exists 0%nat.
    split; [reflexivity |]. split.
    + unfold vec3_eq. cbn. repeat split; reflexivity.
    + intros e'' H''.
      destruct e'' as [| [| [| e'']]]; [reflexivity | | | destruct e''; discriminate H''];
        cbn in H''; injection H'' as H''; lia.
  - assert (j = 0%nat) by lia. subst j. exists 2%nat.
    split; [reflexivity |]. split.
    + unfold vec3_eq. cbn. repeat split; reflexivity.
    + intros e'' H''.
      destruct e'' as [| [| [| e'']]]; [| | reflexivity | destruct e''; discriminate H''];
        cbn in H''; injection H'' as H''; lia.
Qed.

Lemma calculate_conserves_amount_witness :
  exists s',
    calculate sample_solver_open = Ok s' /\
    total_amount (_cells (_mesh s')) == 12.
Proof.
  destruct (calculate_conserves_amount sample_solver_open
              sample_mesh_open_ok sample_mesh_open_paired sample_mesh_open_areas)
    as (s' & Hs' & Htotal).
  exists s'. split; [exact Hs' |]. rewrite Htotal. reflexivity.
Defined.

(** C6 as stated fails: in the sample mesh every edge of the two triangles
    has a neighbour (a boundary line, or the other triangle), and one step
    changes the sum of the values of all cells. *)
Lemma closed_mesh_changes_total :
  no_boundary_edge (_cells (_mesh sample_solver)) = true /\
  match calculate sample_solver with
  | Ok s' => ~ total_value (_cells (_mesh s')) == total_value (_cells (_mesh sample_solver))
  | Raise _ => False
  end.
Proof.
  split.
  - reflexivity.
  - vm_compute. discriminate.
Qed.

(** ** The restart files: what [save_state] writes *)

Lemma append_cancel_l (a b c : string) : (a ++ b = a ++ c)%string -> b = c.
Proof.
  induction a as [| ch a IH]; simpl; intros H.
  - exact H.
  - injection H as H. apply IH, H.
Qed.

(** The two files of one restart folder have different paths. *)
Lemma restart_paths_differ (folder : string) :
  path_join folder "oil_values.txt" <> path_join folder "simulation_data.txt".
Proof.
  unfold path_join. simpl.
  destruct (rev (list_ascii_of_string folder)) as [| d rest].
  - discriminate.
  - destruct (Ascii.eqb d "/"); intros H; apply append_cancel_l in H; discriminate H.
Qed.

Lemma write_file_same (fs : files) (path : string) (t : text) :
  write_file fs path t path = Some t.
Proof. unfold write_file. rewrite String.eqb_refl. reflexivity. Qed.

Lemma write_file_other (fs : files) (path other : string) (t : text) :
  other <> path -> write_file fs path t other = fs other.
Proof.
  intros Hne. unfold write_file.
  destruct (String.eqb other path) eqn:E; [| reflexivity].
  apply String.eqb_eq in E. contradiction.
Qed.

(** The oil file is written first and not touched again. *)
Lemma save_state_oil_file (fs : files) (s : Solver) (config_name output_folder : string) :
  fst (save_state fs s config_name output_folder)
      (path_join (path_join output_folder (splitext_root config_name)) "oil_values.txt")
  = Some (oil_values_text (_cells (_mesh s))).
Proof.
  unfold save_state.
  set (folder := path_join output_folder (splitext_root config_name)).
  pose proof (restart_paths_differ folder) as Hne.
  destruct (simulation_data_text s); simpl;
    repeat rewrite (write_file_other _ _ _ _ Hne); apply write_file_same.
Qed.

Lemma readlines_oil_values_text (cells : list Cell) :
  readlines (oil_values_text cells)
  = map (fun cell => [Fl (oil_value cell); Ch newline]) cells.
Proof.
  unfold readlines. induction cells as [| c cells IH]; simpl.
  - reflexivity.
  - f_equal. exact IH.
Qed.

Lemma py_float_oil_line (v : Q) : py_float (strip [Fl v; Ch newline]) = Ok v.
Proof. reflexivity. Qed.

Lemma parse_oil_lines (cells : list Cell) :
  mapM (fun line => py_float (strip line))
       (map (fun cell => [Fl (oil_value cell); Ch newline]) cells)
  = Ok (map oil_value cells).
Proof.
  induction cells as [| c cells IH].
  - reflexivity.
  - cbn [mapM map]. rewrite py_float_oil_line. cbn [bind].
    rewrite IH. reflexivity.
Qed.

(** C8, as the code has it: [save_state] writes [oil_values.txt] with one
    value per line, in cell-creation order, one line for every cell of the
    mesh, triangle or line. *)
Theorem save_state_one_line_per_cell
  (fs : files) (s : Solver) (config_name output_folder : string) :
  exists t,
    fst (save_state fs s config_name output_folder)
        (path_join (path_join output_folder (splitext_root config_name)) "oil_values.txt")
    = Some t /\
    readlines t = map (fun cell => [Fl (oil_value cell); Ch newline]) (_cells (_mesh s)) /\
    mapM (fun line => py_float (strip line)) (readlines t)
    = Ok (map oil_value (_cells (_mesh s))).
Proof.
  exists (oil_values_text (_cells (_mesh s))).
  split; [apply save_state_oil_file |].
  rewrite readlines_oil_values_text.
  split; [reflexivity | apply parse_oil_lines].
Qed.

(** C8 as stated fails: the sample mesh has two triangles and four lines,
    and its oil file has six lines. *)
Lemma save_state_writes_line_cells :
  List.length (filter is_triangle (_cells (_mesh sample_solver))) = 2%nat /\
  option_map (fun t => List.length (readlines t))
    (fst (save_state no_files sample_solver "input.toml" "result_folder")
         "result_folder/input/oil_values.txt"%string) = Some 6%nat.
Proof. split; vm_compute; reflexivity. Qed.

(** ** The restart files: what [load_state] reads *)

Lemma assign_values_nth (cells : list Cell) (values : list Q) (i : nat) (c : Cell) :
  nth_error cells i = Some c ->
  nth_error (assign_values cells values) i
  = Some (match nth_error values i with
          | Some v => set_oil_value c v
          | None => c
          end).
Proof.
  revert values i. induction cells as [| c0 cells IH]; intros values i Hc.
  - destruct i; discriminate Hc.
  - destruct values as [| v values].
    + simpl. rewrite Hc. destruct i; reflexivity.
    + destruct i as [| i]; simpl in *.
      * injection Hc as ->. reflexivity.
      * apply IH, Hc.
Qed.

Lemma assign_values_length (cells : list Cell) (values : list Q) :
  List.length (assign_values cells values) = List.length cells.
Proof.
  revert values. induction cells as [| c cells IH]; intros [| v values]; simpl;
    try reflexivity.
  f_equal. apply IH.
Qed.

(** [load_state] when both files are there and every line can be read. *)
Lemma load_state_ok (fs : files) (s s' : Solver) (folder : string)
  (f_oil f_data : text) (values : list Q) :
  fs (path_join folder "oil_values.txt") = Some f_oil ->
  fs (path_join folder "simulation_data.txt") = Some f_data ->
  mapM (fun line => py_float (strip line)) (readlines f_oil) = Ok values ->
  foldM read_data_line (readlines f_data)
        (with_mesh s (mkMesh (mesh_points (_mesh s))
                             (assign_values (_cells (_mesh s)) values))) = Ok s' ->
  Qeq_bool (dt s') 0 = false ->
  load_state fs s folder
  = Ok (with_nt s' (int_of_float ((_tEnd s' - _tStart s') / dt s'))).
Proof.
  intros Hoil Hdata Hvalues Hlines Hdt.
  unfold load_state, exists_file, read_file. rewrite Hoil, Hdata. simpl.
  rewrite Hvalues. simpl. rewrite Hlines. simpl.
  unfold float_div. rewrite Hdt. reflexivity.
Qed.

Lemma load_state_missing (fs : files) (s : Solver) (folder : string) :
  fs (path_join folder "oil_values.txt") = None \/
  fs (path_join folder "simulation_data.txt") = None ->
  load_state fs s folder = Raise FileNotFoundError.
Proof.
  intros H. unfold load_state, exists_file.
  destruct H as [H | H]; rewrite H; simpl.
  - reflexivity.
  - destruct (fs (path_join folder "oil_values.txt")); reflexivity.
Qed.

(** Reading the data file changes the start time only. *)
Lemma read_data_line_keeps (s s' : Solver) (line : text) :
  read_data_line s line = Ok s' ->
  _mesh s' = _mesh s /\ dt s' = dt s /\ _tEnd s' = _tEnd s /\ _nt s' = _nt s.
Proof.
  unfold read_data_line.
  destruct (unpack2 (split_colon (strip line))) as [[key value] | e]; simpl;
    [| discriminate].
  destruct (text_eqb key (lit "current_time")).
  - destruct (py_float value); simpl; [| discriminate].
    intros H. injection H as <-. repeat split.
  - destruct (text_eqb key (lit "remaining_steps")).
    + destruct (py_int value); simpl; [| discriminate].
      intros H. injection H as <-. repeat split.
    + intros H. injection H as <-. repeat split.
Qed.

Lemma read_data_lines_keep (lines : list text) (s s' : Solver) :
  foldM read_data_line lines s = Ok s' ->
  _mesh s' = _mesh s /\ dt s' = dt s /\ _tEnd s' = _tEnd s /\ _nt s' = _nt s.
Proof.
  revert s. induction lines as [| line lines IH]; intros s; simpl.
  - intros H. injection H as <-. repeat split.
  - destruct (read_data_line s line) as [s1 |] eqn:E; simpl; [| discriminate].
    intros H. apply IH in H. apply read_data_line_keeps in E.
    destruct H as (H1 & H2 & H3 & H4), E as (E1 & E2 & E3 & E4).
    repeat split; congruence.
Qed.

(** C5, as the code has it: [load_state] raises when one of the two restart
    files is absent, and then [Solver.__init__] raises too, so no solver
    exists to step; a saved value count that differs from the cell count
    raises nothing: the values that are there overwrite the first cells, in
    order, and the other cells keep theirs. *)
Theorem load_state_failures :
  (forall (fs : files) (s : Solver) (folder : string),
      fs (path_join folder "oil_values.txt") = None \/
      fs (path_join folder "simulation_data.txt") = None ->
      load_state fs s folder = Raise FileNotFoundError) /\
  (forall np_exp np_sqrt meshio_read (fs : files) (config : Config) (folder : string),
      cfg_restartFile config = Some folder -> folder <> ""%string ->
      fs (path_join folder "oil_values.txt") = None \/
      fs (path_join folder "simulation_data.txt") = None ->
      is_raise (Solver_init np_exp np_sqrt meshio_read fs config)) /\
  (forall (fs : files) (s s' : Solver) (folder : string)
          (f_oil f_data : text) (values : list Q),
      fs (path_join folder "oil_values.txt") = Some f_oil ->
      fs (path_join folder "simulation_data.txt") = Some f_data ->
      mapM (fun line => py_float (strip line)) (readlines f_oil) = Ok values ->
      foldM read_data_line (readlines f_data)
            (with_mesh s (mkMesh (mesh_points (_mesh s))
                                 (assign_values (_cells (_mesh s)) values))) = Ok s' ->
      Qeq_bool (dt s') 0 = false ->
      exists s'',
        load_state fs s folder = Ok s'' /\
        _cells (_mesh s'') = assign_values (_cells (_mesh s)) values /\
        forall i c, nth_error (_cells (_mesh s)) i = Some c ->
                    nth_error (_cells (_mesh s'')) i
                    = Some (match nth_error values i with
                            | Some v => set_oil_value c v
                            | None => c
                            end)).
Proof.
  split; [| split].
  - exact load_state_missing.
  - intros np_exp np_sqrt meshio_read fs config folder Hrestart Hne Hmissing.
    unfold Solver_init, is_raise.
    destruct (meshio_read (cfg_meshName config)) as [data | e]; [| now exists e].
    simpl. destruct (Mesh_init np_exp np_sqrt data) as [m | e]; [| now exists e].
    simpl. destruct (find_neighbors m) as [m' | e]; [| now exists e].
    simpl. destruct (float_div _ _) as [d | e]; [| now exists e].
    simpl. rewrite Hrestart.
    destruct (String.eqb folder "") eqn:E.
    + apply String.eqb_eq in E. contradiction.
    + rewrite (load_state_missing _ _ _ Hmissing). now exists FileNotFoundError.
  - intros fs s s' folder f_oil f_data values Hoil Hdata Hvalues Hlines Hdt.
    pose proof (read_data_lines_keep _ _ _ Hlines) as (Hmesh & _).
    eexists. split; [| split].
    + apply (load_state_ok fs s s' folder f_oil f_data values); assumption.
    + simpl. rewrite Hmesh. reflexivity.
    + intros i c Hc. simpl. rewrite Hmesh. simpl. apply assign_values_nth, Hc.
Qed.

Lemma load_state_failures_witness :
  load_state no_files sample_solver "restart" = Raise FileNotFoundError /\
  is_raise (Solver_init exp_one sqrt_exact sample_meshio_open no_files
              (mkConfig "bay.msh" 0 1 10 ((0, 0.45), (0, 0.2)) (Some "restart"%string))) /\
  exists s'',
    load_state short_restart sample_solver_open "restart" = Ok s'' /\
    List.length (_cells (_mesh s'')) = 2%nat.
Proof.
  destruct load_state_failures as (Hmissing & Hinit & Hok).
  split; [| split].
  - apply Hmissing. left. reflexivity.
  - apply (Hinit _ _ _ _ _ "restart"%string); [reflexivity | discriminate |].
    left. reflexivity.
  - destruct (Hok short_restart sample_solver_open
                  (with_tStart
                     (with_mesh sample_solver_open
                        (mkMesh (mesh_points (_mesh sample_solver_open))
                           (assign_values (_cells (_mesh sample_solver_open)) [0.5])))
                     0.5)
                  "restart"%string
                  [Fl 0.5; Ch newline]
                  (lit "current_time: " ++ [Fl 0.5; Ch newline]
                   ++ lit "remaining_steps: 5" ++ [Ch newline])
                  [0.5])
      as [s'' (Hload & Hcells & _)]; try reflexivity.
    exists s''. split; [exact Hload |]. rewrite Hcells. reflexivity.
Defined.

(** C5 as stated fails: the sample mesh without lines has two triangles, the
    oil file of [short_restart] holds one value, and [load_state] returns:
    the first triangle has the saved value and the second its own. *)
Lemma load_state_short_file_loads :
  List.length (filter is_triangle (_cells (_mesh sample_solver_open))) = 2%nat /\
  option_map (fun t => List.length (readlines t))
             (short_restart "restart/oil_values.txt"%string) = Some 1%nat /\
  match load_state short_restart sample_solver_open "restart" with
  | Ok s => map oil_value (_cells (_mesh s)) = [0.5; 1] /\ _nt s = 5%Z
  | Raise _ => False
  end.
Proof. repeat split; vm_compute; reflexivity. Qed.

(** What a [load_state] that returns has done to the cells. *)
Lemma load_state_cells (fs : files) (s s'' : Solver) (folder : string) :
  load_state fs s folder = Ok s'' ->
  exists f_oil values,
    fs (path_join folder "oil_values.txt") = Some f_oil /\
    mapM (fun line => py_float (strip line)) (readlines f_oil) = Ok values /\
    _cells (_mesh s'') = assign_values (_cells (_mesh s)) values.
Proof.
  unfold load_state, exists_file, read_file.
  destruct (fs (path_join folder "oil_values.txt")) as [f_oil |]; [| discriminate].
  destruct (fs (path_join folder "simulation_data.txt")) as [f_data |]; [| discriminate].
  simpl.
  destruct (mapM _ (readlines f_oil)) as [values |] eqn:Hvalues; simpl; [| discriminate].
  destruct (foldM read_data_line (readlines f_data) _) as [s' |] eqn:Hlines; simpl;
    [| discriminate].
  destruct (float_div _ _) as [steps |]; simpl; [| discriminate].
  intros H. injection H as <-.
  apply read_data_lines_keep in Hlines. destruct Hlines as (Hmesh & _).
  exists f_oil, values. split; [reflexivity |]. split; [exact Hvalues |].
  simpl. rewrite Hmesh. reflexivity.
Qed.

(** ** The value of a line *)

(** C9, as the code has it: a line is constructed with the value 0; a time
    step leaves the value of a line what it was; [load_state] gives a line,
    like any other cell, the value the oil file holds at the position of the
    cell, and leaves it alone only when the file is too short to reach it. *)
Theorem line_value_lifetime :
  (forall (point_ids : list nat) (idx : nat) (points : list (list Q)) (c : Cell),
      Line_init point_ids idx points = Ok c -> exists b, c = Line b 0) /\
  (forall (dt : Q) (cells cells' : list Cell) (i : nat) (b : CellBase) (u : Q),
      calculate_cells dt cells = Ok cells' ->
      nth_error cells i = Some (Line b u) ->
      exists u', nth_error cells' i = Some (Line b u') /\ u' == u) /\
  (forall (fs : files) (s s'' : Solver) (folder : string) (i : nat)
          (b : CellBase) (u : Q),
      load_state fs s folder = Ok s'' ->
      nth_error (_cells (_mesh s)) i = Some (Line b u) ->
      exists f_oil values,
        fs (path_join folder "oil_values.txt") = Some f_oil /\
        mapM (fun line => py_float (strip line)) (readlines f_oil) = Ok values /\
        nth_error (_cells (_mesh s'')) i
        = Some (Line b (match nth_error values i with
                        | Some v => v
                        | None => u
                        end))).
Proof.
  split; [| split].
  - intros point_ids idx points c. unfold Line_init.
    destruct (Cell_init point_ids idx points) as [b |]; simpl; [| discriminate].
    intros H. injection H as <-. exists b. reflexivity.
  - intros dt cells cells' i b u Hstep Hc.
    destruct (calculate_cells_nth dt cells cells' i _ Hstep Hc) as [v [Hv Hnth]].
    exists v. split; [exact Hnth |].
    apply (new_value_line dt cells i b u v Hc Hv).
  - intros fs s s'' folder i b u Hload Hc.
    destruct (load_state_cells fs s s'' folder Hload) as (f_oil & values & Hf & Hv & Hcells).
    exists f_oil, values. split; [exact Hf |]. split; [exact Hv |].
    rewrite Hcells, (assign_values_nth _ values i _ Hc).
    destruct (nth_error values i); reflexivity.
Qed.

Lemma line_value_lifetime_witness :
  (exists b, Line_init [0; 1]%nat 0 [[0; 0; 0]; [4; 0; 0]] = Ok (Line b 0)) /\
  (exists cells' b u',
      calculate_cells 0.1 (_cells (_mesh sample_solver)) = Ok cells' /\
      nth_error cells' 0 = Some (Line b u') /\ u' == 0) /\
  (exists s'' b,
      load_state short_restart sample_solver "restart" = Ok s'' /\
      nth_error (_cells (_mesh s'')) 0 = Some (Line b 0.5)).
Proof.
  destruct line_value_lifetime as (Hinit & Hstep & Hload).
  split; [| split].
  - destruct (Hinit [0; 1]%nat 0%nat [[0; 0; 0]; [4; 0; 0]] _ eq_refl) as [b Hb].
    exists b. rewrite <- Hb. reflexivity.
  - destruct (calculate_cells 0.1 (_cells (_mesh sample_solver))) as [cells' |] eqn:E;
      [| vm_compute in E; discriminate E].
    destruct (nth_error (_cells (_mesh sample_solver)) 0) as [[b0 u0 a0 n0 | b0 u0] |] eqn:E0;
      try (vm_compute in E0; discriminate E0).
    destruct (Hstep 0.1 _ cells' 0%nat b0 u0 E E0) as [u' [Hnth Hu]].
    exists cells', b0, u'. split; [reflexivity |]. split; [exact Hnth |].
    vm_compute in E0. injection E0 as _ <-. exact Hu.
  - destruct (load_state short_restart sample_solver "restart") as [s'' |] eqn:E;
      [| vm_compute in E; discriminate E].
    destruct (nth_error (_cells (_mesh sample_solver)) 0) as [[b0 u0 a0 n0 | b0 u0] |] eqn:E0;
      try (vm_compute in E0; discriminate E0).
    destruct (Hload short_restart sample_solver s'' "restart"%string 0%nat b0 u0 E E0)
      as (f_oil & values & Hf & Hv & Hnth).
    exists s'', b0. split; [reflexivity |].
    vm_compute in Hf. injection Hf as <-.
    vm_compute in Hv. injection Hv as <-.
    exact Hnth.
Defined.

(** C9 as stated fails: the first cell of the sample mesh is a line; after
    [load_state] on [short_restart], whose oil file starts with 0.5, the
    value of that line is 0.5. *)
Lemma load_state_overwrites_line :
  (exists b, nth_error (_cells (_mesh sample_solver)) 0 = Some (Line b 0)) /\
  match load_state short_restart sample_solver "restart" with
  | Ok s => exists b, nth_error (_cells (_mesh s)) 0 = Some (Line b 0.5)
            /\ ~ 0.5 == 0
  | Raise _ => False
  end.
Proof.
  split.
  - eexists. vm_compute. reflexivity.
  - vm_compute. eexists. split; [reflexivity | discriminate].
Qed.

(** ** Saving and loading again *)

Lemma oil_value_set (c : Cell) (v : Q) : oil_value (set_oil_value c v) = v.
Proof. destruct c; reflexivity. Qed.

Lemma oil_value_assign_values (cells : list Cell) (values : list Q) :
  List.length values = List.length cells ->
  map oil_value (assign_values cells values) = values.
Proof.
  revert values. induction cells as [| c cells IH]; intros [| v values] Hlen;
    try discriminate Hlen.
  - reflexivity.
  - cbn [assign_values map]. rewrite oil_value_set. f_equal. apply IH.
    simpl in Hlen. lia.
Qed.

(** Whenever a solver on a mesh of as many cells loads a folder that
    [save_state] wrote, it has the saved value in every cell. *)
Lemma saved_values_load (fs : files) (s s0 s'' : Solver)
  (config_name output_folder : string) :
  load_state (fst (save_state fs s config_name output_folder)) s0
             (path_join output_folder (splitext_root config_name)) = Ok s'' ->
  List.length (_cells (_mesh s0)) = List.length (_cells (_mesh s)) ->
  map oil_value (_cells (_mesh s'')) = map oil_value (_cells (_mesh s)).
Proof.
  intros Hload Hlen.
  destruct (load_state_cells _ _ _ _ Hload) as (f_oil & values & Hf & Hv & Hcells).
  rewrite save_state_oil_file in Hf. injection Hf as <-.
  rewrite readlines_oil_values_text, parse_oil_lines in Hv. injection Hv as <-.
  rewrite Hcells. apply oil_value_assign_values.
  rewrite length_map. symmetry. exact Hlen.
Qed.

(** C7 fails on the code: a solver resumed at time 0.5 with five steps left
    saves its state; the data file it writes has no [current_time] line for
    [load_state] to find, so a fresh solver of the same configuration that
    loads the saved folder has the same oil values but starts again at time
    0 with ten steps. *)
Theorem restart_round_trip_loses_time (np_exp : Q -> Q) :
  Solver_init np_exp sqrt_exact sample_meshio_open halfway_restart
              (resume_config "restart") = Ok resumed_solver /\
  _tStart resumed_solver == 0.5 /\ _nt resumed_solver = 5%Z /\
  snd (save_state halfway_restart resumed_solver "input.toml" "result_folder") = Ok tt /\
  match Solver_init np_exp sqrt_exact sample_meshio_open saved_files
                    (resume_config "result_folder/input") with
  | Ok s =>
      map oil_value (_cells (_mesh s)) = map oil_value (_cells (_mesh resumed_solver)) /\
      _tStart s == 0 /\ _nt s = 10%Z
  | Raise _ => False
  end.
Proof.
  split; [vm_compute; reflexivity |].
  split; [reflexivity |].
  split; [reflexivity |].
  split; [vm_compute; reflexivity |].
  vm_compute. repeat split; reflexivity.
Qed.

(** ** The shape of the mesh is kept *)

Lemma set_oil_value_ok (n : nat) (c : Cell) (v : Q) :
  cell_ok n c -> cell_ok n (set_oil_value c v).
Proof. destruct c; exact (fun H => H). Qed.

Lemma assign_values_ok (n : nat) (cells : list Cell) (values : list Q) :
  Forall (cell_ok n) cells -> Forall (cell_ok n) (assign_values cells values).
Proof.
  intros Hall. revert values.
  induction Hall as [| c cells Hc _ IH]; intros values.
  - destruct values; constructor.
  - destruct values as [| v values]; cbn [assign_values].
    + constructor; [exact Hc |]. specialize (IH []). destruct cells; exact IH.
    + constructor; [apply set_oil_value_ok, Hc | apply IH].
Qed.

(** [load_state] keeps the shape of the mesh. *)
Lemma load_state_mesh_ok (fs : files) (s s' : Solver) (folder : string) :
  load_state fs s folder = Ok s' ->
  mesh_ok (_cells (_mesh s)) -> mesh_ok (_cells (_mesh s')).
Proof.
  intros Hload Hok.
  destruct (load_state_cells fs s s' folder Hload) as (f_oil & values & _ & _ & Hcells).
  unfold mesh_ok. rewrite Hcells, assign_values_length. apply assign_values_ok, Hok.
Qed.

(** [calculate] keeps the shape of the mesh. *)
Lemma calculate_mesh_ok (s s' : Solver) :
  calculate s = Ok s' ->
  mesh_ok (_cells (_mesh s)) -> mesh_ok (_cells (_mesh s')).
Proof.
  intros Hstep Hok.
  destruct (calculate_returns s Hok) as (s1 & Hs1 & _ & _ & _ & _ & Hlen & Hcells).
  rewrite Hstep in Hs1. injection Hs1 as <-.
  unfold mesh_ok. rewrite Hlen. apply Forall_forall. intros c' Hin.
  apply In_nth_error in Hin. destruct Hin as [i Hi].
  assert (Hlt : (i < List.length (_cells (_mesh s)))%nat).
  { rewrite <- Hlen. apply nth_error_Some. rewrite Hi. discriminate. }
  destruct (nth_error (_cells (_mesh s)) i) as [c |] eqn:Hc;
    [| apply nth_error_None in Hc; lia].
  assert (Hcell : cell_ok (List.length (_cells (_mesh s))) c).
  { unfold mesh_ok in Hok. rewrite Forall_forall in Hok.
    apply Hok, (nth_error_In _ _ Hc). }
  specialize (Hcells i c Hc).
  destruct c as [b u area normals | b u]; destruct Hcells as [u' [Hnth _]];
    rewrite Hi in Hnth; injection Hnth as ->; exact Hcell.
Qed.

(** Every solver [Solver.__init__] returns, resumed or not, has a mesh of
    that shape. *)
Lemma Solver_init_mesh_ok (np_exp np_sqrt : Q -> Q)
  (meshio_read : string -> result MeshData) (fs : files) (config : Config)
  (s : Solver) :
  Solver_init np_exp np_sqrt meshio_read fs config = Ok s ->
  mesh_ok (_cells (_mesh s)).
Proof.
  unfold Solver_init.
  destruct (meshio_read (cfg_meshName config)) as [data |]; cbn [bind]; [| discriminate].
  destruct (Mesh_init np_exp np_sqrt data) as [m0 |] eqn:Hinit; cbn [bind];
    [| discriminate].
  destruct (find_neighbors m0) as [m |] eqn:Hfind; cbn [bind]; [| discriminate].
  destruct (float_div _ _) as [d |]; cbn [bind]; [| discriminate].
  destruct (built_mesh_ok np_exp np_sqrt data m0 m Hinit Hfind) as [Hok _].
  destruct (cfg_restartFile config) as [folder |].
  - destruct (String.eqb folder "").
    + intros H. injection H as <-. exact Hok.
    + intros H. apply (load_state_mesh_ok _ _ _ _ H). exact Hok.
  - intros H. injection H as <-. exact Hok.
Qed.


(** ** The cell factory *)

(** X1: the factory builds a key with the class registered last under it,
    registering another key changes nothing for it, and a key that was never
    registered raises [KeyError]. *)
Theorem CellFactory_lookup (factory : CellFactory) (key : string)
  (cell_class : list nat -> nat -> list (list Q) -> result Cell)
  (point_ids : list nat) (idx : nat) (points : list (list Q)) :
  CellFactory_call (register key cell_class factory) key point_ids idx points
  = cell_class point_ids idx points /\
  (forall other, other <> key ->
     CellFactory_call (register other cell_class factory) key point_ids idx points
     = CellFactory_call factory key point_ids idx points) /\
  ((forall k c, In (k, c) factory -> k <> key) ->
   CellFactory_call factory key point_ids idx points = Raise KeyError).
Proof.
  split; [| split].
  - unfold register. cbn [CellFactory_call]. rewrite String.eqb_refl. reflexivity.
  - intros other Hother. unfold register. cbn [CellFactory_call].
    destruct (String.eqb other key) eqn:E; [| reflexivity].
    apply String.eqb_eq in E. contradiction.
  - induction factory as [| [k c] factory IH]; intros Hnone; [reflexivity |].
    cbn [CellFactory_call].
    destruct (String.eqb k key) eqn:E.
    + apply String.eqb_eq in E. exfalso. apply (Hnone k c); [now left | exact E].
    + apply IH. intros k' c' Hin. apply (Hnone k' c'). now right.
Qed.

(** ** Triangles: points, area and normals *)

(** X2: three points of two coordinates each do not construct a triangle:
    the dot product of the edge normal, an array of three, with an array of
    two raises [ValueError]. *)
Theorem Triangle_init_flat_points (np_exp np_sqrt : Q -> Q) (i0 i1 i2 idx : nat)
  (x0 y0 x1 y1 x2 y2 : Q) :
  Triangle_init np_exp np_sqrt [i0; i1; i2] idx [[x0; y0]; [x1; y1]; [x2; y2]]
  = Raise ValueError.
Proof.
  unfold Triangle_init, Cell_init.
  cbn -[Qplus Qminus Qmult Qdiv Qopp Qabs Qlt_le_dec inject_Z].
  reflexivity.
Qed.

Lemma shoelace_signed (x0 y0 x1 y1 x2 y2 : Q) :
  shoelace x0 y0 x1 y1 x2 y2 == 0.5 * Qabs (signed_area2 x0 y0 x1 y1 x2 y2).
Proof.
  unfold shoelace, signed_area2.
  apply Qmult_comp; [reflexivity |]. apply Qabs_wd. ring.
Qed.

(** X3: the area a triangle stores is half the absolute value of the cross
    product of two of its edges: it is never negative, and it is the same
    for every order in which the three points are given. *)
Theorem Triangle_area_any_order (np_exp np_sqrt : Q -> Q) (i0 i1 i2 idx : nat)
  (x0 y0 z0 x1 y1 z1 x2 y2 z2 : Q) :
  exists a a' a'',
    (exists base oil normals,
        Triangle_init np_exp np_sqrt [i0; i1; i2] idx
                      [[x0; y0; z0]; [x1; y1; z1]; [x2; y2; z2]]
        = Ok (Triangle base oil a normals)) /\
    (exists base oil normals,
        Triangle_init np_exp np_sqrt [i1; i2; i0] idx
                      [[x1; y1; z1]; [x2; y2; z2]; [x0; y0; z0]]
        = Ok (Triangle base oil a' normals)) /\
    (exists base oil normals,
        Triangle_init np_exp np_sqrt [i1; i0; i2] idx
                      [[x1; y1; z1]; [x0; y0; z0]; [x2; y2; z2]]
        = Ok (Triangle base oil a'' normals)) /\
    a == 0.5 * Qabs (signed_area2 x0 y0 x1 y1 x2 y2) /\
    0 <= a /\ a' == a /\ a'' == a.
Proof.
  exists (shoelace x0 y0 x1 y1 x2 y2), (shoelace x1 y1 x2 y2 x0 y0),
         (shoelace x1 y1 x0 y0 x2 y2).
  split; [apply Triangle_init_three_points |].
  split; [apply Triangle_init_three_points |].
  split; [apply Triangle_init_three_points |].
  split; [apply shoelace_signed |].
  split; [| split].
  - unfold shoelace.
    apply Qmult_le_0_compat; [discriminate | apply Qabs_nonneg].
  - rewrite !shoelace_signed. apply Qmult_comp; [reflexivity |].
    apply Qabs_wd. unfold signed_area2. ring.
  - rewrite !shoelace_signed. apply Qmult_comp; [reflexivity |].
    rewrite <- (Qabs_opp (signed_area2 x0 y0 x1 y1 x2 y2)).
    apply Qabs_wd. unfold signed_area2. ring.
Qed.

Lemma squares_positive (p q : Q) : ~ (p == 0 /\ q == 0) -> 0 < p * p + q * q.
Proof.
  intros H.
  destruct (Qlt_le_dec 0 (p * p + q * q)) as [Hpos | Hneg]; [exact Hpos |].
  exfalso. apply H.
  assert (Hp : 0 <= p * p) by nra.
  assert (Hq : 0 <= q * q) by nra.
  split.
  - assert (E : p * p == 0) by lra.
    apply Qmult_integral in E. tauto.
  - assert (E : q * q == 0) by lra.
    apply Qmult_integral in E. tauto.
Qed.

Lemma rescale (x y n l : Q) : x == y -> n == l -> ~ n == 0 -> x / n * l == y.
Proof. intros Ex E Hn. rewrite <- E, <- Ex. field. exact Hn. Qed.

Lemma edge_normal_planar (np_sqrt : Q -> Q) (mx my mz a1 b1 a2 b2 z : Q) :
  (forall p q, p == q -> np_sqrt p == np_sqrt q) ->
  (forall p, 0 < p -> ~ np_sqrt p == 0) ->
  ~ (a2 - a1 == 0 /\ b2 - b1 == 0) ->
  exists n,
    edge_normal np_sqrt [mx; my; mz] [a1; b1; z] [a2; b2; z] = Ok n /\
    let d := - (b2 - b1) * (a1 - mx) + (a2 - a1) * (b1 - my) in
    ((d < 0 /\ vec3_eq n (V3 (b2 - b1) (- (a2 - a1)) 0)) \/
     (0 <= d /\ vec3_eq n (V3 (- (b2 - b1)) (a2 - a1) 0))).
Proof.
  intros Hs Hp Hedge. unfold edge_normal.
  cbn -[Qplus Qminus Qmult Qdiv Qopp Qabs Qlt_le_dec inject_Z np_norm].
  pose proof (squares_positive _ _ Hedge) as Hlen.
  destruct (Qlt_le_dec _ 0) as [Hd | Hd]; eexists; (split; [reflexivity |]);
    [left | right]; (split; [lra |]);
    unfold vec3_eq, np_norm, qsum; cbn [vx vy vz vec3_list map fold_left];
    repeat split.
  all: try (apply rescale; [ring | apply Hs; ring | apply Hp; lra]).
  all: try (apply rescale; [ring | apply Hs; ring | apply Hp; nra]). 
Qed.


Lemma outward_normal_of (n : vec3) (xa ya xb yb xc yc mx my : Q) :
  mx == (xa + xb + xc) / 3 -> my == (ya + yb + yc) / 3 ->
  (let d := - (yb - ya) * (xa - mx) + (xb - xa) * (ya - my) in
   (d < 0 /\ vec3_eq n (V3 (yb - ya) (- (xb - xa)) 0)) \/
   (0 <= d /\ vec3_eq n (V3 (- (yb - ya)) (xb - xa) 0))) ->
  ~ signed_area2 xa ya xb yb xc yc == 0 ->
  outward_normal n xa ya xb yb xc yc /\
  ((0 < signed_area2 xa ya xb yb xc yc /\
    vec3_eq n (V3 (yb - ya) (- (xb - xa)) 0)) \/
   (signed_area2 xa ya xb yb xc yc < 0 /\
    vec3_eq n (V3 (- (yb - ya)) (xb - xa) 0))).
Proof.
  intros Hmx Hmy Hn HD. cbv zeta in Hn.
  assert (Hd : - (yb - ya) * (xa - mx) + (xb - xa) * (ya - my)
               == (1 # 3) * - signed_area2 xa ya xb yb xc yc).
  { rewrite Hmx, Hmy. unfold signed_area2. field. }
  rewrite Hd in Hn. clear Hd.
  assert (Hout : (yb - ya) * (xa - xc) + - (xb - xa) * (ya - yc)
                 == signed_area2 xa ya xb yb xc yc).
  { unfold signed_area2. ring. }
  unfold outward_normal, dot3, edge_vec.
  cbn [vx vy vz].
  remember (signed_area2 xa ya xb yb xc yc) as D eqn:HDdef. clear HDdef.
  destruct Hn as [[Hsign Hn] | [Hsign Hn]]; pose proof Hn as (Hx & Hy & Hz);
    cbn [vx vy vz] in Hx, Hy, Hz; rewrite Hx, Hy, Hz.
  - split; [| left; split; [lra | exact Hn]].
    repeat split; try ring.
    assert (E : (yb - ya) * (xa - xc) + - (xb - xa) * (ya - yc) + 0 * 0 == D)
      by (rewrite <- Hout; ring).
    rewrite E. lra.
  - split; [| right; split; [lra | exact Hn]].
    repeat split; try ring.
    assert (E : - (yb - ya) * (xa - xc) + (xb - xa) * (ya - yc) + 0 * 0 == - D)
      by (rewrite <- Hout; ring).
    rewrite E. lra.
Qed.

Lemma edge_not_null (xa ya xb yb xc yc : Q) :
  ~ signed_area2 xa ya xb yb xc yc == 0 -> ~ (xb - xa == 0 /\ yb - ya == 0).
Proof.
  intros HD [Ex Ey]. apply HD. unfold signed_area2. rewrite Ex, Ey. ring.
Qed.

Lemma signed_area2_rotate (xa ya xb yb xc yc : Q) :
  signed_area2 xb yb xc yc xa ya == signed_area2 xa ya xb yb xc yc.
Proof. unfold signed_area2. ring. Qed.

(** X4: in a triangle that is not degenerate, built from three points of
    one plane z = const, each stored normal is perpendicular to its edge, as
    long as its edge and points away from the opposite vertex, and the three
    normals add up to zero.  The square root of NumPy is asked to give equal
    numbers equal roots and a positive number a root that is not zero. *)
Theorem Triangle_normals_outward (np_exp np_sqrt : Q -> Q) (i0 i1 i2 idx : nat)
  (x0 y0 x1 y1 x2 y2 z : Q) :
  (forall p q, p == q -> np_sqrt p == np_sqrt q) ->
  (forall p, 0 < p -> ~ np_sqrt p == 0) ->
  ~ signed_area2 x0 y0 x1 y1 x2 y2 == 0 ->
  exists base oil area n0 n1 n2,
    Triangle_init np_exp np_sqrt [i0; i1; i2] idx
                  [[x0; y0; z]; [x1; y1; z]; [x2; y2; z]]
    = Ok (Triangle base oil area [n0; n1; n2]) /\
    outward_normal n0 x0 y0 x1 y1 x2 y2 /\
    outward_normal n1 x1 y1 x2 y2 x0 y0 /\
    outward_normal n2 x2 y2 x0 y0 x1 y1 /\
    vec3_eq (vec3_add n0 (vec3_add n1 n2)) (V3 0 0 0).
Proof.
  intros Hs Hp HD.
  pose proof HD as HD1. rewrite <- signed_area2_rotate in HD1.
  pose proof HD1 as HD2. rewrite <- signed_area2_rotate in HD2.
  unfold Triangle_init, Cell_init.
  cbn -[Qplus Qminus Qmult Qdiv Qopp Qabs Qlt_le_dec inject_Z edge_normal].
  change (inject_Z 3) with 3.
  set (mx := (x0 + x1 + x2) / 3). set (my := (y0 + y1 + y2) / 3).
  destruct (edge_normal_planar np_sqrt mx my ((z + z + z) / 3) x0 y0 x1 y1 z
              Hs Hp (edge_not_null _ _ _ _ _ _ HD)) as [n0 [E0 H0]].
  destruct (edge_normal_planar np_sqrt mx my ((z + z + z) / 3) x1 y1 x2 y2 z
              Hs Hp (edge_not_null _ _ _ _ _ _ HD1)) as [n1 [E1 H1]].
  destruct (edge_normal_planar np_sqrt mx my ((z + z + z) / 3) x2 y2 x0 y0 z
              Hs Hp (edge_not_null _ _ _ _ _ _ HD2)) as [n2 [E2 H2]].
  rewrite E0, E1, E2. cbn [bind].
  do 3 eexists. exists n0, n1, n2. split; [reflexivity |].
  apply (outward_normal_of n0 x0 y0 x1 y1 x2 y2 mx my) in H0;
    [| reflexivity | reflexivity | exact HD].
  apply (outward_normal_of n1 x1 y1 x2 y2 x0 y0 mx my) in H1;
    [| unfold mx; field | unfold my; field | exact HD1].
  apply (outward_normal_of n2 x2 y2 x0 y0 x1 y1 mx my) in H2;
    [| unfold mx; field | unfold my; field | exact HD2].
  destruct H0 as [Ho0 H0], H1 as [Ho1 H1], H2 as [Ho2 H2].
  repeat (split; [assumption |]).
  rewrite signed_area2_rotate in H1.
  rewrite signed_area2_rotate, signed_area2_rotate in H2.
  remember (signed_area2 x0 y0 x1 y1 x2 y2) as D eqn:HDdef. clear HDdef.
  unfold vec3_eq in *. cbn [vx vy vz vec3_add] in *.
  destruct H0 as [[S0 (Hx0 & Hy0 & Hz0)] | [S0 (Hx0 & Hy0 & Hz0)]];
    destruct H1 as [[S1 (Hx1 & Hy1 & Hz1)] | [S1 (Hx1 & Hy1 & Hz1)]];
    try (exfalso; lra);
    destruct H2 as [[S2 (Hx2 & Hy2 & Hz2)] | [S2 (Hx2 & Hy2 & Hz2)]];
    try (exfalso; lra);
    rewrite Hx0, Hx1, Hx2, Hy0, Hy1, Hy2, Hz0, Hz1, Hz2; repeat split; ring.
Qed.

Lemma sqrt_red_compat (p q : Q) : p == q -> sqrt_red p == sqrt_red q.
Proof.
  intros E. unfold sqrt_red. rewrite (Qred_complete p q E). reflexivity.
Qed.

Lemma sqrt_red_positive (p : Q) : 0 < p -> ~ sqrt_red p == 0.
Proof.
  intros Hp. rewrite <- (Qred_correct p) in Hp. unfold sqrt_red, sqrt_exact.
  destruct (Qred p) as [n d]. unfold Qlt, Qeq in *. cbn [Qnum Qden] in *.
  assert (H : (0 < Z.sqrt n)%Z) by (apply Z.sqrt_pos; lia).
  lia.
Qed.

Lemma Triangle_normals_outward_witness :
  exists base oil area n0 n1 n2,
    Triangle_init exp_one sqrt_red [0; 1; 2]%nat 0
                  [[0; 0; 0]; [4; 0; 0]; [4; 3; 0]]
    = Ok (Triangle base oil area [n0; n1; n2]) /\
    outward_normal n0 0 0 4 0 4 3 /\
    outward_normal n1 4 0 4 3 0 0 /\
    outward_normal n2 4 3 0 0 4 0 /\
    vec3_eq (vec3_add n0 (vec3_add n1 n2)) (V3 0 0 0).
Proof.
  apply (Triangle_normals_outward exp_one sqrt_red 0 1 2 0 0 0 4 0 4 3 0
           sqrt_red_compat sqrt_red_positive).
  intros H. vm_compute in H. discriminate H.
Defined.

(** ** Building the mesh from the data of a file *)

Lemma foldM_app {A B : Type} (f : A -> B -> result A) (xs ys : list B) (a : A) :
  foldM f (xs ++ ys) a = (a' <- foldM f xs a ;; foldM f ys a').
Proof.
  revert a. induction xs as [| x xs IH]; intros a; cbn [app foldM bind].
  - reflexivity.
  - destruct (f a x) as [a1 | e]; cbn [bind]; [apply IH | reflexivity].
Qed.

Lemma Mesh_init_fold (np_exp np_sqrt : Q -> Q) (data : MeshData) (m : Mesh) :
  Mesh_init np_exp np_sqrt data = Ok m ->
  mesh_points m = md_points data /\
  foldM (fun cells block =>
           let (cell_type, cellindices) := (block : string * list (list nat)) in
           if String.eqb cell_type "vertex" then Ok cells
           else
             foldM (fun cells cell_idx =>
                      rows <- take_rows (md_points data) cell_idx ;;
                      cell <- CellFactory_call
                                (register "line" Line_init
                                   (register "triangle"
                                      (Triangle_init np_exp np_sqrt) []))
                                cell_type cell_idx (List.length cells) rows ;;
                      Ok (cells ++ [cell]))
                   cellindices cells)
        (md_cells data) [] = Ok (_cells m).
Proof.
  unfold Mesh_init.
  destruct (foldM _ (md_cells data) []) as [cells |]; cbn [bind]; [| discriminate].
  intros H. injection H as <-. split; reflexivity.
Qed.

(** X5: a block of cells whose type is not vertex, line or triangle makes
    [Mesh.__init__] raise [KeyError] at its first cell, when the blocks
    before it construct and the vertex indices of that cell are rows of the
    point table. *)
Theorem Mesh_init_unknown_type (np_exp np_sqrt : Q -> Q)
  (points : list (list Q)) (pre post : list (string * list (list nat)))
  (key : string) (cell_idx : list nat) (rest : list (list nat))
  (m0 : Mesh) (rows : list (list Q)) :
  Mesh_init np_exp np_sqrt (mkMeshData points pre) = Ok m0 ->
  take_rows points cell_idx = Ok rows ->
  key <> "vertex"%string -> key <> "line"%string -> key <> "triangle"%string ->
  Mesh_init np_exp np_sqrt
            (mkMeshData points (pre ++ (key, cell_idx :: rest) :: post))
  = Raise KeyError.
Proof.
  intros Hpre Hrows Hvertex Hline Htriangle.
  apply Mesh_init_fold in Hpre. destruct Hpre as [_ Hpre]. cbn [md_points md_cells] in Hpre.
  unfold Mesh_init. cbn [md_points md_cells].
  rewrite foldM_app, Hpre. cbn [bind foldM].
  apply String.eqb_neq in Hvertex, Hline, Htriangle.
  rewrite Hvertex, Hrows. cbn [bind]. unfold register. cbn [CellFactory_call].
  rewrite String.eqb_sym, Hline, String.eqb_sym, Htriangle. reflexivity.
Qed.

Lemma Cell_init_fields (point_ids : list nat) (idx : nat) (points : list (list Q))
  (b : CellBase) :
  Cell_init point_ids idx points = Ok b ->
  _point_ids b = point_ids /\ _idx b = idx /\ _points b = points.
Proof.
  unfold Cell_init.
  destruct (getitem _ 1); cbn [bind]; [| discriminate].
  destruct (getitem _ 0); cbn [bind]; [| discriminate].
  intros H. injection H as <-. repeat split.
Qed.

Lemma Line_init_fields (point_ids : list nat) (idx : nat) (points : list (list Q))
  (c : Cell) :
  Line_init point_ids idx points = Ok c ->
  cell_type c = "line"%string /\ _point_ids (cell_base c) = point_ids /\
  _idx (cell_base c) = idx /\ _points (cell_base c) = points.
Proof.
  unfold Line_init.
  destruct (Cell_init point_ids idx points) as [b |] eqn:E; cbn [bind]; [| discriminate].
  intros H. injection H as <-. split; [reflexivity |].
  apply (Cell_init_fields _ _ _ _ E).
Qed.

Lemma Triangle_init_fields (np_exp np_sqrt : Q -> Q) (point_ids : list nat)
  (idx : nat) (points : list (list Q)) (c : Cell) :
  Triangle_init np_exp np_sqrt point_ids idx points = Ok c ->
  cell_type c = "triangle"%string /\ _point_ids (cell_base c) = point_ids /\
  _idx (cell_base c) = idx /\ _points (cell_base c) = points.
Proof.
  unfold Triangle_init.
  destruct (Cell_init point_ids idx points) as [b |] eqn:E; cbn [bind]; [| discriminate].
  destruct (getitem (midpoint b) 0); cbn [bind]; [| discriminate].
  destruct (getitem (midpoint b) 1); cbn [bind]; [| discriminate].
  destruct (negb (Nat.eqb (List.length point_ids) 3)); [discriminate |].
  destruct (negb (Nat.eqb (List.length points) 3)); [discriminate |].
  repeat (match goal with
          | |- context [point_coord ?p ?i ?j] => destruct (point_coord p i j)
          end; cbn [bind]; [| discriminate]).
  destruct (cycle points); cbn [bind]; [| discriminate].
  destruct (mapM _ _); cbn [bind]; [| discriminate].
  intros H. injection H as <-. split; [reflexivity |].
  apply (Cell_init_fields _ _ _ _ E).
Qed.

Lemma CellFactory_call_fields (np_exp np_sqrt : Q -> Q) (key : string)
  (point_ids : list nat) (idx : nat) (points : list (list Q)) (c : Cell) :
  CellFactory_call
    (register "line" Line_init
       (register "triangle" (Triangle_init np_exp np_sqrt) []))
    key point_ids idx points = Ok c ->
  cell_type c = key /\ _point_ids (cell_base c) = point_ids /\
  _idx (cell_base c) = idx /\ _points (cell_base c) = points.
Proof.
  unfold register. cbn [CellFactory_call].
  destruct (String.eqb "line" key) eqn:Eline.
  - apply String.eqb_eq in Eline. subst key. apply Line_init_fields.
  - destruct (String.eqb "triangle" key) eqn:Etri; [| discriminate].
    apply String.eqb_eq in Etri. subst key. apply Triangle_init_fields.
Qed.

Lemma Mesh_init_block (np_exp np_sqrt : Q -> Q) (points : list (list Q))
  (key : string) (cellindices : list (list nat)) (cells cells' : list Cell) :
  foldM (fun cells cell_idx =>
           rows <- take_rows points cell_idx ;;
           cell <- CellFactory_call
                     (register "line" Line_init
                        (register "triangle" (Triangle_init np_exp np_sqrt) []))
                     key cell_idx (List.length cells) rows ;;
           Ok (cells ++ [cell]))
        cellindices cells = Ok cells' ->
  (forall k c, nth_error cells k = Some c -> filed_at points k c) ->
  map cell_entry cells' = map cell_entry cells ++ map (pair key) cellindices /\
  (forall k c, nth_error cells' k = Some c -> filed_at points k c).
Proof.
  revert cells. induction cellindices as [| cell_idx rest IH]; intros cells; cbn [foldM].
  - intros H Hcells. injection H as <-. cbn [map]. rewrite app_nil_r. now split.
  - destruct (take_rows points cell_idx) as [rows |] eqn:Hrows; cbn [bind];
      [| discriminate].
    destruct (CellFactory_call _ key cell_idx (List.length cells) rows) as [cell |] eqn:Hcell;
      cbn [bind]; [| discriminate].
    intros Hfold Hcells.
    apply CellFactory_call_fields in Hcell.
    destruct Hcell as (Htype & Hids & Hidx & Hpoints).
    destruct (IH (cells ++ [cell]) Hfold) as [Hmap Hfiled].
    + intros k c Hc.
      destruct (Nat.lt_ge_cases k (List.length cells)) as [Hk | Hk].
      * rewrite nth_error_app1 in Hc by exact Hk. apply Hcells, Hc.
      * rewrite nth_error_app2 in Hc by exact Hk.
        destruct (k - List.length cells)%nat as [| d] eqn:Hd;
          [| destruct d; discriminate Hc].
        injection Hc as <-. unfold filed_at. rewrite Hidx, Hids, Hpoints.
        split; [lia | exact Hrows].
    + split; [| exact Hfiled].
      rewrite Hmap, map_app, <- app_assoc. cbn [map app].
      unfold cell_entry at 2. rewrite Htype, Hids. reflexivity.
Qed.

(** X6: the cells of a mesh are the cells its file lists, in the order of
    the file and with the vertex blocks left out: each has the type of its
    block and the vertex indices of its entry, the cell at position [k]
    carries the index [k], and its points are the rows of the point table at
    its vertex indices. *)
Theorem Mesh_init_cells (np_exp np_sqrt : Q -> Q) (data : MeshData) (m : Mesh) :
  Mesh_init np_exp np_sqrt data = Ok m ->
  mesh_points m = md_points data /\
  map cell_entry (_cells m) = listed_cells (md_cells data) /\
  forall k c, nth_error (_cells m) k = Some c -> filed_at (md_points data) k c.
Proof.
  intros Hinit. apply Mesh_init_fold in Hinit. destruct Hinit as [Hpoints Hfold].
  split; [exact Hpoints |].
  assert (Hgen : forall blocks cells cells',
             foldM (fun cells block =>
                      let (cell_type, cellindices) := (block : string * list (list nat)) in
                      if String.eqb cell_type "vertex" then Ok cells
                      else
                        foldM (fun cells cell_idx =>
                                 rows <- take_rows (md_points data) cell_idx ;;
                                 cell <- CellFactory_call
                                           (register "line" Line_init
                                              (register "triangle"
                                                 (Triangle_init np_exp np_sqrt) []))
                                           cell_type cell_idx (List.length cells) rows ;;
                                 Ok (cells ++ [cell]))
                              cellindices cells)
                   blocks cells = Ok cells' ->
             (forall k c, nth_error cells k = Some c -> filed_at (md_points data) k c) ->
             map cell_entry cells' = map cell_entry cells ++ listed_cells blocks /\
             (forall k c, nth_error cells' k = Some c -> filed_at (md_points data) k c)).
  { induction blocks as [| [key cellindices] blocks IH]; intros cells cells';
      cbn [foldM].
    - intros H Hcells. injection H as <-. cbn [listed_cells flat_map].
      rewrite app_nil_r. now split.
    - unfold listed_cells. cbn [flat_map fst snd]. fold (listed_cells blocks).
      destruct (String.eqb key "vertex").
      + cbn [bind app]. apply IH.
      + destruct (foldM _ cellindices cells) as [cells1 |] eqn:Hblock; cbn [bind];
          [| discriminate].
        intros Hfold' Hcells.
        destruct (Mesh_init_block _ _ _ _ _ _ _ Hblock Hcells) as [Hmap1 Hfiled1].
        destruct (IH cells1 cells' Hfold' Hfiled1) as [Hmap Hfiled].
        split; [| exact Hfiled]. rewrite Hmap, Hmap1, app_assoc. reflexivity. }
  apply (Hgen _ _ _ Hfold). intros k c Hc. destruct k; discriminate Hc.
Qed.

Lemma Mesh_init_unknown_type_witness :
  Mesh_init exp_one sqrt_exact quad_data = Raise KeyError.
Proof.
  unfold quad_data.
  eapply (Mesh_init_unknown_type exp_one sqrt_exact
            [[0; 0; 0]; [4; 0; 0]; [4; 3; 0]; [0; 3; 0]]
            [("triangle"%string, [[0; 1; 2]]%nat)] [] "quad" [0; 1; 2; 3]%nat []).
  - vm_compute. reflexivity.
  - vm_compute. reflexivity.
  - discriminate.
  - discriminate.
  - discriminate.
Defined.

Lemma Mesh_init_cells_witness :
  map cell_entry (_cells sample_mesh_fresh)
  = [("line", [0; 1]); ("line", [1; 2]); ("triangle", [0; 1; 2]);
     ("triangle", [0; 2; 3]); ("line", [2; 3]); ("line", [3; 0])]%string%nat /\
  forall k c, nth_error (_cells sample_mesh_fresh) k = Some c ->
              _idx (cell_base c) = k.
Proof.
  assert (H : Mesh_init exp_one sqrt_exact sample_data = Ok sample_mesh_fresh)
    by (vm_compute; reflexivity).
  destruct (Mesh_init_cells exp_one sqrt_exact sample_data sample_mesh_fresh H)
    as (_ & Hentries & Hfiled).
  split; [exact Hentries |].
  intros k c Hc. apply (Hfiled k c Hc).
Defined.

Lemma compute_neighbors_same (self self' : Cell) (cells : list Cell) :
  compute_neighbors self cells = Ok self' ->
  same_but_neighbors self self' /\
  List.length (neighbors (cell_base self')) = List.length (neighbors (cell_base self)) /\
  (is_triangle self = false -> self' = self).
Proof.
  destruct self as [b u area normals | b u]; cbn [compute_neighbors].
  - destruct (Triangle_compute_neighbors b cells) as [nbrs |] eqn:E; cbn [bind];
      [| discriminate].
    intros H. injection H as <-.
    split; [repeat split |]. split; [| discriminate].
    cbn [set_neighbors cell_base neighbors].
    revert E. unfold Triangle_compute_neighbors.
    apply (foldM_invariant (fun l => List.length l = List.length (neighbors b)));
      [| reflexivity].
    intros l [idx cell] l' _ Hlen. unfold visit_cell.
    destruct (Nat.eqb _ 2); [| intros H; injection H as <-; exact Hlen].
    destruct (cycle (_point_ids b)); cbn [bind]; [| discriminate].
    destruct (first_edge _ _) as [i |]; [| intros H; injection H as <-; exact Hlen].
    intros Hset. rewrite (setitem_length _ _ _ _ Hset). exact Hlen.
  - intros H. injection H as <-. split; [repeat split |]. split; reflexivity.
Qed.

Lemma find_neighbors_each (m m' : Mesh) :
  find_neighbors m = Ok m' ->
  mesh_points m' = mesh_points m /\
  List.length (_cells m') = List.length (_cells m) /\
  forall k c0, nth_error (_cells m) k = Some c0 ->
    exists c,
      nth_error (_cells m') k = Some c /\
      compute_neighbors c0 (_cells m) = Ok c /\
      same_but_neighbors c0 c /\
      List.length (neighbors (cell_base c)) = List.length (neighbors (cell_base c0)) /\
      (is_triangle c0 = false -> c = c0).
Proof.
  unfold find_neighbors. intros Hfind.
  destruct (foldM _ (seq 0 (List.length (_cells m))) (_cells m)) as [cells |] eqn:E;
    cbn [bind] in Hfind; [| discriminate Hfind].
  injection Hfind as <-. cbn [_cells mesh_points].
  destruct (find_neighbors_cells (_cells m) _ 0 (_cells m) cells E eq_refl)
    as [Hids Hdone].
  { intros j c Hj. lia. }
  { reflexivity. }
  assert (Hlen : List.length cells = List.length (_cells m)).
  { unfold point_ids_of in Hids. apply (f_equal (@List.length _)) in Hids.
    rewrite !length_map in Hids. exact Hids. }
  split; [reflexivity |]. split; [exact Hlen |].
  intros k c0 Hc0.
  assert (Hk : (k < List.length (_cells m))%nat).
  { apply nth_error_Some. rewrite Hc0. discriminate. }
  destruct (nth_error cells k) as [c |] eqn:Hc;
    [| apply nth_error_None in Hc; lia].
  destruct (Hdone k c Hk Hc) as [c1 [Hc1 Hcompute]].
  rewrite Hc0 in Hc1. injection Hc1 as <-.
  exists c. split; [reflexivity |]. split; [exact Hcompute |].
  apply (compute_neighbors_same _ _ _ Hcompute).
Qed.

(** X7: [find_neighbors] gives every cell the neighbours that
    [compute_neighbors] finds for it against the cells as they were before
    the call, whatever the cells visited earlier have become; it changes
    nothing of a cell but its neighbour list, whose length it keeps, and
    nothing at all of a line. *)
Theorem find_neighbors_each_cell (m m' : Mesh) :
  find_neighbors m = Ok m' ->
  mesh_points m' = mesh_points m /\
  List.length (_cells m') = List.length (_cells m) /\
  forall k c0, nth_error (_cells m) k = Some c0 ->
    exists c,
      nth_error (_cells m') k = Some c /\
      compute_neighbors c0 (_cells m) = Ok c /\
      same_but_neighbors c0 c /\
      List.length (neighbors (cell_base c)) = List.length (neighbors (cell_base c0)) /\
      (is_triangle c0 = false -> c = c0).
Proof. exact (find_neighbors_each m m'). Qed.

Lemma shared_count_self (ids : list nat) :
  NoDup ids -> shared_count ids ids = List.length ids.
Proof.
  intros Hnd. rewrite (shared_count_nodup _ _ Hnd). f_equal.
  apply forallb_filter_id. apply forallb_forall. intros p Hp.
  unfold mem. apply existsb_exists. exists p. split; [exact Hp | apply Nat.eqb_refl].
Qed.

(** X8: in a mesh as [Solver.__init__] builds it, a line has no neighbour
    (all its entries are -1), a triangle has three vertex indices and three
    neighbour entries, and a triangle with three distinct vertices is never
    its own neighbour. *)
Theorem built_mesh_neighbors (np_exp np_sqrt : Q -> Q) (data : MeshData)
  (m0 m : Mesh) (k : nat) (c : Cell) :
  Mesh_init np_exp np_sqrt data = Ok m0 ->
  find_neighbors m0 = Ok m ->
  nth_error (_cells m) k = Some c ->
  match c with
  | Line b _ => neighbors b = map (fun _ => (-1)%Z) (_point_ids b)
  | Triangle b _ _ _ =>
      List.length (_point_ids b) = 3%nat /\
      List.length (neighbors b) = 3%nat /\
      (NoDup (_point_ids b) ->
       forall i n, nth_error (neighbors b) i = Some n -> n <> Z.of_nat k)
  end.
Proof.
  intros Hinit Hfind Hc.
  pose proof (Mesh_init_Forall fresh_cell np_exp np_sqrt data m0
                Line_init_fresh (Triangle_init_fresh np_exp np_sqrt) Hinit) as Hfresh.
  destruct (find_neighbors_each m0 m Hfind) as (_ & Hlen & Heach).
  assert (Hk : (k < List.length (_cells m0))%nat).
  { rewrite <- Hlen. apply nth_error_Some. rewrite Hc. discriminate. }
  destruct (nth_error (_cells m0) k) as [c0 |] eqn:Hc0;
    [| apply nth_error_None in Hc0; lia].
  destruct (Heach k c0 Hc0) as (c' & Hc' & Hcompute & Hsame & Hnbrs & Hline).
  rewrite Hc in Hc'. injection Hc' as <-.
  rewrite Forall_forall in Hfresh.
  destruct (Hfresh c0 (nth_error_In _ _ Hc0)) as [Hminus Hthree].
  destruct Hsame as (Hids & _ & _ & _ & _ & _ & Htype & _).
  destruct c as [b u area normals | b u].
  - destruct c0 as [b0 u0 area0 normals0 | b0 u0]; [| discriminate Htype].
    cbn [cell_base] in *. specialize (Hthree eq_refl).
    assert (Hl : List.length (_point_ids b) = 3%nat) by (rewrite Hids; exact Hthree).
    split; [exact Hl |].
    split; [rewrite Hnbrs, Hminus, length_map; exact Hthree |].
    intros Hnd i n Hn ->.
    destruct (find_neighbors_last_match np_exp np_sqrt data m0 m k b u area normals
                Hinit Hfind Hc Hnd) as [_ Hentries].
    destruct (Hentries i _ Hn) as [[Hneg _] | [idx [Hidx [[c1 [Hc1 Hmatch]] _]]]];
      [lia |].
    apply Nat2Z.inj in Hidx. subst idx. rewrite Hc in Hc1. injection Hc1 as <-.
    unfold matches_edge in Hmatch. cbn [cell_base] in Hmatch.
    rewrite (shared_count_self _ Hnd), Hl in Hmatch. discriminate Hmatch.
  - destruct c0 as [b0 u0 area0 normals0 | b0 u0]; [discriminate Htype |].
    specialize (Hline eq_refl). injection Hline as -> ->. exact Hminus.
Qed.

Lemma find_neighbors_each_cell_witness :
  List.length (_cells sample_mesh_built) = 6%nat /\
  exists c,
    nth_error (_cells sample_mesh_built) 2 = Some c /\
    neighbors (cell_base c) = [0; 1; 3]%Z.
Proof.
  assert (H : find_neighbors sample_mesh_fresh = Ok sample_mesh_built)
    by (vm_compute; reflexivity).
  destruct (find_neighbors_each_cell sample_mesh_fresh sample_mesh_built H)
    as (_ & Hlen & Heach).
  split; [exact Hlen |].
  destruct (nth_error (_cells sample_mesh_fresh) 2) as [c0 |] eqn:Hc0;
    [| discriminate Hc0].
  destruct (Heach 2%nat c0 Hc0) as (c & Hc & Hcompute & _).
  exists c. split; [exact Hc |].
  vm_compute in Hc0. injection Hc0 as <-.
  vm_compute in Hcompute. injection Hcompute as <-. reflexivity.
Defined.

Lemma built_mesh_neighbors_witness :
  exists b u area normals,
    nth_error (_cells sample_mesh_built) 2 = Some (Triangle b u area normals) /\
    List.length (_point_ids b) = 3%nat /\
    List.length (neighbors b) = 3%nat /\
    forall i n, nth_error (neighbors b) i = Some n -> n <> 2%Z.
Proof.
  assert (H0 : Mesh_init exp_one sqrt_exact sample_data = Ok sample_mesh_fresh)
    by (vm_compute; reflexivity).
  assert (H1 : find_neighbors sample_mesh_fresh = Ok sample_mesh_built)
    by (vm_compute; reflexivity).
  do 4 eexists. split; [vm_compute; reflexivity |].
  destruct (built_mesh_neighbors exp_one sqrt_exact sample_data sample_mesh_fresh
              sample_mesh_built 2 _ H0 H1 eq_refl) as (Hids & Hnbrs & Hself).
  split; [exact Hids |]. split; [exact Hnbrs |].
  apply Hself. cbn. apply nodup_012.
Defined.

(** ** Constructing a solver *)

(** X9: with [nSteps] = 0 the construction of a solver raises
    [ZeroDivisionError] when it computes [dt], after the mesh was read and
    built and before any restart folder is looked at. *)
Theorem Solver_init_zero_steps (np_exp np_sqrt : Q -> Q)
  (meshio_read : string -> result MeshData) (fs : files) (config : Config)
  (data : MeshData) (m0 m : Mesh) :
  meshio_read (cfg_meshName config) = Ok data ->
  Mesh_init np_exp np_sqrt data = Ok m0 ->
  find_neighbors m0 = Ok m ->
  cfg_nSteps config = 0%Z ->
  Solver_init np_exp np_sqrt meshio_read fs config = Raise ZeroDivisionError.
Proof.
  intros Hread Hinit Hfind Hzero. unfold Solver_init.
  rewrite Hread. cbn [bind]. rewrite Hinit. cbn [bind]. rewrite Hfind. cbn [bind].
  rewrite Hzero. reflexivity.
Qed.

Lemma float_div_Ok (x y d : Q) : float_div x y = Ok d -> ~ y == 0 /\ d = x / y.
Proof.
  unfold float_div. destruct (Qeq_bool y 0) eqn:E; [discriminate |].
  intros H. injection H as <-. split; [| reflexivity].
  intros Hy. apply Qeq_bool_iff in Hy. congruence.
Qed.

Lemma load_state_keeps (fs : files) (s s' : Solver) (folder : string) :
  load_state fs s folder = Ok s' ->
  dt s' = dt s /\ _tEnd s' = _tEnd s /\ _meshName s' = _meshName s /\
  fishing_borders s' = fishing_borders s /\ restart_file s' = restart_file s /\
  ~ dt s == 0 /\
  _nt s' = int_of_float ((_tEnd s - _tStart s') / dt s).
Proof.
  unfold load_state, exists_file, read_file.
  destruct (fs (path_join folder "oil_values.txt")) as [f_oil |]; [| discriminate].
  destruct (fs (path_join folder "simulation_data.txt")) as [f_data |]; [| discriminate].
  cbn [negb orb bind].
  destruct (mapM _ (readlines f_oil)) as [values |]; cbn [bind]; [| discriminate].
  destruct (foldM read_data_line (readlines f_data) _) as [s1 |] eqn:Hlines; cbn [bind];
    [| discriminate].
  destruct (float_div _ _) as [steps |] eqn:Hdiv; cbn [bind]; [| discriminate].
  intros H. injection H as <-.
  apply float_div_Ok in Hdiv. destruct Hdiv as [Hdt ->].
  assert (Hkeep : dt s1 = dt s /\ _tEnd s1 = _tEnd s /\ _meshName s1 = _meshName s /\
                  fishing_borders s1 = fishing_borders s /\
                  restart_file s1 = restart_file s).
  { revert Hlines.
    apply (foldM_invariant
             (fun s1 => dt s1 = dt s /\ _tEnd s1 = _tEnd s /\
                        _meshName s1 = _meshName s /\
                        fishing_borders s1 = fishing_borders s /\
                        restart_file s1 = restart_file s));
      [| repeat split].
    intros a line a' _ Ha. unfold read_data_line.
    destruct (unpack2 (split_colon (strip line))) as [[key value] |]; cbn [bind];
      [| discriminate].
    destruct (text_eqb key (lit "current_time")).
    - destruct (py_float value); cbn [bind]; [| discriminate].
      intros H. injection H as <-. exact Ha.
    - destruct (text_eqb key (lit "remaining_steps")).
      + destruct (py_int value); cbn [bind]; [| discriminate].
        intros H. injection H as <-. exact Ha.
      + intros H. injection H as <-. exact Ha. }
  destruct Hkeep as (H1 & H2 & H3 & H4 & H5).
  cbn [dt _tEnd _meshName fishing_borders restart_file _nt _tStart with_nt].
  rewrite H1 in *. rewrite H2.
  repeat (split; [first [assumption | reflexivity] |]). reflexivity.
Qed.

(** X10: every solver that is constructed, resumed or not, has
    [nSteps] <> 0, a time step with [dt * nSteps = tEnd - tStart] for the
    [tStart] of the configuration, and the end time, mesh name, borders and
    restart folder of the configuration; without a restart folder (none, or
    the empty string) it starts at [tStart] with [nSteps] steps. *)
Theorem Solver_init_time_step (np_exp np_sqrt : Q -> Q)
  (meshio_read : string -> result MeshData) (fs : files) (config : Config)
  (s : Solver) :
  Solver_init np_exp np_sqrt meshio_read fs config = Ok s ->
  cfg_nSteps config <> 0%Z /\
  dt s * inject_Z (cfg_nSteps config) == cfg_tEnd config - cfg_tStart config /\
  _tEnd s = cfg_tEnd config /\
  _meshName s = cfg_meshName config /\
  fishing_borders s = cfg_borders config /\
  restart_file s = cfg_restartFile config /\
  (cfg_restartFile config = None \/ cfg_restartFile config = Some ""%string ->
   _tStart s = cfg_tStart config /\ _nt s = cfg_nSteps config).
Proof.
  unfold Solver_init.
  destruct (meshio_read (cfg_meshName config)) as [data |]; cbn [bind]; [| discriminate].
  destruct (Mesh_init np_exp np_sqrt data) as [m0 |]; cbn [bind]; [| discriminate].
  destruct (find_neighbors m0) as [m |]; cbn [bind]; [| discriminate].
  destruct (float_div _ _) as [d |] eqn:Hdiv; cbn [bind]; [| discriminate].
  apply float_div_Ok in Hdiv. destruct Hdiv as [Hn ->].
  assert (Hsteps : cfg_nSteps config <> 0%Z).
  { intros E. apply Hn. rewrite E. reflexivity. }
  assert (Hdt : (cfg_tEnd config - cfg_tStart config) / inject_Z (cfg_nSteps config)
                * inject_Z (cfg_nSteps config)
                == cfg_tEnd config - cfg_tStart config).
  { field. exact Hn. }
  destruct (cfg_restartFile config) as [folder |] eqn:Hrestart.
  - destruct (String.eqb folder "") eqn:Efolder.
    + intros H. injection H as <-. cbn.
      do 6 (split; [first [assumption | reflexivity] |]).
      intros _. split; reflexivity.
    + intros H. apply load_state_keeps in H.
      destruct H as (H1 & H2 & H3 & H4 & H5 & _). cbn in H1, H2, H3, H4, H5.
      rewrite H1, H2, H3, H4, H5.
      do 6 (split; [first [assumption | reflexivity] |]).
      intros [E | E]; [discriminate E |]. injection E as ->.
      cbn in Efolder. discriminate Efolder.
  - intros H. injection H as <-. cbn.
    do 6 (split; [first [assumption | reflexivity] |]).
    intros _. split; reflexivity.
Qed.



Lemma Solver_init_zero_steps_witness :
  Solver_init exp_one sqrt_exact sample_meshio no_files
              (mkConfig "bay.msh" 0 1 0 ((0, 0.45), (0, 0.2)) None)
  = Raise ZeroDivisionError.
Proof.
  apply (Solver_init_zero_steps exp_one sqrt_exact sample_meshio no_files
           (mkConfig "bay.msh" 0 1 0 ((0, 0.45), (0, 0.2)) None)
           sample_data sample_mesh_fresh sample_mesh_built).
  - reflexivity.
  - vm_compute. reflexivity.
  - vm_compute. reflexivity.
  - reflexivity.
Defined.

Lemma Solver_init_time_step_witness :
  dt sample_solver * inject_Z 10 == 1 - 0 /\ _tEnd sample_solver = 1.
Proof.
  destruct (Solver_init_time_step exp_one sqrt_exact sample_meshio start_files
              sample_config sample_solver (sample_solver_built exp_one))
    as (_ & Hdt & Hend & _).
  split; [exact Hdt | exact Hend].
Defined.


(** ** What [load_state] makes of a restart folder *)

Lemma py_float_raises (t : text) (e : exn) : py_float t = Raise e -> e = ValueError.
Proof.
  unfold py_float.
  destruct (strip t) as [| [c | q] [| a rest]]; try discriminate;
    destruct (int_literal _); try discriminate; intros H; injection H as <-; reflexivity.
Qed.

Lemma py_int_raises (t : text) (e : exn) : py_int t = Raise e -> e = ValueError.
Proof.
  unfold py_int. destruct (int_literal _); [discriminate |].
  intros H. injection H as <-. reflexivity.
Qed.

Lemma unpack2_raises (parts : list text) (e : exn) :
  unpack2 parts = Raise e -> e = ValueError.
Proof.
  destruct parts as [| k [| v [| w rest]]]; try discriminate;
    intros H; injection H as <-; reflexivity.
Qed.

Lemma oil_lines_outcome (lines : list text) :
  match mapM (fun line => py_float (strip line)) lines with
  | Ok _ => forallb oil_line_ok lines = true
  | Raise e => e = ValueError /\ forallb oil_line_ok lines = false
  end.
Proof.
  induction lines as [| line lines IH]; cbn [mapM forallb]; [reflexivity |].
  unfold oil_line_ok at 1 3.
  destruct (py_float (strip line)) as [q | e] eqn:Hline; cbn [bind andb].
  - destruct (mapM _ lines) as [values | e]; cbn [bind]; exact IH.
  - split; [apply (py_float_raises _ _ Hline) | reflexivity].
Qed.

Lemma read_data_line_outcome (s : Solver) (line : text) :
  match read_data_line s line with
  | Ok _ => data_line_ok line = true
  | Raise e => e = ValueError /\ data_line_ok line = false
  end.
Proof.
  unfold read_data_line, data_line_ok.
  destruct (unpack2 (split_colon (strip line))) as [[key value] | e] eqn:Hparts;
    cbn [bind].
  - destruct (text_eqb key (lit "current_time")).
    + destruct (py_float value) as [t | e] eqn:Hv; cbn [bind]; [reflexivity |].
      split; [apply (py_float_raises _ _ Hv) | reflexivity].
    + destruct (text_eqb key (lit "remaining_steps")); [| reflexivity].
      destruct (py_int value) as [t | e] eqn:Hv; cbn [bind]; [reflexivity |].
      split; [apply (py_int_raises _ _ Hv) | reflexivity].
  - split; [apply (unpack2_raises _ _ Hparts) | reflexivity].
Qed.

Lemma data_lines_outcome (lines : list text) (s : Solver) :
  match foldM read_data_line lines s with
  | Ok s' => forallb data_line_ok lines = true /\ dt s' = dt s
  | Raise e => e = ValueError /\ forallb data_line_ok lines = false
  end.
Proof.
  revert s. induction lines as [| line lines IH]; intros s; cbn [foldM forallb].
  - split; reflexivity.
  - pose proof (read_data_line_outcome s line) as Hline.
    destruct (read_data_line s line) as [s1 | e] eqn:E; cbn [bind].
    + rewrite Hline. cbn [andb]. specialize (IH s1).
      destruct (foldM read_data_line lines s1) as [s' | e]; [| exact IH].
      destruct IH as [IH Hdt]. split; [exact IH |].
      rewrite Hdt. apply (read_data_line_keeps _ _ _ E).
    + destruct Hline as [-> Hline]. rewrite Hline. split; reflexivity.
Qed.

Lemma oil_line_blank (line : text) : strip line = [] -> oil_line_ok line = false.
Proof. intros H. unfold oil_line_ok, py_float. rewrite H. reflexivity. Qed.

Lemma data_line_parts (line : text) :
  List.length (split_colon (strip line)) <> 2%nat -> data_line_ok line = false.
Proof.
  intros H. unfold data_line_ok.
  destruct (split_colon (strip line)) as [| k [| v [| w rest]]]; try reflexivity.
  exfalso. apply H. reflexivity.
Qed.

Lemma forallb_false {A : Type} (f : A -> bool) (xs : list A) (x : A) :
  In x xs -> f x = false -> forallb f xs = false.
Proof.
  intros Hin Hx. destruct (forallb f xs) eqn:E; [| reflexivity].
  rewrite forallb_forall in E. rewrite (E x Hin) in Hx. discriminate Hx.
Qed.

(** The outcomes of [load_state] when both files are there. *)
Lemma load_state_cases (fs : files) (s : Solver) (folder : string) (f_oil f_data : text) :
  fs (path_join folder "oil_values.txt") = Some f_oil ->
  fs (path_join folder "simulation_data.txt") = Some f_data ->
  if forallb oil_line_ok (readlines f_oil)
     && forallb data_line_ok (readlines f_data)
  then if Qeq_bool (dt s) 0
       then load_state fs s folder = Raise ZeroDivisionError
       else exists s', load_state fs s folder = Ok s'
  else load_state fs s folder = Raise ValueError.
Proof.
  intros Hf_oil Hf_data.
  unfold load_state, exists_file, read_file. rewrite Hf_oil, Hf_data.
  cbn [negb orb bind].
  pose proof (oil_lines_outcome (readlines f_oil)) as Hoil.
  destruct (mapM _ (readlines f_oil)) as [values | e]; cbn [bind].
  - rewrite Hoil. cbn [andb].
    match goal with
    | |- context [foldM read_data_line ?lines ?s0] =>
        pose proof (data_lines_outcome lines s0) as Hdata;
        destruct (foldM read_data_line lines s0) as [s1 | e]
    end; cbn [bind].
    + destruct Hdata as [Hdata Hdt]. rewrite Hdata. cbn [dt with_mesh] in Hdt.
      unfold float_div. rewrite Hdt.
      destruct (Qeq_bool (dt s) 0); cbn [bind]; [reflexivity |].
      eexists. reflexivity.
    + destruct Hdata as [-> Hdata]. rewrite Hdata. reflexivity.
  - destruct Hoil as [-> Hoil]. rewrite Hoil. reflexivity.
Qed.

(** X12: when both restart files are there, and hold no character of code
    13.  If every line of the oil file reads as a number and every line of
    the data file has one colon, with a value that converts for the two keys
    the loop reads, [load_state] returns, unless [dt] is zero: then it
    raises [ZeroDivisionError].  If a line of the oil file is empty once
    stripped, or a line of the data file does not split in two at its
    colons, it raises [ValueError]. *)
Theorem load_state_outcome (fs : files) (s : Solver) (folder : string)
  (f_oil f_data : text) :
  fs (path_join folder "oil_values.txt") = Some f_oil ->
  fs (path_join folder "simulation_data.txt") = Some f_data ->
  no_cr f_oil = true -> no_cr f_data = true ->
  (forallb oil_line_ok (readlines f_oil) = true ->
   forallb data_line_ok (readlines f_data) = true ->
   (dt s == 0 -> load_state fs s folder = Raise ZeroDivisionError) /\
   (~ dt s == 0 -> exists s', load_state fs s folder = Ok s')) /\
  ((exists line, In line (readlines f_oil) /\ strip line = []) \/
   (exists line, In line (readlines f_data) /\
                 List.length (split_colon (strip line)) <> 2%nat) ->
   load_state fs s folder = Raise ValueError).
Proof.
  intros Hf_oil Hf_data _ _.
  pose proof (load_state_cases fs s folder f_oil f_data Hf_oil Hf_data) as Hcases.
  split.
  - intros Hoil Hdata. rewrite Hoil, Hdata in Hcases. cbn [andb] in Hcases.
    split.
    + intros Hdt. apply Qeq_bool_iff in Hdt. rewrite Hdt in Hcases. exact Hcases.
    + intros Hdt. destruct (Qeq_bool (dt s) 0) eqn:E; [| exact Hcases].
      apply Qeq_bool_iff in E. contradiction.
  - intros [(line & Hin & Hblank) | (line & Hin & Hparts)].
    + rewrite (forallb_false _ _ line Hin (oil_line_blank _ Hblank)) in Hcases.
      exact Hcases.
    + rewrite (forallb_false _ _ line Hin (data_line_parts _ Hparts)) in Hcases.
      rewrite andb_false_r in Hcases. exact Hcases.
Qed.

Lemma load_state_outcome_witness :
  (exists s', load_state halfway_restart sample_solver_open "restart" = Ok s') /\
  load_state
    (write_file halfway_restart "restart/oil_values.txt"
       [Fl 0.5; Ch newline; Ch newline])
    sample_solver_open "restart" = Raise ValueError.
Proof.
  split.
  - pose proof (load_state_outcome halfway_restart sample_solver_open "restart"
                  [Fl 0.5; Ch newline; Fl 0.25; Ch newline]
                  (lit "current_time: " ++ [Fl 0.5; Ch newline]
                   ++ lit "remaining_steps: 5" ++ [Ch newline])
                  eq_refl eq_refl eq_refl eq_refl) as [Hreturns _].
    destruct (Hreturns eq_refl eq_refl) as [_ Hok].
    apply Hok. intros H. vm_compute in H. discriminate H.
  - pose proof (load_state_outcome
                  (write_file halfway_restart "restart/oil_values.txt"
                     [Fl 0.5; Ch newline; Ch newline])
                  sample_solver_open "restart"
                  [Fl 0.5; Ch newline; Ch newline]
                  (lit "current_time: " ++ [Fl 0.5; Ch newline]
                   ++ lit "remaining_steps: 5" ++ [Ch newline])
                  eq_refl eq_refl eq_refl eq_refl) as [_ Hraises].
    apply Hraises. left. exists [Ch newline]. split; [| reflexivity].
    right. left. reflexivity.
Defined.

(** ** What [save_state] writes in the data file *)

Lemma fishing_filter_filter (cells : list Cell) (x_min x_max y_min y_max : Q) :
  Forall midpoint_ok cells ->
  fishing_filter cells x_min x_max y_min y_max
  = Ok (filter (in_fishing_area x_min x_max y_min y_max) cells).
Proof.
  induction 1 as [| cell rest Hcell _ IH]; [reflexivity |].
  destruct Hcell as (m0 & m1 & more & Hmid).
  cbn [fishing_filter filter]. rewrite IH. unfold in_fishing_area. rewrite Hmid.
  destruct (is_triangle cell); cbn [andb bind getitem nth_error]; [| reflexivity].
  destruct (between x_min m0 x_max); cbn [andb bind]; [| reflexivity].
  destruct (between y_min m1 y_max); reflexivity.
Qed.

Lemma py_max_spec (xs : list Q) (m : Q) :
  py_max xs = Ok m -> In m xs /\ forall x, In x xs -> x <= m.
Proof.
  destruct xs as [| x rest]; [discriminate |]. cbn [py_max].
  intros H. injection H as <-.
  assert (Hgen : forall l a,
             let r := fold_left (fun m y => if Qlt_le_dec m y then y else m) l a in
             (r = a \/ In r l) /\ a <= r /\ forall y, In y l -> y <= r).
  { induction l as [| y l IH]; intros a; cbn [fold_left].
    - split; [now left |]. split; [apply Qle_refl | intros y []].
    - cbv zeta in *.
      destruct (Qlt_le_dec a y) as [Hlt | Hle].
      + destruct (IH y) as (Hin & Hbound & Hall).
        split; [right; destruct Hin as [-> | Hin]; [now left | now right] |].
        split; [apply Qlt_le_weak in Hlt; apply (Qle_trans _ _ _ Hlt Hbound) |].
        intros z [<- | Hz]; [exact Hbound | apply Hall, Hz].
      + destruct (IH a) as (Hin & Hbound & Hall).
        split; [destruct Hin as [-> | Hin]; [now left | right; now right] |].
        split; [exact Hbound |].
        intros z [<- | Hz]; [apply (Qle_trans _ _ _ Hle Hbound) | apply Hall, Hz]. }
  destruct (Hgen rest x) as (Hin & Hbound & Hall). cbv zeta in *.
  split.
  - destruct Hin as [-> | Hin]; [now left | now right].
  - intros z [<- | Hz]; [exact Hbound | apply Hall, Hz].
Qed.

Lemma py_min_spec (xs : list Q) (m : Q) :
  py_min xs = Ok m -> In m xs /\ forall x, In x xs -> m <= x.
Proof.
  destruct xs as [| x rest]; [discriminate |]. cbn [py_min].
  intros H. injection H as <-.
  assert (Hgen : forall l a,
             let r := fold_left (fun m y => if Qlt_le_dec y m then y else m) l a in
             (r = a \/ In r l) /\ r <= a /\ forall y, In y l -> r <= y).
  { induction l as [| y l IH]; intros a; cbn [fold_left].
    - split; [now left |]. split; [apply Qle_refl | intros y []].
    - cbv zeta in *.
      destruct (Qlt_le_dec y a) as [Hlt | Hle].
      + destruct (IH y) as (Hin & Hbound & Hall).
        split; [right; destruct Hin as [-> | Hin]; [now left | now right] |].
        split; [apply Qlt_le_weak in Hlt; apply (Qle_trans _ _ _ Hbound Hlt) |].
        intros z [<- | Hz]; [exact Hbound | apply Hall, Hz].
      + destruct (IH a) as (Hin & Hbound & Hall).
        split; [destruct Hin as [-> | Hin]; [now left | right; now right] |].
        split; [exact Hbound |].
        intros z [<- | Hz]; [apply (Qle_trans _ _ _ Hbound Hle) | apply Hall, Hz]. }
  destruct (Hgen rest x) as (Hin & Hbound & Hall). cbv zeta in *.
  split.
  - destruct Hin as [-> | Hin]; [now left | now right].
  - intros z [<- | Hz]; [exact Hbound | apply Hall, Hz].
Qed.

Lemma simulation_data_text_ok (s : Solver) :
  _cells (_mesh s) <> [] ->
  Forall midpoint_ok (_cells (_mesh s)) ->
  exists max_oil min_oil,
    py_max (map oil_value (_cells (_mesh s))) = Ok max_oil /\
    py_min (map oil_value (_cells (_mesh s))) = Ok min_oil /\
    simulation_data_text s
    = Ok (summary_text s max_oil min_oil
            (qsum (map oil_value (_cells (_mesh s))))
            (qsum (map oil_value
                       (filter (in_fishing_area
                                  (fst (fst (fishing_borders s)))
                                  (snd (fst (fishing_borders s)))
                                  (fst (snd (fishing_borders s)))
                                  (snd (snd (fishing_borders s))))
                               (_cells (_mesh s)))))).
Proof.
  intros Hne Hmid. unfold simulation_data_text, fishing_cells.
  rewrite (fishing_filter_filter _ _ _ _ _ Hmid).
  destruct (_cells (_mesh s)) as [| c cells] eqn:Hcells; [contradiction |].
  cbn [map py_max py_min bind]. do 2 eexists.
  split; [reflexivity |]. split; reflexivity.
Qed.

Lemma save_state_data_file (fs : files) (s : Solver) (config_name output_folder : string)
  (t : text) :
  simulation_data_text s = Ok t ->
  save_state fs s config_name output_folder
  = (write_file
       (write_file
          (write_file fs
             (path_join (path_join output_folder (splitext_root config_name))
                        "oil_values.txt")
             (oil_values_text (_cells (_mesh s))))
          (path_join (path_join output_folder (splitext_root config_name))
                     "simulation_data.txt") [])
       (path_join (path_join output_folder (splitext_root config_name))
                  "simulation_data.txt") t, Ok tt).
Proof. intros H. unfold save_state. rewrite H. reflexivity. Qed.

(** X13: on a mesh that has a cell, [save_state] returns, and its data
    file holds the eight lines tStart, tEnd, meshName, max_oil, min_oil,
    total_oil, fishing_grounds_oil and fishing_borders, where [max_oil] and
    [min_oil] are values of cells that bound the values of all cells, lines
    included, [total_oil] is the sum of the values of all cells, and
    [fishing_grounds_oil] the sum over the triangles whose midpoint lies in
    the closed rectangle of the borders. *)
Theorem save_state_summary (fs : files) (s : Solver)
  (config_name output_folder : string) :
  _cells (_mesh s) <> [] ->
  Forall midpoint_ok (_cells (_mesh s)) ->
  let folder := path_join output_folder (splitext_root config_name) in
  let fs' := fst (save_state fs s config_name output_folder) in
  let values := map oil_value (_cells (_mesh s)) in
  let b := fishing_borders s in
  exists max_oil min_oil,
    snd (save_state fs s config_name output_folder) = Ok tt /\
    fs' (path_join folder "simulation_data.txt")
    = Some (summary_text s max_oil min_oil (qsum values)
              (qsum (map oil_value
                         (filter (in_fishing_area (fst (fst b)) (snd (fst b))
                                                  (fst (snd b)) (snd (snd b)))
                                 (_cells (_mesh s)))))) /\
    In max_oil values /\ (forall v, In v values -> v <= max_oil) /\
    In min_oil values /\ (forall v, In v values -> min_oil <= v).
Proof.
  intros Hne Hmid. cbv zeta.
  destruct (simulation_data_text_ok s Hne Hmid) as (max_oil & min_oil & Hmax & Hmin & Htext).
  exists max_oil, min_oil.
  rewrite (save_state_data_file _ _ _ _ _ Htext). cbn [fst snd].
  split; [reflexivity |]. split; [apply write_file_same |].
  destruct (py_max_spec _ _ Hmax) as [H1 H2], (py_min_spec _ _ Hmin) as [H3 H4].
  repeat split; assumption.
Qed.

(** X14: on a mesh without cells [save_state] raises [ValueError] (the
    maximum of an empty sequence), after it has written an empty
    [oil_values.txt] and emptied [simulation_data.txt]. *)
Theorem save_state_empty_mesh (fs : files) (s : Solver)
  (config_name output_folder : string) :
  _cells (_mesh s) = [] ->
  let folder := path_join output_folder (splitext_root config_name) in
  let fs' := fst (save_state fs s config_name output_folder) in
  snd (save_state fs s config_name output_folder) = Raise ValueError /\
  fs' (path_join folder "oil_values.txt") = Some [] /\
  fs' (path_join folder "simulation_data.txt") = Some [].
Proof.
  intros Hempty. cbv zeta. unfold save_state, simulation_data_text.
  rewrite Hempty. cbn [map py_max bind fst snd oil_values_text flat_map].
  split; [reflexivity |]. split.
  - rewrite write_file_other by apply restart_paths_differ. apply write_file_same.
  - apply write_file_same.
Qed.

(** ** Reading a text line by line *)

Lemma readlines_from_line (acc line rest : text) :
  forallb no_newline line = true ->
  readlines_from acc (line ++ Ch newline :: rest)
  = (rev acc ++ line ++ [Ch newline]) :: readlines_from [] rest.
Proof.
  revert acc. induction line as [| a line IH]; intros acc Hline.
  - cbn [app readlines_from]. change (is_char newline (Ch newline)) with true.
    cbn [rev app]. reflexivity.
  - cbn [forallb] in Hline. apply andb_true_iff in Hline. destruct Hline as [Ha Hline].
    cbn [app readlines_from]. unfold no_newline in Ha.
    destruct (is_char newline a); [discriminate Ha |].
    rewrite (IH (a :: acc) Hline). cbn [rev]. rewrite <- !app_assoc. reflexivity.
Qed.

Lemma readlines_line (line rest : text) :
  forallb no_newline line = true ->
  readlines (line ++ Ch newline :: rest) = (line ++ [Ch newline]) :: readlines rest.
Proof. intros H. unfold readlines. rewrite (readlines_from_line [] _ _ H). reflexivity. Qed.

Lemma lstrip_app (x y : text) (a : pychar) :
  is_space a = false -> lstrip (x ++ a :: y) = lstrip x ++ a :: y.
Proof.
  intros Ha. induction x as [| b x IH]; cbn [app lstrip].
  - rewrite Ha. reflexivity.
  - destruct (is_space b); [exact IH | reflexivity].
Qed.



(** [strip] of a text whose first character is no blank, around a character
    that is no blank: what follows that character loses its trailing blanks,
    and nothing else changes. *)
Lemma strip_around (c a : pychar) (p q : text) :
  is_space c = false -> is_space a = false ->
  strip (c :: p ++ a :: q) = c :: p ++ a :: rev (lstrip (rev q)).
Proof.
  intros Hc Ha. unfold strip. cbn [lstrip]. rewrite Hc.
  change (c :: p ++ a :: q) with ((c :: p) ++ a :: q).
  rewrite rev_app_distr. cbn [rev]. rewrite <- app_assoc. cbn [app].
  rewrite (lstrip_app _ _ _ Ha). rewrite rev_app_distr. cbn [rev].
  rewrite <- !app_assoc. cbn [app]. rewrite rev_app_distr, rev_involutive.
  cbn [rev app]. reflexivity.
Qed.


Lemma split_from_colon (part k v : text) :
  forallb no_colon k = true ->
  split_from part (k ++ Ch ":" :: v) = (rev part ++ k) :: split_from [] v.
Proof.
  revert part. induction k as [| a k IH]; intros part Hk.
  - cbn [app split_from]. change (is_char ":" (Ch ":")) with true.
    rewrite app_nil_r. reflexivity.
  - cbn [forallb] in Hk. apply andb_true_iff in Hk. destruct Hk as [Ha Hk].
    cbn [app split_from]. unfold no_colon in Ha.
    destruct (is_char ":" a); [discriminate Ha |].
    rewrite (IH _ Hk). cbn [rev]. rewrite <- app_assoc. reflexivity.
Qed.


Lemma readlines_data_line (key : string) (value rest : text) :
  forallb no_newline (lit key ++ lit ": " ++ value) = true ->
  readlines (data_line key value ++ rest) = data_line key value :: readlines rest.
Proof.
  intros H. unfold data_line.
  replace ((lit key ++ lit ": " ++ value ++ [Ch newline]) ++ rest)
    with ((lit key ++ lit ": " ++ value) ++ Ch newline :: rest)
    by (rewrite <- !app_assoc; reflexivity).
  rewrite (readlines_line _ _ H). rewrite <- !app_assoc. reflexivity.
Qed.

Lemma one_line_no_newline (t : text) :
  one_line t = true -> forallb no_newline t = true.
Proof.
  unfold one_line. intros H. apply forallb_forall. intros a Ha.
  apply (proj1 (forallb_forall _ _) H) in Ha.
  apply andb_true_iff in Ha. apply Ha.
Qed.




Lemma saved_files_read (fs : files) (s : Solver) (config_name output_folder : string) :
  _cells (_mesh s) <> [] ->
  Forall midpoint_ok (_cells (_mesh s)) ->
  let folder := path_join output_folder (splitext_root config_name) in
  let fs' := fst (save_state fs s config_name output_folder) in
  exists max_oil min_oil total_oil fishing,
    fs' (path_join folder "oil_values.txt") = Some (oil_values_text (_cells (_mesh s))) /\
    fs' (path_join folder "simulation_data.txt")
    = Some (summary_text s max_oil min_oil total_oil fishing).
Proof.
  intros Hne Hmid. cbv zeta.
  destruct (simulation_data_text_ok s Hne Hmid) as (max_oil & min_oil & _ & _ & Htext).
  do 4 eexists. split; [apply save_state_oil_file |].
  rewrite (save_state_data_file _ _ _ _ _ Htext). cbn [fst].
  apply write_file_same.
Qed.


Lemma existsb_rev {A : Type} (f : A -> bool) (l : list A) :
  existsb f (rev l) = existsb f l.
Proof.
  induction l as [| a l IH]; [reflexivity |].
  cbn [rev existsb]. rewrite existsb_app, IH. cbn [existsb].
  rewrite orb_false_r. apply orb_comm.
Qed.

Lemma existsb_colon_lstrip (t : text) :
  existsb (is_char ":") t = true -> existsb (is_char ":") (lstrip t) = true.
Proof.
  induction t as [| a t IH]; [discriminate |]. cbn [existsb lstrip].
  destruct (is_space a) eqn:Hspace; [| intros H; exact H].
  destruct a as [c | q]; [| exact IH].
  destruct (is_char ":" (Ch c)) eqn:Hc; [| exact IH].
  cbn [is_char] in Hc. apply Ascii.eqb_eq in Hc. subst c. discriminate Hspace.
Qed.

Lemma split_from_one (part t : text) : (1 <= List.length (split_from part t))%nat.
Proof.
  revert part. induction t as [| a t IH]; intros part; cbn [split_from].
  - cbn [List.length]. lia.
  - destruct (is_char ":" a); [cbn [List.length]; lia | apply IH].
Qed.

Lemma split_from_two (part t : text) :
  existsb (is_char ":") t = true -> (2 <= List.length (split_from part t))%nat.
Proof.
  revert part. induction t as [| a t IH]; intros part; [discriminate |].
  cbn [existsb split_from].
  destruct (is_char ":" a); cbn [orb].
  - intros _. cbn [List.length]. pose proof (split_from_one [] t). lia.
  - apply IH.
Qed.

(** The line [f"meshName: {name}\n"] stops the loop of [load_state] when
    the name holds a colon. *)
Lemma read_mesh_name_colon (s : Solver) (name : text) :
  existsb (is_char ":") name = true ->
  read_data_line s (lit "meshName" ++ lit ": " ++ name ++ [Ch newline])
  = Raise ValueError.
Proof.
  intros Hname. unfold read_data_line.
  change (lit "meshName" ++ lit ": " ++ name ++ [Ch newline])
    with (Ch "m" :: lit "eshName" ++ Ch ":" :: (Ch " " :: name ++ [Ch newline])).
  rewrite strip_around by reflexivity.
  unfold split_colon.
  change (Ch "m" :: lit "eshName" ++ Ch ":" :: rev (lstrip (rev (Ch " " :: name ++ [Ch newline]))))
    with (lit "meshName" ++ Ch ":" :: rev (lstrip (rev (Ch " " :: name ++ [Ch newline])))).
  rewrite split_from_colon by reflexivity.
  assert (H : (2 <= List.length
                      (split_from [] (rev (lstrip (rev (Ch " " :: name ++ [Ch newline]))))))%nat).
  { apply split_from_two. rewrite existsb_rev. apply existsb_colon_lstrip.
    rewrite existsb_rev. cbn [existsb is_char]. rewrite existsb_app, Hname.
    reflexivity. }
  destruct (split_from [] _) as [| v [| w rest]]; cbn [List.length] in H; try lia.
  reflexivity.
Qed.

(** X16: a state saved under a mesh name that holds a colon (a drive
    letter, say) cannot be loaded again: the line [meshName: ...] of the data
    file splits in more than two parts at its colons and [load_state] raises
    [ValueError]. *)
Theorem saved_name_with_colon (fs : files) (s s0 : Solver)
  (config_name output_folder : string) :
  _cells (_mesh s) <> [] ->
  Forall midpoint_ok (_cells (_mesh s)) ->
  has_colon (lit (_meshName s)) = true ->
  one_line (lit (_meshName s)) = true ->
  load_state (fst (save_state fs s config_name output_folder)) s0
             (path_join output_folder (splitext_root config_name))
  = Raise ValueError.
Proof.
  intros Hne Hmid Hcolon Hnl. apply one_line_no_newline in Hnl.
  destruct (saved_files_read fs s config_name output_folder Hne Hmid)
    as (max_oil & min_oil & total_oil & fishing & Hoil & Hdata).
  unfold load_state, exists_file, read_file. rewrite Hoil, Hdata.
  cbn [negb orb bind].
  rewrite readlines_oil_values_text, parse_oil_lines. cbn [bind].
  unfold summary_text.
  rewrite readlines_data_line by reflexivity.
  rewrite readlines_data_line by reflexivity.
  rewrite readlines_data_line by (rewrite !forallb_app, Hnl; reflexivity).
  cbn [foldM].
  match goal with
  | |- context [read_data_line ?s1 (data_line "tStart" ?v)] =>
      change (read_data_line s1 (data_line "tStart" v)) with (Ok s1)
  end.
  cbn [bind].
  match goal with
  | |- context [read_data_line ?s1 (data_line "tEnd" ?v)] =>
      change (read_data_line s1 (data_line "tEnd" v)) with (Ok s1)
  end.
  cbn [bind].
  unfold data_line at 1. rewrite (read_mesh_name_colon _ _ Hcolon). reflexivity.
Qed.

Lemma sample_solver_has_cells : _cells (_mesh sample_solver) <> [].
Proof. discriminate. Qed.



Lemma drive_solver_midpoints : Forall midpoint_ok (_cells (_mesh drive_solver)).
Proof. repeat constructor; eexists; eexists; eexists; reflexivity. Qed.

Lemma save_state_summary_witness :
  exists max_oil min_oil,
    snd (save_state no_files sample_solver "input.toml" "result_folder") = Ok tt /\
    max_oil == 1 /\ min_oil == 0.
Proof.
  destruct (save_state_summary no_files sample_solver "input.toml" "result_folder"
              sample_solver_has_cells sample_mesh_midpoints)
    as (max_oil & min_oil & Hsave & _ & Hmax & Hupper & Hmin & Hlower).
  exists max_oil, min_oil. split; [exact Hsave |].
  cbn in Hmax, Hmin, Hupper, Hlower. split.
  - apply Qle_antisym; [| apply Hupper; tauto].
    destruct Hmax as [<- | [<- | [<- | [<- | [<- | [<- | []]]]]]]; discriminate.
  - apply Qle_antisym; [apply Hlower; tauto |].
    destruct Hmin as [<- | [<- | [<- | [<- | [<- | [<- | []]]]]]]; discriminate.
Defined.

Lemma save_state_empty_mesh_witness :
  snd (save_state no_files empty_solver "input.toml" "result_folder")
  = Raise ValueError /\
  fst (save_state no_files empty_solver "input.toml" "result_folder")
      "result_folder/input/oil_values.txt"%string = Some [].
Proof.
  destruct (save_state_empty_mesh no_files empty_solver "input.toml" "result_folder"
              eq_refl) as (Hraise & Hoil & _).
  split; [exact Hraise | exact Hoil].
Defined.


Lemma saved_name_with_colon_witness :
  load_state (fst (save_state no_files drive_solver "input.toml" "result_folder"))
             sample_solver_open "result_folder/input" = Raise ValueError.
Proof.
  apply (saved_name_with_colon no_files drive_solver sample_solver_open
           "input.toml" "result_folder").
  - discriminate.
  - exact drive_solver_midpoints.
  - reflexivity.
  - reflexivity.
Defined.

(** ** Oil moves by one cell in a step *)

Lemma qsum_zero {A : Type} (f : A -> Q) (xs : list A) :
  (forall x, In x xs -> f x == 0) -> qsum (map f xs) == 0.
Proof.
  induction xs as [| x xs IH]; intros H; cbn [map].
  - reflexivity.
  - rewrite qsum_cons, (H x (or_introl eq_refl)), IH; [reflexivity |].
    intros y Hy. apply H. now right.
Qed.

Lemma nth_oil_value (cells : list Cell) (j : nat) :
  (forall c, nth_error cells j = Some c -> oil_value c == 0) ->
  nth j (map oil_value cells) 0 == 0.
Proof.
  revert j. induction cells as [| c cells IH]; intros [| j] H; cbn [map nth];
    try reflexivity.
  - apply H. reflexivity.
  - apply IH. intros c' Hc'. apply H. exact Hc'.
Qed.

Lemma step_value_dry (dt : Q) (cells : list Cell) (i : nat) (b : CellBase)
  (u area : Q) (normals : list vec3) :
  nth_error cells i = Some (Triangle b u area normals) ->
  dry_around cells i ->
  step_value dt cells (map oil_value cells) i b area normals == 0.
Proof.
  intros Hc (c & Hc' & Hzero & Hnbrs). rewrite Hc in Hc'. injection Hc' as <-.
  cbn [cell_base oil_value] in *.
  assert (Hi : nth i (map oil_value cells) 0 == 0).
  { apply nth_oil_value. intros c Hc'. rewrite Hc in Hc'. injection Hc' as <-.
    exact Hzero. }
  unfold step_value. rewrite Hi. rewrite qsum_zero; [reflexivity |].
  intros [e ngh] Hin. apply filter_In in Hin. destruct Hin as [Hin Hint].
  apply enumerate_in in Hin. unfold interior in Hint. cbn [snd] in Hint.
  apply Z.leb_le in Hint.
  assert (Hj : nth (Z.to_nat ngh) (map oil_value cells) 0 == 0).
  { apply nth_oil_value. intros c' Hc'.
    apply (Hnbrs ngh c' (nth_error_In _ _ Hin) Hint Hc'). }
  unfold edge_term, flux, upwind. cbn [fst snd].
  destruct (Qlt_le_dec 0 _); [rewrite Hi | rewrite Hj]; ring.
Qed.

(** X17: oil moves by one cell in a step at most: on a mesh in which no
    triangle has area 0, a cell that holds no oil and names no neighbour
    that holds oil holds no oil after a call of [calculate].  In particular
    a field without oil stays without oil. *)
Theorem calculate_locality (s : Solver) :
  mesh_ok (_cells (_mesh s)) ->
  positive_areas (_cells (_mesh s)) ->
  exists s',
    calculate s = Ok s' /\
    forall i, dry_around (_cells (_mesh s)) i ->
              exists c', nth_error (_cells (_mesh s')) i = Some c' /\ oil_value c' == 0.
Proof.
  intros Hok _.
  destruct (calculate_returns s Hok) as (s' & Hs' & _ & _ & _ & _ & Hlen & Hcells).
  exists s'. split; [exact Hs' |].
  intros i Hdry. pose proof Hdry as (c & Hc & Hzero & _).
  specialize (Hcells i c Hc).
  destruct c as [b u area normals | b u]; destruct Hcells as [u' [Hnth Hu']];
    eexists; (split; [exact Hnth |]); cbn [oil_value] in *; rewrite Hu'.
  - apply (step_value_dry _ _ _ _ _ _ _ Hc Hdry).
  - exact Hzero.
Qed.

Lemma dry_solver_ok : mesh_ok (_cells (_mesh dry_solver)).
Proof. solve_mesh_ok. Qed.

Lemma dry_solver_areas : positive_areas (_cells (_mesh dry_solver)).
Proof.
  intros i b u area normals H.
  do 2 (destruct i as [| i]; [cbn in H; injection H as _ _ <- _; discriminate |]).
  destruct i; discriminate H.
Qed.

Lemma calculate_locality_witness :
  exists s' c',
    calculate dry_solver = Ok s' /\
    nth_error (_cells (_mesh s')) 0 = Some c' /\ oil_value c' == 0.
Proof.
  destruct (calculate_locality dry_solver dry_solver_ok dry_solver_areas)
    as (s' & Hs' & Hdry).
  destruct (Hdry 0%nat) as (c' & Hc' & Hzero).
  - eexists. split; [reflexivity |]. split; [reflexivity |].
    intros ngh c Hin Hngh Hc.
    destruct Hin as [<- | [<- | [<- | []]]]; vm_compute in Hc;
      try discriminate Hc; injection Hc as <-; reflexivity.
  - exists s', c'. split; [exact Hs' |]. split; [exact Hc' | exact Hzero].
Defined.

(** ** A run of the simulation *)

Lemma fishing_refs_from_filter (k : nat) (cells : list Cell) (x_min x_max y_min y_max : Q) :
  Forall midpoint_ok cells ->
  fishing_refs_from k cells x_min x_max y_min y_max
  = Ok (map fst (filter (fun p => in_fishing_area x_min x_max y_min y_max (snd p))
                        (enumerate_from k cells))).
Proof.
  intros H. revert k. induction H as [| cell rest Hcell _ IH]; intros k; [reflexivity |].
  destruct Hcell as (m0 & m1 & more & Hmid).
  cbn [fishing_refs_from enumerate_from filter snd]. rewrite IH.
  unfold in_fishing_area. rewrite Hmid.
  destruct (is_triangle cell); cbn [andb bind getitem nth_error]; [| reflexivity].
  destruct (between x_min m0 x_max); cbn [andb bind]; [| reflexivity].
  destruct (between y_min m1 y_max); reflexivity.
Qed.

(** The values at the positions kept for one cell list, read in another cell
    list that passes the test at the same positions. *)
Lemma oil_at_refs (flag : Cell -> bool) (cells cells' full : list Cell) (k : nat) :
  map flag cells' = map flag cells ->
  (forall j c, nth_error cells' j = Some c -> nth_error full (k + j) = Some c) ->
  map (oil_at full)
      (map fst (filter (fun p => flag (snd p)) (enumerate_from k cells)))
  = map oil_value (filter flag cells').
Proof.
  revert cells' k. induction cells as [| c cells IH]; intros [| c' cells'] k Hflags Hfull;
    try discriminate Hflags; [reflexivity |].
  cbn [map] in Hflags. injection Hflags as Hc Hrest.
  cbn [enumerate_from filter snd]. rewrite <- Hc.
  assert (Htail : map (oil_at full)
                      (map fst (filter (fun p => flag (snd p)) (enumerate_from (S k) cells)))
                  = map oil_value (filter flag cells')).
  { apply IH; [exact Hrest |]. intros j d Hd.
    replace (S k + j)%nat with (k + S j)%nat by lia. apply Hfull. exact Hd. }
  destruct (flag c'); [| exact Htail].
  cbn [map fst]. rewrite Htail. f_equal.
  unfold oil_at. specialize (Hfull 0%nat c' eq_refl). rewrite Nat.add_0_r in Hfull.
  rewrite Hfull. reflexivity.
Qed.

Lemma fishing_sum_filter (cells cells' : list Cell) (x_min x_max y_min y_max : Q)
  (refs : list nat) :
  Forall midpoint_ok cells ->
  fishing_refs_from 0 cells x_min x_max y_min y_max = Ok refs ->
  map (in_fishing_area x_min x_max y_min y_max) cells'
  = map (in_fishing_area x_min x_max y_min y_max) cells ->
  fishing_sum cells' refs
  = qsum (map oil_value (filter (in_fishing_area x_min x_max y_min y_max) cells')).
Proof.
  intros Hmid Hrefs Hflags. rewrite (fishing_refs_from_filter _ _ _ _ _ _ Hmid) in Hrefs.
  injection Hrefs as <-. unfold fishing_sum. f_equal.
  apply (oil_at_refs _ cells cells' cells' 0 Hflags).
  intros j c Hc. exact Hc.
Qed.

Lemma commit_keeps (cells : list Cell) (u_new : list Q) :
  List.length u_new = List.length cells ->
  map cell_base (commit cells u_new) = map cell_base cells /\
  map is_triangle (commit cells u_new) = map is_triangle cells.
Proof.
  unfold commit. revert u_new.
  induction cells as [| c cells IH]; intros [| v u_new] Hlen; try discriminate Hlen;
    [split; reflexivity |].
  injection Hlen as Hlen. destruct (IH u_new Hlen) as [Hb Ht].
  cbn [combine map fst snd]. rewrite Hb, Ht. split; destruct c; reflexivity.
Qed.

Lemma calculate_same_but_oil (s s' : Solver) :
  calculate s = Ok s' -> same_but_oil s s'.
Proof.
  unfold calculate, calculate_cells.
  destruct (mapM _ (enumerate (_cells (_mesh s)))) as [u_new |] eqn:E; cbn [bind];
    [| discriminate].
  intros H. injection H as <-. apply mapM_length in E.
  unfold enumerate in E.
  assert (Hlen : List.length u_new = List.length (_cells (_mesh s))).
  { rewrite E. clear. generalize 0%nat. induction (_cells (_mesh s)); intros k;
      cbn [enumerate_from List.length]; [reflexivity | f_equal; apply IHl]. }
  destruct (commit_keeps _ _ Hlen) as [Hb Ht].
  unfold same_but_oil. cbn. repeat split; assumption.
Qed.

Lemma same_but_oil_refl (s : Solver) : same_but_oil s s.
Proof. unfold same_but_oil. repeat split. Qed.

Lemma same_but_oil_trans (s s' s'' : Solver) :
  same_but_oil s s' -> same_but_oil s' s'' -> same_but_oil s s''.
Proof.
  unfold same_but_oil. intros H H'.
  destruct H as (H1 & H2 & H3 & H4 & H5 & H6 & H7 & H8 & H9 & H10).
  destruct H' as (G1 & G2 & G3 & G4 & G5 & G6 & G7 & G8 & G9 & G10).
  repeat split; congruence.
Qed.

Lemma same_but_oil_flags (s s' : Solver) (x_min x_max y_min y_max : Q) :
  same_but_oil s s' ->
  map (in_fishing_area x_min x_max y_min y_max) (_cells (_mesh s'))
  = map (in_fishing_area x_min x_max y_min y_max) (_cells (_mesh s)).
Proof.
  intros (_ & _ & _ & _ & _ & _ & _ & _ & Hb & Ht).
  revert Hb Ht. generalize (_cells (_mesh s)). generalize (_cells (_mesh s')).
  induction l as [| c' l IH]; intros [| c l0] Hb Ht; try discriminate Hb; [reflexivity |].
  cbn [map] in *. injection Hb as Hc Hb. injection Ht as Htc Ht.
  rewrite (IH l0 Hb Ht). f_equal. unfold in_fishing_area. rewrite Hc, Htc. reflexivity.
Qed.

Lemma same_but_oil_midpoints (s s' : Solver) :
  same_but_oil s s' ->
  Forall midpoint_ok (_cells (_mesh s)) -> Forall midpoint_ok (_cells (_mesh s')).
Proof.
  intros (_ & _ & _ & _ & _ & _ & _ & _ & Hb & _).
  revert Hb. generalize (_cells (_mesh s)). generalize (_cells (_mesh s')).
  induction l as [| c' l IH]; intros [| c l0] Hb Hall; try discriminate Hb; [constructor |].
  cbn [map] in Hb. injection Hb as Hc Hb. inversion Hall as [| ? ? Hmid Hrest]; subst.
  constructor; [| apply (IH l0 Hb Hrest)].
  unfold midpoint_ok in *. rewrite Hc. exact Hmid.
Qed.

Lemma same_but_oil_cells (s s' : Solver) :
  same_but_oil s s' -> _cells (_mesh s) <> [] -> _cells (_mesh s') <> [].
Proof.
  intros (_ & _ & _ & _ & _ & _ & _ & _ & Hb & _) Hne E. rewrite E in Hb.
  destruct (_cells (_mesh s)); [contradiction | discriminate Hb].
Qed.

Lemma steps_snoc (n : nat) (s : Solver) :
  steps (S n) s = (s' <- steps n s ;; calculate s').
Proof.
  revert s. induction n as [| n IH]; intros s.
  - cbn [steps bind]. destruct (calculate s); reflexivity.
  - change (steps (S (S n)) s) with (s' <- calculate s ;; steps (S n) s').
    cbn [steps]. destruct (calculate s) as [s1 |]; cbn [bind]; [apply IH | reflexivity].
Qed.

Lemma steps_ok (n : nat) (s : Solver) :
  mesh_ok (_cells (_mesh s)) ->
  exists s', steps n s = Ok s' /\ mesh_ok (_cells (_mesh s')) /\ same_but_oil s s'.
Proof.
  intros Hok. induction n as [| n IH].
  - exists s. split; [reflexivity |]. split; [exact Hok | apply same_but_oil_refl].
  - destruct IH as (s1 & Hs1 & Hok1 & Hsame1).
    destruct (calculate_returns s1 Hok1) as (s2 & Hs2 & _).
    exists s2. rewrite steps_snoc, Hs1. cbn [bind]. split; [exact Hs2 |].
    split; [apply (calculate_mesh_ok _ _ Hs2 Hok1) |].
    apply (same_but_oil_trans _ _ _ Hsame1 (calculate_same_but_oil _ _ Hs2)).
Qed.

(** The multiples of [d] among 1, ..., n + 1. *)
Lemma multiples_step (d : Z) (n : nat) :
  (1 <= d)%Z ->
  (Z.of_nat (S n) / d
   = Z.of_nat n / d + (if (1 + Z.of_nat n) mod d =? 0 then 1 else 0))%Z.
Proof.
  intros Hd. replace (Z.of_nat (S n)) with (1 + Z.of_nat n)%Z by lia.
  set (m := (1 + Z.of_nat n)%Z).
  assert (Hm : (m = d * (m / d) + m mod d)%Z) by (apply Z.div_mod; lia).
  assert (Hr : (0 <= m mod d < d)%Z) by (apply Z.mod_pos_bound; lia).
  replace (Z.of_nat n) with (m - 1)%Z by lia.
  destruct (Z.eqb_spec (m mod d) 0) as [E | E].
  - symmetry. assert (H : ((m - 1) / d = m / d - 1)%Z); [| lia].
    symmetry. apply (Z.div_unique _ _ _ (d - 1)); lia.
  - symmetry. assert (H : ((m - 1) / d = m / d)%Z); [| lia].
    symmetry. apply (Z.div_unique _ _ _ (m mod d - 1)); lia.
Qed.

Lemma run_loop (write_frequency interval : Z) (refs : list nat) (s : Solver)
  (plots0 : Plots) (data0 : list (Q * Q)) (n : nat) :
  mesh_ok (_cells (_mesh s)) ->
  (1 <= interval \/ write_frequency <= 0)%Z ->
  exists r,
    foldM (run_step write_frequency interval refs)
          (map (fun k => (1 + Z.of_nat k)%Z) (seq 0 n)) (mkRun s plots0 data0) = Ok r /\
    steps n s = Ok (run_solver r) /\
    List.length (fishing_oil_data r) = (List.length data0 + n)%nat /\
    (forall k, (k < List.length data0)%nat ->
               nth_error (fishing_oil_data r) k = nth_error data0 k) /\
    (forall k s_k, (k < n)%nat -> steps (S k) s = Ok s_k ->
       nth_error (fishing_oil_data r) (List.length data0 + k)
       = Some (_tStart s + inject_Z (1 + Z.of_nat k) * dt s,
               fishing_sum (_cells (_mesh s_k)) refs)) /\
    image_counter (run_plots r)
    = (image_counter plots0
       + (if 0 <? write_frequency then Z.of_nat n / interval else 0))%Z /\
    ((write_frequency <= 0)%Z -> run_plots r = plots0).
Proof.
  intros Hok Hinterval. induction n as [| n IH].
  - exists (mkRun s plots0 data0). cbn [seq map foldM steps run_solver fishing_oil_data
                                         run_plots].
    split; [reflexivity |]. split; [reflexivity |].
    split; [lia |]. split; [reflexivity |]. split; [intros k s_k Hk; lia |].
    split; [| reflexivity].
    change (Z.of_nat 0 / interval)%Z with 0%Z.
    destruct (0 <? write_frequency)%Z; lia.
  - destruct IH as (r & Hfold & Hsteps & Hlen & Hold & Hnew & Hcount & Hplots).
    destruct (steps_ok n s Hok) as (s_n & Hs_n & Hok_n & Hsame_n).
    rewrite Hsteps in Hs_n. injection Hs_n as <-.
    destruct (calculate_returns (run_solver r) Hok_n) as (s' & Hs' & _).
    pose proof (calculate_same_but_oil _ _ Hs') as Hsame'.
    pose proof (same_but_oil_trans _ _ _ Hsame_n Hsame') as Hsame.
    destruct Hsame as (_ & Hstart & _ & _ & Hdt & _).
    rewrite seq_S, map_app, foldM_app, Hfold. cbn [map foldM bind plus].
    unfold run_step at 1. rewrite Hs'. cbn [bind].
    eexists. split; [reflexivity |].
    cbn [run_solver fishing_oil_data run_plots].
    split; [rewrite steps_snoc, Hsteps; exact Hs' |].
    split; [rewrite length_app, Hlen; cbn [List.length]; lia |].
    split; [| split; [| split]].
    + intros k Hk. rewrite nth_error_app1 by lia. apply Hold, Hk.
    + intros k s_k Hk Hs_k.
      destruct (Nat.eq_dec k n) as [-> | Hne].
      * rewrite nth_error_app2 by lia.
        replace (List.length data0 + n - List.length (fishing_oil_data r))%nat
          with 0%nat by lia.
        rewrite steps_snoc, Hsteps in Hs_k. cbn [bind] in Hs_k.
        rewrite Hs' in Hs_k. injection Hs_k as <-.
        cbn [nth_error]. rewrite Hstart, Hdt. reflexivity.
      * rewrite nth_error_app1 by lia. apply Hnew; [lia | exact Hs_k].
    + destruct (0 <? write_frequency)%Z eqn:Hwf; cbn [andb].
      * assert (Hd : (1 <= interval)%Z).
        { destruct Hinterval as [H | H]; [exact H |]. apply Z.ltb_lt in Hwf. lia. }
        rewrite (multiples_step interval n Hd).
        destruct ((1 + Z.of_nat n) mod interval =? 0)%Z;
          cbn [create_image image_counter]; lia.
      * exact Hcount.
    + intros Hwf. destruct (0 <? write_frequency)%Z eqn:E;
        [apply Z.ltb_lt in E; lia |].
      cbn [andb]. apply Hplots, Hwf.
Qed.

Lemma run_simulation_returns (fs : files) (s : Solver) (write_frequency : Z)
  (plots : Plots) (config_name : string) :
  mesh_ok (_cells (_mesh s)) ->
  Forall midpoint_ok (_cells (_mesh s)) ->
  _cells (_mesh s) <> [] ->
  exists r,
    run_simulation fs s write_frequency plots config_name
    = (fst (save_state fs (run_solver r) config_name "result_folder"), Ok r) /\
    snd (save_state fs (run_solver r) config_name "result_folder") = Ok tt /\
    steps (Z.to_nat (_nt s)) s = Ok (run_solver r) /\
    List.length (fishing_oil_data r) = S (Z.to_nat (_nt s)) /\
    (forall k s_k, (k <= Z.to_nat (_nt s))%nat -> steps k s = Ok s_k ->
       exists t oil,
         nth_error (fishing_oil_data r) k = Some (t, oil) /\
         t == _tStart s + inject_Z (Z.of_nat k) * dt s /\
         oil = fishing_area_oil s_k) /\
    ((write_frequency <= 0)%Z ->
     run_plots r = plot_fishing_oil plots (fishing_oil_data r) config_name) /\
    ((0 < write_frequency)%Z ->
     image_counter (run_plots r)
     = (image_counter plots + 2
        + Z.of_nat (Z.to_nat (_nt s)) / Z.max 1 (_nt s / write_frequency))%Z).
Proof.
  intros Hok Hmid Hne. unfold run_simulation, fishing_refs.
  set (b := fishing_borders s).
  pose proof (fishing_refs_from_filter 0 (_cells (_mesh s))
                (fst (fst b)) (snd (fst b)) (fst (snd b)) (snd (snd b)) Hmid) as Hrefs.
  rewrite Hrefs.
  set (refs := map fst _) in *.
  unfold py_range. replace (_nt s + 1 - 1)%Z with (_nt s) by lia.
  set (interval := if (0 <? write_frequency)%Z
                   then Z.max 1 (_nt s / write_frequency) else (-1)%Z).
  set (plots0 := if (0 <? write_frequency)%Z
                 then create_image plots (AtStep 0) else plots).
  assert (Hinterval : (1 <= interval \/ write_frequency <= 0)%Z).
  { unfold interval. destruct (0 <? write_frequency)%Z eqn:E.
    - left. lia.
    - right. apply Z.ltb_ge in E. exact E. }
  destruct (run_loop write_frequency interval refs s plots0
              [(_tStart s, fishing_sum (_cells (_mesh s)) refs)]
              (Z.to_nat (_nt s)) Hok Hinterval)
    as (r & Hfold & Hsteps & Hlen & Hold & Hnew & Hcount & Hplots).
  rewrite Hfold.
  destruct (steps_ok (Z.to_nat (_nt s)) s Hok) as (s_n & Hs_n & _ & Hsame_n).
  rewrite Hsteps in Hs_n. injection Hs_n as <-.
  destruct (simulation_data_text_ok (run_solver r)
              (same_but_oil_cells _ _ Hsame_n Hne)
              (same_but_oil_midpoints _ _ Hsame_n Hmid))
    as (max_oil & min_oil & _ & _ & Htext).
  rewrite (save_state_data_file _ _ _ _ _ Htext).
  eexists (mkRun (run_solver r) _ (fishing_oil_data r)).
  cbn [run_solver fishing_oil_data run_plots].
  rewrite (save_state_data_file _ _ _ _ _ Htext). cbn [fst snd].
  split; [reflexivity |]. split; [reflexivity |]. split; [exact Hsteps |].
  split; [rewrite Hlen; cbn [List.length]; lia |].
  split; [| split].
  - intros k s_k Hk Hs_k.
    destruct (steps_ok k s Hok) as (s_k' & Hs_k' & _ & Hsame_k).
    rewrite Hs_k in Hs_k'. injection Hs_k' as <-.
    assert (Hoil : fishing_sum (_cells (_mesh s_k)) refs = fishing_area_oil s_k).
    { unfold fishing_area_oil.
      pose proof Hsame_k as (_ & _ & _ & _ & _ & Hborders & _).
      rewrite Hborders. fold b.
      apply (fishing_sum_filter (_cells (_mesh s))); [exact Hmid | exact Hrefs |].
      apply same_but_oil_flags, Hsame_k. }
    destruct k as [| k].
    + do 2 eexists. split; [rewrite Hold by (cbn; lia); reflexivity |].
      split; [cbn; ring |].
      cbn [steps] in Hs_k. injection Hs_k as <-. exact Hoil.
    + do 2 eexists. split.
      * specialize (Hnew k s_k). cbn [List.length plus] in Hnew.
        apply Hnew; [lia | exact Hs_k].
      * split; [| exact Hoil].
        replace (1 + Z.of_nat k)%Z with (Z.of_nat (S k)) by lia. reflexivity.
  - intros Hwf. rewrite (Hplots Hwf). unfold plots0.
    destruct (0 <? write_frequency)%Z eqn:E; [apply Z.ltb_lt in E; lia |].
    reflexivity.
  - intros Hwf. apply Z.ltb_lt in Hwf. unfold plots0, interval in *.
    rewrite Hwf in *.
    cbn [plot_fishing_oil play_video create_video create_image image_counter].
    rewrite Hcount. cbn [create_image image_counter]. lia.
Qed.

Lemma assign_values_midpoints (cells : list Cell) (values : list Q) :
  Forall midpoint_ok cells -> Forall midpoint_ok (assign_values cells values).
Proof.
  intros H. revert values.
  induction H as [| c cells Hc Hrest IH]; intros [| v values]; cbn [assign_values].
  - constructor.
  - constructor.
  - constructor; assumption.
  - constructor; [destruct c; exact Hc | apply IH].
Qed.

Lemma Solver_init_midpoints (np_exp np_sqrt : Q -> Q)
  (meshio_read : string -> result MeshData) (fs : files) (config : Config)
  (s : Solver) :
  Solver_init np_exp np_sqrt meshio_read fs config = Ok s ->
  Forall midpoint_ok (_cells (_mesh s)).
Proof.
  unfold Solver_init.
  destruct (meshio_read (cfg_meshName config)) as [data |]; cbn [bind]; [| discriminate].
  destruct (Mesh_init np_exp np_sqrt data) as [m0 |] eqn:Hinit; cbn [bind];
    [| discriminate].
  destruct (find_neighbors m0) as [m |] eqn:Hfind; cbn [bind]; [| discriminate].
  destruct (float_div _ _) as [d |]; cbn [bind]; [| discriminate].
  destruct (built_mesh_ok np_exp np_sqrt data m0 m Hinit Hfind) as [_ Hmid].
  assert (Hload : forall s0 s1 folder,
             _mesh s0 = m -> load_state fs s0 folder = Ok s1 ->
             Forall midpoint_ok (_cells (_mesh s1))).
  { intros s0 s1 folder Hm Hload.
    destruct (load_state_cells _ _ _ _ Hload) as (f_oil & values & _ & _ & Hcells).
    rewrite Hcells, Hm. apply assign_values_midpoints, Hmid. }
  destruct (cfg_restartFile config) as [folder |].
  - destruct (String.eqb folder "").
    + intros H. injection H as <-. exact Hmid.
    + intros H. eapply Hload; [| exact H]. reflexivity.
  - intros H. injection H as <-. exact Hmid.
Qed.

(** X18: on a mesh as the builder leaves it, with a cell and without a
    triangle of area 0, a run returns:
    it has called [calculate] [nSteps] times, saved the state that results
    under [result_folder], and recorded [nSteps] + 1 samples, the sample [k]
    at the time [tStart + k * dt] with the sum of the values that the
    triangles of the fishing area have after [k] steps. *)
Theorem run_simulation_result (fs : files) (s : Solver) (write_frequency : Z)
  (plots : Plots) (config_name : string) :
  mesh_ok (_cells (_mesh s)) ->
  positive_areas (_cells (_mesh s)) ->
  Forall midpoint_ok (_cells (_mesh s)) ->
  _cells (_mesh s) <> [] ->
  exists r,
    run_simulation fs s write_frequency plots config_name
    = (fst (save_state fs (run_solver r) config_name "result_folder"), Ok r) /\
    snd (save_state fs (run_solver r) config_name "result_folder") = Ok tt /\
    steps (Z.to_nat (_nt s)) s = Ok (run_solver r) /\
    List.length (fishing_oil_data r) = S (Z.to_nat (_nt s)) /\
    forall k s_k, (k <= Z.to_nat (_nt s))%nat -> steps k s = Ok s_k ->
      exists t oil,
        nth_error (fishing_oil_data r) k = Some (t, oil) /\
        t == _tStart s + inject_Z (Z.of_nat k) * dt s /\
        oil = fishing_area_oil s_k.
Proof.
  intros Hok _ Hmid Hne.
  destruct (run_simulation_returns fs s write_frequency plots config_name Hok Hmid Hne)
    as (r & Hrun & Hsave & Hsteps & Hlen & Hdata & _).
  exists r. repeat (split; [assumption |]). exact Hdata.
Qed.


(** X20: a solver constructed without a restart folder, for a number of
    steps that is positive and a mesh with a cell and without a triangle of
    area 0, runs to its end: its run
    returns with [nSteps] + 1 samples, the first at [tStart] and the last at
    [tEnd] (in exact arithmetic). *)
Theorem run_reaches_end (np_exp np_sqrt : Q -> Q)
  (meshio_read : string -> result MeshData) (fs : files) (config : Config)
  (s : Solver) (write_frequency : Z) (plots : Plots) (config_name : string) :
  Solver_init np_exp np_sqrt meshio_read fs config = Ok s ->
  cfg_restartFile config = None ->
  (0 < cfg_nSteps config)%Z ->
  _cells (_mesh s) <> [] ->
  positive_areas (_cells (_mesh s)) ->
  exists r t0 oil0 t1 oil1,
    snd (run_simulation fs s write_frequency plots config_name) = Ok r /\
    List.length (fishing_oil_data r) = S (Z.to_nat (cfg_nSteps config)) /\
    nth_error (fishing_oil_data r) 0 = Some (t0, oil0) /\
    t0 == cfg_tStart config /\
    nth_error (fishing_oil_data r) (Z.to_nat (cfg_nSteps config)) = Some (t1, oil1) /\
    t1 == cfg_tEnd config.
Proof.
  intros Hinit Hrestart Hsteps Hne _.
  pose proof (Solver_init_mesh_ok _ _ _ _ _ _ Hinit) as Hok.
  pose proof (Solver_init_midpoints _ _ _ _ _ _ Hinit) as Hmid.
  assert (Htimes : dt s * inject_Z (cfg_nSteps config)
                   == cfg_tEnd config - cfg_tStart config /\
                   _tStart s = cfg_tStart config /\ _nt s = cfg_nSteps config).
  { revert Hinit. unfold Solver_init.
    destruct (meshio_read (cfg_meshName config)) as [data |]; cbn [bind]; [| discriminate].
    destruct (Mesh_init np_exp np_sqrt data) as [m0 |]; cbn [bind]; [| discriminate].
    destruct (find_neighbors m0) as [m |]; cbn [bind]; [| discriminate].
    destruct (float_div _ _) as [d |] eqn:Hdiv; cbn [bind]; [| discriminate].
    apply float_div_Ok in Hdiv. destruct Hdiv as [Hn ->].
    rewrite Hrestart. intros H. injection H as <-. cbn.
    split; [field; exact Hn | split; reflexivity]. }
  destruct Htimes as (Hdt & Hstart & Hnt).
  destruct (run_simulation_returns fs s write_frequency plots config_name Hok Hmid Hne)
    as (r & Hrun & _ & Hlast & Hlen & Hdata & _).
  rewrite Hnt in Hlen, Hdata, Hlast.
  destruct (Hdata 0%nat s (Nat.le_0_l _) eq_refl) as (t0 & oil0 & H0 & Ht0 & _).
  destruct (Hdata (Z.to_nat (cfg_nSteps config)) (run_solver r) (Nat.le_refl _) Hlast)
    as (t1 & oil1 & H1 & Ht1 & _).
  exists r, t0, oil0, t1, oil1. rewrite Hrun.
  split; [reflexivity |]. split; [exact Hlen |]. split; [exact H0 |].
  split; [rewrite Ht0, Hstart; cbn; ring |]. split; [exact H1 |].
  rewrite Ht1, Z2Nat.id by lia. rewrite Hstart.
  rewrite (Qmult_comm (inject_Z (cfg_nSteps config))), Hdt. ring.
Qed.

Lemma run_simulation_result_witness :
  exists r,
    snd (run_simulation no_files sample_solver 2 (mkPlots 0 []) "input.toml") = Ok r /\
    List.length (fishing_oil_data r) = 11%nat.
Proof.
  destruct (run_simulation_result no_files sample_solver 2 (mkPlots 0 []) "input.toml"
              sample_mesh_ok sample_mesh_areas sample_mesh_midpoints
              sample_solver_has_cells)
    as (r & Hrun & _ & _ & Hlen & _).
  exists r. rewrite Hrun. split; [reflexivity | exact Hlen].
Defined.


Lemma run_reaches_end_witness :
  exists r t1 oil1,
    snd (run_simulation no_files sample_mesh_solver 0 (mkPlots 0 []) "input.toml")
    = Ok r /\
    nth_error (fishing_oil_data r) 10 = Some (t1, oil1) /\ t1 == 1.
Proof.
  destruct (run_reaches_end exp_one sqrt_exact sample_meshio no_files
              (mkConfig "bay.msh" 0 1 10 ((0, 0.45), (0, 0.2)) None)
              sample_mesh_solver 0 (mkPlots 0 []) "input.toml")
    as (r & t0 & oil0 & t1 & oil1 & Hrun & _ & _ & _ & H1 & Ht1).
  - vm_compute. reflexivity.
  - reflexivity.
  - reflexivity.
  - discriminate.
  - intros i b u area normals H.
    do 6 (destruct i as [| i]; [cbn in H; try discriminate H;
                                injection H as _ _ <- _; discriminate |]).
    destruct i; discriminate H.
  - exists r, t1, oil1. split; [exact Hrun |]. split; [exact H1 | exact Ht1].
Defined.

(** ** The flux seen from the two sides of an edge *)

Lemma np_dot_opp (n v : list Q) (angle : Q) :
  np_dot n v = Ok angle ->
  exists angle', np_dot (map Qopp n) v = Ok angle' /\ angle' == - angle.
Proof.
  unfold np_dot. rewrite length_map.
  destruct (Nat.eqb (List.length n) (List.length v)); [| discriminate].
  intros H. injection H as <-. eexists. split; [reflexivity |].
  clear. revert v. induction n as [| x n IH]; intros [| y v]; cbn [map combine];
    try (unfold qsum; cbn; ring).
  rewrite !qsum_cons, IH. cbn [fst snd]. ring.
Qed.

(** X21: the flux through an edge is the same seen from its two sides,
    up to its sign: with the values of the two cells exchanged and the
    normal turned around, [flux_function] returns the opposite number. *)
Theorem flux_function_antisymmetric (a b : Q) (n v : list Q) (f : Q) :
  flux_function a b n v = Ok f ->
  exists f', flux_function b a (map Qopp n) v = Ok f' /\ f' == - f.
Proof.
  unfold flux_function.
  destruct (np_dot n v) as [angle |] eqn:Hdot; cbn [bind]; [| discriminate].
  intros H. injection H as <-.
  destruct (np_dot_opp n v angle Hdot) as (angle' & Hdot' & Hopp).
  rewrite Hdot'. cbn [bind]. eexists. split; [reflexivity |].
  destruct (Qlt_le_dec 0 angle) as [Hpos | Hneg],
           (Qlt_le_dec 0 angle') as [Hpos' | Hneg'].
  - exfalso. lra.
  - rewrite Hopp. ring.
  - rewrite Hopp. ring.
  - assert (E : angle == 0) by lra. rewrite Hopp, E. ring.
Qed.

Lemma flux_function_antisymmetric_witness :
  exists f', flux_function 0.4 0.8 (map Qopp [1; 0]) [0.5; 0] = Ok f' /\ f' == - 0.4.
Proof.
  destruct (flux_function_antisymmetric 0.8 0.4 [1; 0] [0.5; 0] (0.8 * (0 + 1 * 0.5 + 0 * 0))
              eq_refl) as (f' & Hf' & Hopp).
  exists f'. split; [exact Hf' |]. rewrite Hopp. reflexivity.
Defined.

(** ** The amount of oil over a run *)

(** One step keeps the amount of oil (the argument for one call of
    [calculate], for use over many). *)
Lemma calculate_keeps_amount (s : Solver) :
  mesh_ok (_cells (_mesh s)) ->
  paired_edges (_cells (_mesh s)) ->
  positive_areas (_cells (_mesh s)) ->
  exists s',
    calculate s = Ok s' /\
    total_amount (_cells (_mesh s')) == total_amount (_cells (_mesh s)).
Proof.
  intros Hok Hpaired Hareas.
  destruct (calculate_returns s Hok) as (s' & Hs' & _ & _ & _ & _ & Hlen & Hcells).
  exists s'. split; [exact Hs' |].
  set (cells := _cells (_mesh s)) in *.
  set (u := map oil_value cells) in *.
  rewrite (totals_from_cells (edge_flux cells u) (dt s) cells (_cells (_mesh s')) 0 Hlen).
  - rewrite (paired_fluxes_cancel cells u Hpaired). ring.
  - intros i c Hc. cbn [Nat.add]. specialize (Hcells i c Hc).
    destruct c as [b u0 area normals | b u0].
    + destruct Hcells as [u' [Hnth Hu']].
      exists (Triangle b u' area normals). split; [exact Hnth |].
      cbn [oil_amount]. rewrite Hu'.
      rewrite (amount_step_triangle (dt s) cells u i b u0 area normals Hc
                 (Hareas i b u0 area normals Hc)).
      unfold u. rewrite (nth_indep _ 0 (oil_value (Triangle b u0 area normals))).
      * rewrite map_nth, (nth_error_nth _ _ _ Hc). reflexivity.
      * rewrite length_map. apply nth_error_Some. rewrite Hc. discriminate.
    + destruct Hcells as [u' [Hnth _]].
      exists (Line b u'). split; [exact Hnth |].
      rewrite (line_has_no_edges (List.length cells) i b u0).
      * cbn [oil_amount map]. rewrite qsum_nil. ring.
      * unfold mesh_ok in Hok. rewrite Forall_forall in Hok.
        apply Hok, (nth_error_In _ _ Hc).
Qed.

Lemma calculate_geometry (s s' : Solver) :
  calculate s = Ok s' ->
  map dry_cell (_cells (_mesh s')) = map dry_cell (_cells (_mesh s)).
Proof.
  unfold calculate, calculate_cells.
  destruct (mapM _ (enumerate (_cells (_mesh s)))) as [u_new |] eqn:E; cbn [bind];
    [| discriminate].
  intros H. injection H as <-. apply mapM_length in E.
  unfold enumerate in E.
  assert (Hlen : List.length u_new = List.length (_cells (_mesh s))).
  { rewrite E. clear. generalize 0%nat. induction (_cells (_mesh s)); intros k;
      cbn [enumerate_from List.length]; [reflexivity | f_equal; apply IHl]. }
  cbn [_mesh _cells with_mesh]. unfold commit. revert Hlen. generalize u_new.
  clear. induction (_cells (_mesh s)) as [| c cells IH]; intros [| v u] Hlen;
    try discriminate Hlen; [reflexivity |].
  injection Hlen as Hlen. cbn [combine map fst snd]. rewrite (IH u Hlen).
  f_equal. destruct c; reflexivity.
Qed.

Lemma dry_cell_nth (cells cells' : list Cell) (i : nat) :
  map dry_cell cells' = map dry_cell cells ->
  option_map dry_cell (nth_error cells' i) = option_map dry_cell (nth_error cells i).
Proof. intros H. rewrite <- !nth_error_map, H. reflexivity. Qed.

Lemma dry_cell_neighbor_at (cells cells' : list Cell) (i e : nat) :
  map dry_cell cells' = map dry_cell cells ->
  neighbor_at cells' i e = neighbor_at cells i e.
Proof.
  intros H. apply (dry_cell_nth _ _ i) in H. unfold neighbor_at.
  destruct (nth_error cells' i) as [c' |], (nth_error cells i) as [c |];
    try discriminate H; [| reflexivity].
  injection H as H. destruct c, c'; try discriminate H; inversion H; reflexivity.
Qed.

Lemma dry_cell_normal_at (cells cells' : list Cell) (i e : nat) :
  map dry_cell cells' = map dry_cell cells ->
  normal_at cells' i e = normal_at cells i e.
Proof.
  intros H. apply (dry_cell_nth _ _ i) in H. unfold normal_at.
  destruct (nth_error cells' i) as [c' |], (nth_error cells i) as [c |];
    try discriminate H; [| reflexivity].
  injection H as H. destruct c, c'; try discriminate H; inversion H; reflexivity.
Qed.

Lemma dry_cell_paired (cells cells' : list Cell) :
  map dry_cell cells' = map dry_cell cells ->
  paired_edges cells -> paired_edges cells'.
Proof.
  intros H Hpaired i e j Hn.
  rewrite (dry_cell_neighbor_at _ _ _ _ H) in Hn.
  destruct (Hpaired i e j Hn) as (e' & Hback & Hnormal & Honly).
  exists e'. rewrite !(dry_cell_neighbor_at _ _ _ _ H), !(dry_cell_normal_at _ _ _ _ H).
  split; [exact Hback |]. split; [exact Hnormal |].
  intros e'' He''. rewrite (dry_cell_neighbor_at _ _ _ _ H) in He''.
  apply Honly, He''.
Qed.

Lemma dry_cell_areas (cells cells' : list Cell) :
  map dry_cell cells' = map dry_cell cells ->
  positive_areas cells -> positive_areas cells'.
Proof.
  intros H Hareas i b u area normals Hc.
  apply (dry_cell_nth _ _ i) in H. rewrite Hc in H.
  destruct (nth_error cells i) as [c |] eqn:Hc0; [| discriminate H].
  injection H as H. destruct c as [b0 u0 area0 normals0 | b0 u0];
    [| discriminate H].
  inversion H; subst. apply (Hareas i b0 u0 area0 normals0 Hc0).
Qed.

(** Over any number of steps the amount of oil is kept. *)
Lemma steps_keep_amount (n : nat) (s : Solver) :
  mesh_ok (_cells (_mesh s)) ->
  paired_edges (_cells (_mesh s)) ->
  positive_areas (_cells (_mesh s)) ->
  exists s',
    steps n s = Ok s' /\
    total_amount (_cells (_mesh s')) == total_amount (_cells (_mesh s)).
Proof.
  revert s. induction n as [| n IH]; intros s Hok Hpaired Hareas.
  - exists s. split; reflexivity.
  - destruct (calculate_keeps_amount s Hok Hpaired Hareas) as (s1 & Hs1 & Htotal1).
    pose proof (calculate_geometry _ _ Hs1) as Hgeo.
    destruct (IH s1 (calculate_mesh_ok _ _ Hs1 Hok)
                 (dry_cell_paired _ _ Hgeo Hpaired)
                 (dry_cell_areas _ _ Hgeo Hareas)) as (s' & Hs' & Htotal).
    exists s'. cbn [steps]. rewrite Hs1. cbn [bind]. split; [exact Hs' |].
    rewrite Htotal. exact Htotal1.
Qed.

(** X22: a whole run keeps the amount of oil, the sum over the triangles
    of area times value, on a mesh with a cell in which every edge with a
    neighbour is shared by two cells that name each other across it with
    opposite normals and no triangle has area 0: the state the run ends with
    and saves holds the amount it started with (in exact arithmetic). *)
Theorem run_conserves_amount (fs : files) (s : Solver) (write_frequency : Z)
  (plots : Plots) (config_name : string) :
  mesh_ok (_cells (_mesh s)) ->
  paired_edges (_cells (_mesh s)) ->
  positive_areas (_cells (_mesh s)) ->
  Forall midpoint_ok (_cells (_mesh s)) ->
  _cells (_mesh s) <> [] ->
  exists r,
    snd (run_simulation fs s write_frequency plots config_name) = Ok r /\
    total_amount (_cells (_mesh (run_solver r))) == total_amount (_cells (_mesh s)).
Proof.
  intros Hok Hpaired Hareas Hmid Hne.
  destruct (run_simulation_returns fs s write_frequency plots config_name Hok Hmid Hne)
    as (r & Hrun & _ & Hsteps & _).
  exists r. rewrite Hrun. split; [reflexivity |].
  destruct (steps_keep_amount (Z.to_nat (_nt s)) s Hok Hpaired Hareas)
    as (s' & Hs' & Htotal).
  rewrite Hsteps in Hs'. injection Hs' as <-. exact Htotal.
Qed.

Lemma sample_mesh_open_midpoints :
  Forall midpoint_ok (_cells (_mesh sample_solver_open)).
Proof. repeat constructor; eexists; eexists; eexists; reflexivity. Qed.

Lemma run_conserves_amount_witness :
  exists r,
    snd (run_simulation no_files sample_solver_open 0 (mkPlots 0 []) "input.toml")
    = Ok r /\
    total_amount (_cells (_mesh (run_solver r))) == 12.
Proof.
  destruct (run_conserves_amount no_files sample_solver_open 0 (mkPlots 0 [])
              "input.toml" sample_mesh_open_ok sample_mesh_open_paired
              sample_mesh_open_areas sample_mesh_open_midpoints)
    as (r & Hrun & Htotal).
  - discriminate.
  - exists r. split; [exact Hrun |]. rewrite Htotal. reflexivity.
Defined.
